(** * CLIKE threat scoring: a shallow embedding of [clike3.py]

    The development embeds the scoring core of the command-line scanner:
    the per-check Scorer [calculate_threat_score], the label function
    [get_threat_category], the Aggregator [calculate_overall_threat_score]
    with its process-wide stores [THREAT_SCORES] / [THREAT_DETAILS], the
    check functions whose payloads feed the Scorer, and the two drivers
    [process_url] and [process_url_with_results].

    Python values are modelled by the inductive [pyval]; exceptions by an
    explicit result type; Python floats by IEEE-754 binary64 as specified
    in the standard library's [SpecFloat]; dictionaries whose iteration
    order is observable by association lists in insertion order, the
    URL-keyed global stores by finite maps. *)

From Stdlib Require Import ZArith String Ascii List Bool Lia QArith Qround SpecFloat.
From stdpp Require Import gmap strings list fin_maps.

Local Open Scope Z_scope.
Local Open Scope string_scope.

(** ** Python values, exceptions and dictionaries *)

Module Py.

(** The exceptions the modelled code can raise. [OtherError] stands for
    any exception raised inside a collaborator (network, HTML parsing). *)
Inductive exn :=
| TypeError
| KeyError
| ValueError
| OverflowError
| ZeroDivisionError
| OtherError (msg : string).

Inductive result (A : Type) :=
| Ok (a : A)
| Raise (e : exn).
Arguments Ok {A} a.
Arguments Raise {A} e.

#[global] Instance result_ret : MRet result := fun A a => Ok a.
#[global] Instance result_bind : MBind result := fun A B f m =>
  match m with
  | Ok a => f a
  | Raise e => Raise e
  end.

Definition is_ok {A} (r : result A) : bool :=
  match r with Ok _ => true | Raise _ => false end.

(** The fragment of Python values check payloads are built from. A
    dictionary keeps its items in insertion order. Floats and other
    objects are not part of it: the payloads of the scored checks hold
    none, and what is stated of the Scorer ranges over this fragment. *)
#[warnings="-register-all"]
Inductive pyval :=
| PNone
| PBool (b : bool)
| PInt (z : Z)
| PStr (s : string)
| PList (l : list pyval)
| PDict (d : list (string * pyval)).

Section Dict.
Context {A : Type}.

(** [d.get(k)] / [d[k]] on an insertion-ordered dictionary. *)
Fixpoint dict_get (d : list (string * A)) (k : string) : option A :=
  match d with
  | [] => None
  | (k', v) :: d' => if String.eqb k' k then Some v else dict_get d' k
  end.

(** [d[k] = v]: an existing key keeps its position, a new key goes last. *)
Fixpoint dict_set (k : string) (v : A) (d : list (string * A)) : list (string * A) :=
  match d with
  | [] => [(k, v)]
  | (k', v') :: d' =>
      if String.eqb k' k then (k, v) :: d' else (k', v') :: dict_set k v d'
  end.

Definition dict_mem (d : list (string * A)) (k : string) : bool :=
  match dict_get d k with Some _ => true | None => false end.

(** [d.get(k, default)] *)
Definition get_default (d : list (string * A)) (k : string) (default : A) : A :=
  match dict_get d k with Some v => v | None => default end.
End Dict.

(** Truth value testing ([if v:], [not v]). *)
Definition truthy (v : pyval) : bool :=
  match v with
  | PNone => false
  | PBool b => b
  | PInt z => negb (Z.eqb z 0)
  | PStr s => negb (String.eqb s "")
  | PList l => match l with [] => false | _ => true end
  | PDict d => match d with [] => false | _ => true end
  end.

(** [len(v)]: defined on sized values, [TypeError] otherwise. *)
Definition py_len (v : pyval) : result Z :=
  match v with
  | PStr s => Ok (Z.of_nat (String.length s))
  | PList l => Ok (Z.of_nat (List.length l))
  | PDict d => Ok (Z.of_nat (List.length d))
  | PNone | PBool _ | PInt _ => Raise TypeError
  end.

Fixpoint str_repeat (s : string) (n : nat) : string :=
  match n with
  | O => ""
  | S n' => s ++ str_repeat s n'
  end.

Fixpoint list_repeat {A} (l : list A) (n : nat) : list A :=
  match n with
  | O => []
  | S n' => l ++ list_repeat l n'
  end.

(** [v * k] for an integer constant [k]: arithmetic on [int] and [bool],
    repetition on [str] and [list], [TypeError] on [None] and [dict]. *)
Definition py_mul_int (v : pyval) (k : Z) : result pyval :=
  match v with
  | PBool b => Ok (PInt ((if b then 1 else 0) * k))
  | PInt z => Ok (PInt (z * k))
  | PStr s => Ok (PStr (str_repeat s (Z.to_nat k)))
  | PList l => Ok (PList (list_repeat l (Z.to_nat k)))
  | PNone | PDict _ => Raise TypeError
  end.

(** [score += x] with an [int] accumulator. *)
Definition py_iadd (score : Z) (x : pyval) : result Z :=
  match x with
  | PInt z => Ok (score + z)
  | PBool b => Ok (score + (if b then 1 else 0))
  | PNone | PStr _ | PList _ | PDict _ => Raise TypeError
  end.

End Py.
Export Py.

(** ** The Scorer *)

Module Scorer.

(** [if not data.get(k, False): score += pts] *)
Definition add_if_not (d : list (string * pyval)) (k : string) (pts score : Z) : Z :=
  if negb (truthy (get_default d k (PBool false))) then score + pts else score.

(** [if data.get(k, default): score += pts] *)
Definition add_if (d : list (string * pyval)) (k : string) (default : bool)
    (pts score : Z) : Z :=
  if truthy (get_default d k (PBool default)) then score + pts else score.

(** [score += v * k] *)
Definition add_scaled (v : pyval) (k : Z) (score : Z) : result Z :=
  x ← py_mul_int v k; py_iadd score x.

(** [calculate_threat_score(check_name, data)] *)
Definition calculate_threat_score (check_name : string) (data : pyval) : result Z :=
  let score := 0 in
  score ←
    (if String.eqb check_name "security" then
       match data with
       | PDict d =>
           let score := add_if_not d "is_https" 30 score in
           let score := add_if_not d "hsts" 10 score in
           let score := add_if_not d "content_security_policy" 10 score in
           let score := add_if_not d "x_content_type_options" 5 score in
           let score := add_if_not d "x_frame_options" 5 score in
           let score := add_if_not d "x_xss_protection" 5 score in
           Ok score
       | _ => Ok score
       end
     else if String.eqb check_name "mixed_content" then
       match data with
       | PDict d => Ok (add_if d "has_mixed_content" false 40 score)
       | _ => Ok score
       end
     else if String.eqb check_name "cookie_sec" then
       match data with
       | PDict d =>
           let cookies_without_secure := get_default d "cookies_without_secure" (PInt 0) in
           let cookies_without_httponly := get_default d "cookies_without_httponly" (PInt 0) in
           let cookies_without_samesite := get_default d "cookies_without_samesite" (PInt 0) in
           score ← add_scaled cookies_without_secure 10 score;
           score ← add_scaled cookies_without_httponly 8 score;
           add_scaled cookies_without_samesite 5 score
       | _ => Ok score
       end
     else if String.eqb check_name "clickjacking" then
       match data with
       | PDict d => Ok (add_if_not d "protected" 25 score)
       | _ => Ok score
       end
     else if String.eqb check_name "csp" then
       match data with
       | PDict d =>
           let score := add_if_not d "has_csp" 20 score in
           let score := add_if d "has_unsafe_inline" false 10 score in
           let score := add_if d "has_unsafe_eval" false 10 score in
           Ok score
       | _ => Ok score
       end
     else if String.eqb check_name "iframe_security" then
       match data with
       | PDict d =>
           insecure_iframes ← py_len (get_default d "insecure_iframes" (PList []));
           Ok (score + insecure_iframes * 15)
       | _ => Ok score
       end
     else if String.eqb check_name "ssl" then
       match data with
       | PDict d =>
           let score :=
             if negb (truthy (get_default d "valid" (PBool true)))
             then score + 40 else score in
           let score := add_if d "expired" false 40 score in
           let score := add_if d "self_signed" false 20 score in
           let score := add_if d "weak_signature" false 15 score in
           Ok score
       | _ => Ok score
       end
     else if String.eqb check_name "vulns" then
       match data with
       | PDict d =>
           vuln_count ← py_len (get_default d "vulnerabilities" (PList []));
           Ok (score + vuln_count * 20)
       | _ => Ok score
       end
     else if String.eqb check_name "passwords" then
       match data with
       | PDict d =>
           let insecure_forms := get_default d "insecure_password_forms" (PInt 0) in
           add_scaled insecure_forms 30 score
       | _ => Ok score
       end
     else if String.eqb check_name "deserialize" then
       match data with
       | PDict d => Ok (add_if d "potentially_vulnerable" false 35 score)
       | _ => Ok score
       end
     else if String.eqb check_name "leaks" then
       match data with
       | PDict d =>
           sensitive_info ← py_len (get_default d "sensitive_info" (PList []));
           Ok (score + sensitive_info * 15)
       | _ => Ok score
       end
     else if String.eqb check_name "sec_headers" then
       match data with
       | PDict d =>
           let missing_headers := get_default d "missing_headers" (PList []) in
           n ← py_len missing_headers;
           Ok (score + n * 5)
       | _ => Ok score
       end
     else Ok score);
  Ok (Z.min score 100).

(** Terminal colours returned next to the label. *)
Inductive color := GREEN | CYAN | YELLOW | YELLOW_BRIGHT | RED_BRIGHT.

(** [get_threat_category(score)] *)
Definition get_threat_category (score : Z) : string * color :=
  if Z.ltb score 20 then ("Low Risk", GREEN)
  else if Z.ltb score 40 then ("Moderate Risk", CYAN)
  else if Z.ltb score 60 then ("Medium Risk", YELLOW)
  else if Z.ltb score 80 then ("High Risk", YELLOW_BRIGHT)
  else ("Critical Risk", RED_BRIGHT).

End Scorer.
Export Scorer.

(** ** Python floats: IEEE-754 binary64 *)

Module Float64.

Definition prec : Z := 53.
Definition emax : Z := 1024.

Definition float := spec_float.

Definition fadd : float -> float -> float := SFadd prec emax.
Definition fmul : float -> float -> float := SFmul prec emax.
Definition fdiv : float -> float -> float := SFdiv prec emax.

(** The correctly rounded double of an integer (may be an infinity). *)
Definition round_Z (z : Z) : float := binary_normalize prec emax z 0 false.

(** [float(z)] as applied implicitly when an [int] meets a [float]:
    correctly rounded, [OverflowError] beyond the finite range. *)
Definition float_of_Z (z : Z) : result float :=
  match round_Z z with
  | S754_infinity _ => Raise OverflowError
  | f => Ok f
  end.

(** Nearest integer to [m * 2^e], ties to the even integer. *)
Definition round_half_even (m : positive) (e : Z) : Z :=
  if (0 <=? e)%Z then Zpos m * 2 ^ e
  else
    let d := 2 ^ (- e) in
    let q := Zpos m / d in
    let r := Zpos m mod d in
    match 2 * r ?= d with
    | Lt => q
    | Gt => q + 1
    | Eq => if Z.even q then q else q + 1
    end.

(** [round(x)] with one argument: an [int], ties to even; infinities and
    NaN cannot be converted. *)
Definition py_round (x : float) : result Z :=
  match x with
  | S754_zero _ => Ok 0
  | S754_finite s m e => Ok (cond_Zopp s (round_half_even m e))
  | S754_infinity _ => Raise OverflowError
  | S754_nan => Raise ValueError
  end.

(** The float literals of the weight table. *)
Definition f1_0 : float := S754_finite false 4503599627370496 (-52).
Definition f1_2 : float := S754_finite false 5404319552844595 (-52).
Definition f1_5 : float := S754_finite false 6755399441055744 (-52).
Definition f1_3 : float := S754_finite false 5854679515581645 (-52).
Definition f0_8 : float := S754_finite false 7205759403792794 (-53).
Definition f1_1 : float := S754_finite false 4953959590107546 (-52).
Definition f0_9 : float := S754_finite false 8106479329266893 (-53).

(** A Python number held in a variable that starts as the [int] [0] and
    receives floats. *)
Inductive num :=
| NInt (z : Z)
| NFloat (f : float).

Definition to_float (n : num) : result float :=
  match n with
  | NInt z => float_of_Z z
  | NFloat f => Ok f
  end.

(** [acc += x] for a float [x]. *)
Definition num_iadd_float (acc : num) (x : float) : result num :=
  a ← to_float acc; Ok (NFloat (fadd a x)).

(** [score * weight] for an [int] score and a [float] weight. *)
Definition int_mul_float (score : Z) (weight : float) : result float :=
  s ← float_of_Z score; Ok (fmul s weight).

(** [n == 0] *)
Definition num_is_zero (n : num) : bool :=
  match n with
  | NInt z => Z.eqb z 0
  | NFloat f => SFeqb f (S754_zero false)
  end.

(** [a / b] (true division). *)
Definition num_div (a b : num) : result float :=
  if num_is_zero b then Raise ZeroDivisionError
  else x ← to_float a; y ← to_float b; Ok (fdiv x y).

End Float64.
Export Float64.

(** ** The Aggregator and its process-wide stores *)

Module Aggregator.

(** One entry of [THREAT_DETAILS[url]]. *)
Record detail := { d_score : Z; d_reason : string }.

(** [THREAT_SCORES] and [THREAT_DETAILS]: URL-keyed globals whose values
    are dictionaries in insertion order. *)
Record store := {
  THREAT_SCORES : gmap string (list (string * Z));
  THREAT_DETAILS : gmap string (list (string * detail))
}.

(** The local table [weights] of [calculate_overall_threat_score]. *)
Definition weights : list (string * float) :=
  [ ("security", f1_2); ("ssl", f1_5); ("vulns", f1_5); ("csp", f1_2);
    ("clickjacking", f1_0); ("mixed_content", f1_2); ("passwords", f1_3);
    ("iframe_security", f0_8); ("cookie_sec", f1_0); ("deserialize", f1_0);
    ("leaks", f1_1); ("sec_headers", f0_9) ].

(** One iteration of [for check, score in scores.items()]. *)
Definition accumulate (acc : num * num) (item : string * Z) : result (num * num) :=
  let '(total_score, total_weight) := acc in
  let '(check, score) := item in
  let weight := get_default weights check f1_0 in
  x ← int_mul_float score weight;
  total_score ← num_iadd_float total_score x;
  total_weight ← num_iadd_float total_weight weight;
  Ok (total_score, total_weight).

Fixpoint for_items (scores : list (string * Z)) (acc : num * num) : result (num * num) :=
  match scores with
  | [] => Ok acc
  | item :: rest => acc' ← accumulate acc item; for_items rest acc'
  end.

(** The loop and the final division of [calculate_overall_threat_score]:
    the weighted average, capped at 100. Both exits return [details]
    next to this number. *)
Definition weighted_average (scores : list (string * Z)) : result Z :=
  '(total_score, total_weight) ← for_items scores (NInt 0, NInt 0);
  if num_is_zero total_weight then Ok 0
  else
    q ← num_div total_score total_weight;
    overall_score ← py_round q;
    Ok (Z.min overall_score 100).

(** [calculate_overall_threat_score(url)] *)
Definition calculate_overall_threat_score (url : string) (st : store)
    : result (Z * list (string * detail)) :=
  match THREAT_SCORES st !! url with
  | None => Ok (0, [])
  | Some scores =>
      match THREAT_DETAILS st !! url with
      | None => Raise KeyError
      | Some details =>
          match scores with
          | [] => Ok (0, [])
          | _ => overall ← weighted_average scores; Ok (overall, details)
          end
      end
  end.

End Aggregator.
Export Aggregator.

(** ** The check functions whose payloads reach the Scorer *)

Module Checks.

(** String helpers: [s.startswith(p)], [needle in s], and [lower] on
    ASCII text (the only use compares a cookie attribute name with
    [samesite]). *)
Definition startswith (s p : string) : bool := String.prefix p s.

Fixpoint contains (needle s : string) : bool :=
  String.prefix needle s ||
  match s with
  | EmptyString => false
  | String _ s' => contains needle s'
  end.

Definition lower_ascii (c : ascii) : ascii :=
  let n := nat_of_ascii c in
  if (65 <=? n)%nat && (n <=? 90)%nat then ascii_of_nat (n + 32) else c.

Fixpoint map_string (f : ascii -> ascii) (s : string) : string :=
  match s with
  | EmptyString => EmptyString
  | String c s' => String (f c) (map_string f s')
  end.

Definition lower : string -> string := map_string lower_ascii.

(** A cookie of the jar: [secure], the non-standard attributes [_rest]
    and the fields copied verbatim into the report. *)
Record cookie := {
  c_name : string;
  c_secure : bool;
  c_rest : list (string * pyval);
  c_domain : pyval;
  c_path : pyval;
  c_expires : pyval
}.

(** What the checks read from a fetched [requests.Response]: the headers
    (keys are the header names as the case-insensitive lookup matches
    them), the cookie jar, and the result of
    [re.search(r'frame-ancestors\s+([^;]+)', csp)] on the CSP header
    ([group(1).strip()] when it matches). *)
Record response := {
  headers : gmap string string;
  cookies : list cookie;
  frame_ancestors : option string
}.

Definition has_header (r : response) (h : string) : bool :=
  bool_decide (is_Some (headers r !! h)).

(** [check_https_security(url, response)]; on a normalized URL
    [urlparse(url).scheme == 'https'] holds exactly when the URL starts
    with [https://]. *)
Definition check_https_security (url : string) (r : response) : pyval :=
  PDict
    [ ("is_https", PBool (startswith url "https://"));
      ("hsts", PBool (has_header r "Strict-Transport-Security"));
      ("content_security_policy", PBool (has_header r "Content-Security-Policy"));
      ("x_content_type_options", PBool (has_header r "X-Content-Type-Options"));
      ("x_frame_options", PBool (has_header r "X-Frame-Options"));
      ("x_xss_protection", PBool (has_header r "X-XSS-Protection")) ].

(** [True] for a non-empty header value ([if csp:]). *)
Definition nonempty (o : option string) : bool :=
  match o with
  | Some s => negb (String.eqb s "")
  | None => false
  end.

Definition opt_str (o : option string) : pyval :=
  match o with
  | Some s => PStr s
  | None => PNone
  end.

(** [check_csp_policy(response)] *)
Definition check_csp_policy (r : response) : pyval :=
  let csp_info :=
    [ ("has_csp", PBool false); ("policy", PNone); ("unsafe_inline", PBool false);
      ("unsafe_eval", PBool false); ("report_only", PBool false) ] in
  let csp := headers r !! "Content-Security-Policy" in
  let csp_info :=
    match csp with
    | Some v =>
        if negb (String.eqb v "") then
          let csp_info := dict_set "has_csp" (PBool true) csp_info in
          let csp_info := dict_set "policy" (PStr v) csp_info in
          let csp_info :=
            if contains "'unsafe-inline'" v
            then dict_set "unsafe_inline" (PBool true) csp_info else csp_info in
          if contains "'unsafe-eval'" v
          then dict_set "unsafe_eval" (PBool true) csp_info else csp_info
        else csp_info
    | None => csp_info
    end in
  let csp_info :=
    if has_header r "Content-Security-Policy-Report-Only" then
      let csp_info := dict_set "report_only" (PBool true) csp_info in
      if negb (truthy (get_default csp_info "has_csp" PNone))
      then dict_set "policy"
             (opt_str (headers r !! "Content-Security-Policy-Report-Only")) csp_info
      else csp_info
    else csp_info in
  PDict csp_info.

(** The table [important_headers] of [check_security_headers]. *)
Definition important_headers : list (string * string) :=
  [ ("Strict-Transport-Security", "Protects against downgrade attacks and cookie hijacking");
    ("Content-Security-Policy", "Prevents XSS and data injection attacks");
    ("X-Content-Type-Options", "Prevents MIME-sniffing");
    ("X-Frame-Options", "Protects against clickjacking");
    ("X-XSS-Protection", "Browser's XSS filtering");
    ("Referrer-Policy", "Controls what information is sent in the Referer header");
    ("Feature-Policy", "Controls which browser features can be used");
    ("Permissions-Policy", "Modern replacement for Feature-Policy");
    ("Cache-Control", "Controls caching of sensitive content");
    ("Clear-Site-Data", "Clears browsing data for the origin") ].

(** The three fields the loop of [check_security_headers] updates. *)
Record sec_acc := {
  sa_missing : list pyval;
  sa_present : list (string * pyval);
  sa_score : Z
}.

Definition sec_step (r : response) (acc : sec_acc) (h : string * string) : sec_acc :=
  let '(header, description) := h in
  match headers r !! header with
  | Some v =>
      {| sa_missing := sa_missing acc;
         sa_present :=
           dict_set header
             (PDict [("value", PStr v); ("description", PStr description)])
             (sa_present acc);
         sa_score := sa_score acc + 1 |}
  | None =>
      {| sa_missing :=
           sa_missing acc ++
           [PDict [("header", PStr header); ("description", PStr description)]];
         sa_present := sa_present acc;
         sa_score := sa_score acc |}
  end.

(** [check_security_headers(response)] *)
Definition check_security_headers (r : response) : pyval :=
  let acc :=
    fold_left (sec_step r) important_headers
      {| sa_missing := []; sa_present := []; sa_score := 0 |} in
  PDict
    [ ("missing", PList (sa_missing acc));
      ("present", PDict (sa_present acc));
      ("score", PInt (sa_score acc));
      ("max_score", PInt 10) ].

(** [check_for_clickjacking(response)] *)
Definition check_for_clickjacking (r : response) : pyval :=
  let info :=
    [ ("protected", PBool false); ("protection_method", PNone);
      ("x_frame_options", PNone); ("csp_frame_ancestors", PNone) ] in
  let info :=
    match headers r !! "X-Frame-Options" with
    | Some v =>
        dict_set "protection_method" (PStr "X-Frame-Options")
          (dict_set "protected" (PBool true)
             (dict_set "x_frame_options" (PStr v) info))
    | None => info
    end in
  let info :=
    match headers r !! "Content-Security-Policy", frame_ancestors r with
    | Some _, Some fa =>
        let info := dict_set "csp_frame_ancestors" (PStr fa) info in
        let info := dict_set "protected" (PBool true) info in
        if negb (truthy (get_default info "protection_method" PNone))
        then dict_set "protection_method" (PStr "CSP frame-ancestors") info
        else dict_set "protection_method"
               (PStr "Both X-Frame-Options and CSP frame-ancestors") info
    | _, _ => info
    end in
  PDict info.

(** The [SameSite] lookup of [check_cookie_security]: the last attribute
    of [_rest] whose lower-cased name is [samesite]. *)
Definition samesite_of (rest : list (string * pyval)) : pyval :=
  if dict_mem rest "SameSite" then
    fold_left
      (fun acc kv => if String.eqb (lower (fst kv)) "samesite" then snd kv else acc)
      rest PNone
  else PNone.

Record cookie_acc := {
  ca_cookies : list pyval;
  ca_insecure : list pyval;
  ca_secure_count : Z;
  ca_httponly_count : Z;
  ca_samesite_count : Z
}.

Definition cookie_step (acc : cookie_acc) (c : cookie) : cookie_acc :=
  let httponly := dict_mem (c_rest c) "HttpOnly" in
  let samesite := samesite_of (c_rest c) in
  let cookie_data :=
    PDict
      [ ("name", PStr (c_name c)); ("secure", PBool (c_secure c));
        ("httponly", PBool httponly); ("samesite", samesite);
        ("domain", c_domain c); ("path", c_path c); ("expires", c_expires c) ] in
  {| ca_cookies := ca_cookies acc ++ [cookie_data];
     ca_insecure :=
       if negb (c_secure c) || negb httponly
       then ca_insecure acc ++ [PStr (c_name c)] else ca_insecure acc;
     ca_secure_count :=
       if c_secure c then ca_secure_count acc + 1 else ca_secure_count acc;
     ca_httponly_count :=
       if httponly then ca_httponly_count acc + 1 else ca_httponly_count acc;
     ca_samesite_count :=
       if truthy samesite then ca_samesite_count acc + 1 else ca_samesite_count acc |}.

(** [check_cookie_security(response)] *)
Definition check_cookie_security (r : response) : pyval :=
  let acc :=
    fold_left cookie_step (cookies r)
      {| ca_cookies := []; ca_insecure := []; ca_secure_count := 0;
         ca_httponly_count := 0; ca_samesite_count := 0 |} in
  PDict
    [ ("cookies", PList (ca_cookies acc));
      ("insecure_cookies", PList (ca_insecure acc));
      ("secure_cookie_count", PInt (ca_secure_count acc));
      ("httponly_cookie_count", PInt (ca_httponly_count acc));
      ("samesite_cookie_count", PInt (ca_samesite_count acc)) ].

(** What [check_ssl_info] observed on the wire: whether [connect]
    succeeded, the values it managed to store, in order, into the fields
    [ssl_fields] before finishing or failing, and the final [error]
    field ([None] or the text of the exception caught). *)
Record ssl_outcome := {
  so_connected : bool;
  so_values : list pyval;
  so_error : pyval
}.

Definition ssl_fields : list string :=
  [ "subject"; "issuer"; "version"; "valid_from"; "valid_until";
    "serial_number"; "days_until_expiry" ].

Fixpoint assign_all (ks : list string) (vs : list pyval)
    (d : list (string * pyval)) : list (string * pyval) :=
  match ks, vs with
  | k :: ks', v :: vs' => assign_all ks' vs' (dict_set k v d)
  | _, _ => d
  end.

(** [check_ssl_info(domain)]: every exception is caught inside. *)
Definition check_ssl_info (o : ssl_outcome) : pyval :=
  let ssl_info :=
    [ ("has_ssl", PBool false); ("issuer", PNone); ("subject", PNone);
      ("version", PNone); ("valid_from", PNone); ("valid_until", PNone);
      ("serial_number", PNone); ("error", PNone) ] in
  let ssl_info :=
    if so_connected o then
      assign_all ssl_fields (so_values o) (dict_set "has_ssl" (PBool true) ssl_info)
    else ssl_info in
  PDict (dict_set "error" (so_error o) ssl_info).

Definition finding (type description severity : string) : pyval :=
  PDict [("type", PStr type); ("description", PStr description);
         ("severity", PStr severity)].

(** What the five passes of [check_for_vulns] found in the page, in the
    order they append to [potential_vulns]. *)
Record vulns_obs := {
  vo_reflected : list (string * string);   (* parameter, value *)
  vo_csrf : list string;                   (* form action *)
  vo_redirects : list (string * string);   (* parameter, href *)
  vo_protocol_relative : option string;    (* first such URL *)
  vo_outdated : list (string * string)     (* description, src *)
}.

(** [check_for_vulns(url, soup)] *)
Definition check_for_vulns (o : vulns_obs) : pyval :=
  let potential_vulns : list pyval :=
    (map (fun pv => finding "Potential Reflected XSS"
            ("Parameter '" +:+ fst pv +:+ "' with value '" +:+ snd pv
             +:+ "' found in page response") "Medium") (vo_reflected o)
     ++ map (fun a => finding "Potential CSRF Vulnerability"
               ("Form with action '" +:+ a +:+ "' lacks CSRF protection") "Medium")
          (vo_csrf o)
     ++ map (fun ph => finding "Potential Open Redirect"
               ("Link contains redirect parameter '" +:+ fst ph +:+ "': " +:+ snd ph)
               "Low")
          (vo_redirects o)
     ++ match vo_protocol_relative o with
        | Some u => [finding "Potential Host Header Injection"
                       ("Protocol-relative URL found: " +:+ u) "Low"]
        | None => []
        end
     ++ map (fun ds => finding "Potentially Outdated Library"
               (fst ds +:+ " detected: " +:+ snd ds) "Low") (vo_outdated o))%list in
  PDict
    [ ("potential_vulns", PList potential_vulns);
      ("checks_performed",
       PList [ PStr "Reflected parameter check"; PStr "CSRF protection check";
               PStr "Open redirect check"; PStr "Host header injection check";
               PStr "Outdated library check" ]);
      ("disclaimer",
       PStr "This is a passive scan and may produce false positives or miss vulnerabilities.") ].

(** A [<form>] as [check_password_forms] reads it. The check maps
    case with [str.upper] and [str.lower], which follow Unicode; the
    record holds the mapped strings the check goes on with. *)
Record form := {
  f_action : string;      (* form.get('action', '') *)
  f_method : string;      (* form.get('method', 'GET').upper() *)
  f_password_autocomplete : list string;
                          (* pw_input.get('autocomplete', '').lower(),
                             one per password input *)
  f_hidden_names : list string;
                          (* hidden.get('name', '').lower(), one per
                             hidden input *)
  f_html : string         (* str(form).lower() *)
}.

Record pw_acc := {
  pa_total : Z;
  pa_forms : list pyval;
  pa_secure : Z;
  pa_insecure : Z
}.

Definition pw_step (acc : pw_acc) (f : form) : pw_acc :=
  match f_password_autocomplete f with
  | [] => acc
  | password_inputs =>
      let method := f_method f in
      let has_autocomplete_off :=
        existsb (fun a => String.eqb a "off") password_inputs in
      let action := f_action f in
      let submits_over_https :=
        startswith action "https://"
        || (negb (startswith action "http://") && negb (startswith action "//")) in
      let has_csrf_token :=
        existsb (fun n => contains "csrf" n || contains "token" n)
          (f_hidden_names f) in
      let form_html := f_html f in
      let has_captcha := contains "captcha" form_html || contains "recaptcha" form_html in
      let form_data :=
        PDict
          [ ("action", PStr action); ("method", PStr method);
            ("has_autocomplete_off", PBool has_autocomplete_off);
            ("submits_over_https", PBool submits_over_https);
            ("has_csrf_token", PBool has_csrf_token);
            ("has_captcha", PBool has_captcha) ] in
      let secure := String.eqb method "POST" && submits_over_https in
      {| pa_total := pa_total acc + 1;
         pa_forms := pa_forms acc ++ [form_data];
         pa_secure := if secure then pa_secure acc + 1 else pa_secure acc;
         pa_insecure := if secure then pa_insecure acc else pa_insecure acc + 1 |}
  end.

(** [check_password_forms(soup)] *)
Definition check_password_forms (forms : list form) : pyval :=
  let acc :=
    fold_left pw_step forms
      {| pa_total := 0; pa_forms := []; pa_secure := 0; pa_insecure := 0 |} in
  PDict
    [ ("total_password_forms", PInt (pa_total acc));
      ("forms", PList (pa_forms acc));
      ("secure_forms", PInt (pa_secure acc));
      ("insecure_forms", PInt (pa_insecure acc)) ].

(** An [<iframe>] as [check_iframe_security] reads it. *)
Record iframe := {
  i_src : string;
  i_title : string;
  i_has_sandbox : bool;
  i_sandbox_value : pyval;
  i_id : string;
  i_has_allow : bool;
  i_allow_value : pyval
}.

Record iframe_acc := {
  ia_iframes : list pyval;
  ia_sandboxed : Z;
  ia_insecure : list pyval
}.

Definition iframe_step (acc : iframe_acc) (f : iframe) : iframe_acc :=
  let uses_https := startswith (i_src f) "https://" in
  let iframe_data :=
    PDict
      [ ("src", PStr (i_src f)); ("title", PStr (i_title f));
        ("has_sandbox", PBool (i_has_sandbox f));
        ("sandbox_value", i_sandbox_value f);
        ("uses_https", PBool uses_https); ("iframe_id", PStr (i_id f));
        ("has_allow", PBool (i_has_allow f)); ("allow_value", i_allow_value f) ] in
  let issues : list pyval :=
    ((if negb (i_has_sandbox f) then [PStr "No sandbox attribute"] else [])
     ++ (if negb uses_https && negb (String.eqb (i_src f) "")
            && negb (startswith (i_src f) "/")
         then [PStr "Not using HTTPS"] else []))%list in
  {| ia_iframes := ia_iframes acc ++ [iframe_data];
     ia_sandboxed := if i_has_sandbox f then ia_sandboxed acc + 1 else ia_sandboxed acc;
     ia_insecure :=
       if negb (i_has_sandbox f) || negb uses_https
       then ia_insecure acc ++ [PDict [("src", PStr (i_src f)); ("issues", PList issues)]]
       else ia_insecure acc |}.

(** [check_iframe_security(soup)] *)
Definition check_iframe_security (iframes : list iframe) : pyval :=
  let acc :=
    fold_left iframe_step iframes
      {| ia_iframes := []; ia_sandboxed := 0; ia_insecure := [] |} in
  PDict
    [ ("total_iframes", PInt (Z.of_nat (List.length iframes)));
      ("iframes", PList (ia_iframes acc));
      ("sandboxed_iframes", PInt (ia_sandboxed acc));
      ("insecure_iframes", PList (ia_insecure acc)) ].

(** [check_mixed_content(soup, url)]; [found] lists the (tag, URL) pairs
    of the [http://] resources the three passes meet, in order. *)
Definition check_mixed_content (found : list (string * string)) (url : string) : pyval :=
  let is_https_page := startswith url "https://" in
  if negb is_https_page then
    PDict [ ("has_mixed_content", PBool false); ("mixed_resources", PList []);
            ("is_https_page", PBool is_https_page) ]
  else
    PDict
      [ ("has_mixed_content", PBool (match found with [] => false | _ => true end));
        ("mixed_resources",
         PList (map (fun tu => PDict [("type", PStr (fst tu)); ("url", PStr (snd tu))])
                  found));
        ("is_https_page", PBool is_https_page) ].

(** The descriptions of [risky_patterns], in order. *)
Definition risky_patterns : list string :=
  [ "eval() with JSON.parse or atob"; "document.write with parsed data";
    "innerHTML assignment with parsed data"; "JSON.parse with localStorage data";
    "JSON.parse with sessionStorage data";
    "PHP-style unserialize function (may be custom implementation)";
    "Custom deserialize function"; "Custom fromJSON function" ].

(** [check_insecure_deserialization(soup)]; [occurrences d] is
    [len(re.findall(pattern, combined_js))] for the pattern described by [d]. *)
Definition check_insecure_deserialization (occurrences : string -> nat) : pyval :=
  let potential_issues :=
    flat_map
      (fun description =>
         match occurrences description with
         | O => []
         | n => [PDict [ ("pattern", PStr description);
                          ("occurrences", PInt (Z.of_nat n));
                          ("severity", PStr "Medium") ]]
         end)
      risky_patterns in
  PDict
    [ ("potential_issues", PList potential_issues);
      ("checked", PBool true);
      ("disclaimer",
       PStr "This is a heuristic check and may produce false positives or miss vulnerabilities.") ].

(** What [check_for_leaks] extracts from the page. *)
Record leaks_obs := {
  lo_comments : list string;   (* stripped HTML comments *)
  lo_emails : list string;     (* list(set(emails)) *)
  lo_ips : list string;        (* list(set(ips)) *)
  lo_credentials : bool        (* some credential pattern matches *)
}.

Definition clip_comment (c : string) : string :=
  if (150 <? String.length c)%nat then String.substring 0 150 c +:+ "..." else c.

(** [check_for_leaks(soup, response)] *)
Definition check_for_leaks (o : leaks_obs) (r : response) : pyval :=
  let html_comments :=
    map (fun c => PStr (clip_comment c))
      (filter (fun c => negb (String.eqb c "") && (5 <? String.length c)%nat)
         (lo_comments o)) in
  PDict
    [ ("html_comments", PList html_comments);
      ("server_info", opt_str (headers r !! "Server"));
      ("email_addresses", PList (map PStr (firstn 10 (lo_emails o))));
      ("ip_addresses", PList (map PStr (firstn 10 (lo_ips o))));
      ("potential_credentials", PBool (lo_credentials o)) ].

End Checks.
Export Checks.

(** ** The drivers: [process_url_with_results], [run_all_checks], [process_url] *)

Module Orchestrator.

(** The parsed command line: every [store_true] attribute by name, and
    the string option [--view-file]. *)
Record Args := {
  flag : string -> bool;
  view_file : option string
}.

(** What the soup-based scoring checks read from the parsed page.
    [check_for_vulns] parses every link with [urlparse], which raises on
    a malformed one. *)
Record soup := {
  s_vulns : result vulns_obs;
  s_password_forms : list form;
  s_iframes : list iframe;
  s_mixed : list (string * string);
  s_deser : string -> nat;
  s_leaks : leaks_obs
}.

(** The collaborators: the fetch behind [check_url] ([None] when it
    reports a failure), the HTML parser ([inl] carries the text of the
    exception), the TLS probe of [check_ssl_info] by domain, and every
    informational check by name. *)
Record env := {
  check_url : string -> option response;
  parse_html : response -> string + soup;
  ssl_probe : string -> ssl_outcome;
  info : string -> result pyval;
  lite_mode : bool
}.

Inductive check :=
| Info (fn : string)
| HttpsSecurity
| CspPolicy
| SecurityHeaders
| Leaks
| SslInfo
| CookieSecurity
| Vulns
| Clickjacking
| PasswordForms
| IframeSecurity
| MixedContent
| Deserialization.

(** [normalize_url(url)] *)
Definition normalize_url (url : string) : string :=
  if negb (startswith url "http://" || startswith url "https://")
  then "http://" +:+ url
  else url.

Fixpoint take_host (s : string) : string :=
  match s with
  | EmptyString => EmptyString
  | String c s' =>
      if Ascii.eqb c "/" || Ascii.eqb c "?" || Ascii.eqb c "#"
      then EmptyString
      else String c (take_host s')
  end.

(** [urllib.parse.urlparse(url).netloc] of a normalized URL. *)
Definition netloc (url : string) : string :=
  if startswith url "https://" then take_host (String.substring 8 (String.length url - 8) url)
  else if startswith url "http://" then take_host (String.substring 7 (String.length url - 7) url)
  else "".

Section Run.
Variable E : env.

(** One check on the fetched page. *)
Definition run_check (url : string) (r : response) (sp : soup) (c : check)
    : result pyval :=
  match c with
  | Info fn => info E fn
  | HttpsSecurity => Ok (check_https_security url r)
  | CspPolicy => Ok (check_csp_policy r)
  | SecurityHeaders => Ok (check_security_headers r)
  | Leaks => Ok (check_for_leaks (s_leaks sp) r)
  | SslInfo => Ok (check_ssl_info (ssl_probe E (netloc url)))
  | CookieSecurity => Ok (check_cookie_security r)
  | Vulns => o ← s_vulns sp; Ok (check_for_vulns o)
  | Clickjacking => Ok (check_for_clickjacking r)
  | PasswordForms => Ok (check_password_forms (s_password_forms sp))
  | IframeSecurity => Ok (check_iframe_security (s_iframes sp))
  | MixedContent => Ok (check_mixed_content (s_mixed sp) url)
  | Deserialization => Ok (check_insecure_deserialization (s_deser sp))
  end.

(** The blocks [if args.<flag> or args.all: results[<key>] = <check>]
    of [process_url_with_results], in source order. *)
Definition result_blocks : list (string * string * check) :=
  [ ("title", "title", Info "get_page_title");
    ("dns", "dns_info", Info "get_dns_info");
    ("redirects", "redirects", Info "check_url_redirects");
    ("forms", "forms", Info "extract_forms");
    ("network", "network_info", Info "get_network_info");
    ("meta", "meta_tags", Info "extract_meta_tags");
    ("cookies", "cookies", Info "get_cookies");
    ("security", "security_info", HttpsSecurity);
    ("images", "image_count", Info "count_images");
    ("links", "links", Info "extract_links");
    ("external", "external_links", Info "extract_links['external']");
    ("words", "word_count", Info "count_words");
    ("js", "js_tags", Info "extract_js_tags");
    ("css", "css_resources", Info "extract_css_resources");
    ("sitemap", "sitemap_info", Info "check_sitemap");
    ("robots", "robots_info", Info "check_robots_txt");
    ("videos", "video_count", Info "count_videos");
    ("broken", "broken_links", Info "check_broken_links");
    ("mobile", "mobile_support", Info "check_mobile_support");
    ("h1", "headers", Info "extract_header_tags");
    ("lang", "language", Info "get_page_language");
    ("export", "text_content", Info "export_text_content");
    ("sql", "sql_leaks", Info "check_sql_leak");
    ("headers", "http_headers", Info "dict(response.headers)");
    ("internal", "internal_links", Info "extract_links['internal']");
    ("assets", "assets", Info "extract_assets");
    ("scripts", "scripts", Info "soup.find_all('script', src=True)");
    ("inputs", "inputs", Info "extract_inputs");
    ("buttons", "buttons", Info "extract_buttons");
    ("tables", "tables", Info "extract_tables");
    ("iframes", "iframes", Info "extract_iframes");
    ("keywords", "keywords", Info "extract_keywords");
    ("cors", "cors_policy", Info "check_cors_policy");
    ("csp", "csp_policy", CspPolicy);
    ("feature_policy", "feature_policy", Info "check_feature_policy");
    ("sensitive_files", "sensitive_files", Info "check_for_sensitive_files");
    ("subdomains", "subdomains", Info "check_subdomains");
    ("waf", "waf", Info "check_waf_presence");
    ("sec_headers", "security_headers", SecurityHeaders);
    ("leaks", "information_leaks", Leaks);
    ("ports", "common_ports", Info "check_open_ports(domain, True)");
    ("ports_all", "all_ports", Info "check_open_ports(domain, False)");
    ("ssl", "ssl_info", SslInfo);
    ("methods", "http_methods", Info "check_http_methods");
    ("cookie_sec", "cookie_security", CookieSecurity);
    ("cache", "cache_headers", Info "check_caching_headers");
    ("server_info", "server_info", Info "extract_server_info");
    ("vulns", "vulnerabilities", Vulns);
    ("clickjacking", "clickjacking", Clickjacking);
    ("uploads", "upload_forms", Info "check_file_upload_forms");
    ("passwords", "password_forms", PasswordForms);
    ("api", "api_endpoints", Info "check_api_endpoints");
    ("perf", "server_performance", Info "check_server_status");
    ("email_protection", "email_protection", Info "check_email_protection");
    ("honeypots", "form_honeypots", Info "check_for_honeypots");
    ("iframe_security", "iframe_security", IframeSecurity);
    ("third_party", "third_party_resources", Info "check_third_party_resources");
    ("content_type", "content_types", Info "check_content_types");
    ("mixed_content", "mixed_content", MixedContent);
    ("deserialize", "insecure_deserialization", Deserialization) ].

Fixpoint run_blocks (url : string) (r : response) (sp : soup) (args : Args)
    (blocks : list (string * string * check)) (results : gmap string pyval)
    : result (gmap string pyval) :=
  match blocks with
  | [] => Ok results
  | (f, key, c) :: rest =>
      if flag args f || flag args "all" then
        v ← run_check url r sp c;
        run_blocks url r sp args rest (<[key := v]> results)
      else run_blocks url r sp args rest results
  end.

(** The three trailing blocks: [--sql-search], [--view-file],
    [--format-results]. *)
Definition extra_blocks (args : Args) (results : gmap string pyval)
    : result (gmap string pyval) :=
  results ←
    (if flag args "sql_search" then
       v ← info E "search_sql_files"; Ok (<["sql_files" := v]> results)
     else Ok results);
  results ←
    (match view_file args with
     | Some path =>
         if negb (String.eqb path "") then
           v ← info E "view_sensitive_file_content";
           Ok (<["sensitive_file_content" :=
                   PDict [("path", PStr path); ("content", v)]]> results)
         else Ok results
     | None => Ok results
     end);
  if flag args "format_results" && negb (bool_decide (results = ∅)) then
    _ ← info E "format_results"; Ok results
  else Ok results.
End Run.

(** Code that reads and writes the global stores and may raise. *)
Definition M (A : Type) : Type := store -> result A * store.

#[global] Instance M_ret : MRet M := fun A a st => (Ok a, st).
#[global] Instance M_bind : MBind M := fun A B f m st =>
  match m st with
  | (Ok a, st') => f a st'
  | (Raise e, st') => (Raise e, st')
  end.

Definition lift {A} (r : result A) : M A := fun st => (r, st).

(** [THREAT_SCORES[url] = {}; THREAT_DETAILS[url] = {}] *)
Definition init_session (url : string) : M unit := fun st =>
  (Ok tt,
   {| THREAT_SCORES := <[url := []]> (THREAT_SCORES st);
      THREAT_DETAILS := <[url := []]> (THREAT_DETAILS st) |}).

(** [THREAT_SCORES[url][kind] = score] *)
Definition set_score (url kind : string) (score : Z) : M unit := fun st =>
  match THREAT_SCORES st !! url with
  | None => (Raise KeyError, st)
  | Some d =>
      (Ok tt,
       {| THREAT_SCORES := <[url := dict_set kind score d]> (THREAT_SCORES st);
          THREAT_DETAILS := THREAT_DETAILS st |})
  end.

(** [THREAT_DETAILS[url][kind] = {"score": score, "reason": reason}] *)
Definition set_detail (url kind : string) (score : Z) (reason : string) : M unit :=
  fun st =>
  match THREAT_DETAILS st !! url with
  | None => (Raise KeyError, st)
  | Some d =>
      (Ok tt,
       {| THREAT_SCORES := THREAT_SCORES st;
          THREAT_DETAILS :=
            <[url := dict_set kind {| d_score := score; d_reason := reason |} d]>
              (THREAT_DETAILS st) |})
  end.

(** The rows [if args.<flag> and "<key>" in results:] of the scoring
    part, in source order: flag, key of [results], check name, reason. *)
Definition scoring_rows : list (string * string * string * string) :=
  [ ("security", "security_info", "security", "HTTPS and security header issues");
    ("ssl", "ssl_info", "ssl", "SSL/TLS certificate issues");
    ("csp", "csp_policy", "csp", "Content Security Policy issues");
    ("clickjacking", "clickjacking", "clickjacking", "Clickjacking protection issues");
    ("mixed_content", "mixed_content", "mixed_content", "Mixed content issues");
    ("cookie_sec", "cookie_security", "cookie_sec", "Cookie security issues");
    ("leaks", "information_leaks", "leaks", "Information leakage issues");
    ("sec_headers", "security_headers", "sec_headers", "Missing security headers");
    ("vulns", "vulnerabilities", "vulns", "Vulnerability issues");
    ("passwords", "password_forms", "passwords", "Password form security issues");
    ("iframe_security", "iframe_security", "iframe_security", "Iframe security issues");
    ("deserialize", "insecure_deserialization", "deserialize",
     "Insecure deserialization issues") ].

Definition score_row (url : string) (args : Args) (results : gmap string pyval)
    (row : string * string * string * string) : M unit :=
  let '(f, key, kind, reason) := row in
  if flag args f then
    match results !! key with
    | Some payload =>
        score ← lift (calculate_threat_score kind payload);
        _ ← set_score url kind score;
        set_detail url kind score reason
    | None => mret tt
    end
  else mret tt.

Fixpoint score_rows (url : string) (args : Args) (results : gmap string pyval)
    (rows : list (string * string * string * string)) : M unit :=
  match rows with
  | [] => mret tt
  | row :: rest => _ ← score_row url args results row; score_rows url args results rest
  end.

(** The flags of [if args.all or any([...])] that open the scoring part. *)
Definition threat_flags : list string :=
  [ "security"; "ssl"; "csp"; "cors"; "sec_headers"; "cookie_sec"; "clickjacking";
    "mixed_content"; "vulns"; "leaks"; "passwords"; "iframe_security"; "deserialize" ].

Definition wants_threat_score (args : Args) : bool :=
  flag args "all" || existsb (flag args) threat_flags.

Definition detail_val (d : detail) : pyval :=
  PDict [("score", PInt (d_score d)); ("reason", PStr (d_reason d))].

(** The entry stored under [results["threat_score"]]. *)
Definition threat_score_entry (score : Z) (details : list (string * detail)) : pyval :=
  PDict
    [ ("score", PInt score);
      ("category", PStr (fst (get_threat_category score)));
      ("details", PDict (map (fun kd => (fst kd, detail_val (snd kd))) details)) ].

(** [calculate_overall_threat_score(url)] reads the global stores. *)
Definition aggregate (url : string) : M (Z * list (string * detail)) :=
  fun st => (calculate_overall_threat_score url st, st).

Section Drivers.
Variable E : env.

(** [process_url_with_results(url, args)] *)
Definition process_url_with_results (url : string) (args : Args)
    : M (gmap string pyval) :=
  _ ← init_session url;
  let url := normalize_url url in
  match check_url E url with
  | None => mret {[ "error" := PStr "Failed to connect to URL" ]}
  | Some response =>
      match parse_html E response with
      | inl msg => mret {[ "error" := PStr ("Error parsing HTML: " +:+ msg) ]}
      | inr sp =>
          results ← lift (run_blocks E url response sp args result_blocks ∅);
          results ← lift (extra_blocks E args results);
          if wants_threat_score args then
            _ ← score_rows url args results scoring_rows;
            a ← aggregate url;
            mret (<["threat_score" := threat_score_entry (fst a) (snd a)]> results)
          else mret results
      end
  end.

(** The checks of [run_all_checks], in source order; the port scan is
    skipped in lite mode. *)
Definition all_checks : list check :=
  [ Info "get_page_title"; Info "get_dns_info"; Info "check_url_redirects";
    Info "extract_forms"; Info "get_network_info"; Info "extract_meta_tags";
    Info "get_cookies"; HttpsSecurity; Info "count_images"; Info "extract_links";
    Info "count_words"; Info "extract_js_tags"; Info "extract_css_resources";
    Info "check_sitemap"; Info "check_robots_txt"; Info "count_videos";
    Info "check_mobile_support"; Info "extract_header_tags";
    Info "get_page_language"; Info "check_sql_leak"; Info "check_cors_policy";
    CspPolicy; Info "check_feature_policy"; Info "check_for_sensitive_files";
    Info "check_subdomains"; Info "check_waf_presence"; SecurityHeaders; Leaks ]
  ++ (if lite_mode E then [] else [Info "check_open_ports(domain, True)"])
  ++ [ SslInfo; Info "check_http_methods"; CookieSecurity;
       Info "check_caching_headers"; Info "extract_server_info"; Vulns;
       Clickjacking; Info "check_file_upload_forms"; PasswordForms;
       Info "check_api_endpoints"; Info "check_server_status";
       Info "check_email_protection"; Info "check_for_honeypots"; IframeSecurity;
       Info "check_third_party_resources"; Info "check_content_types";
       MixedContent; Deserialization ].

(** [run_all_checks(url, soup, response)]: every check runs and is
    printed; nothing is stored or scored. The printed payloads are
    returned for inspection. *)
Fixpoint run_checks (url : string) (r : response) (sp : soup) (cs : list check)
    : result (list pyval) :=
  match cs with
  | [] => Ok []
  | c :: rest =>
      v ← run_check E url r sp c;
      vs ← run_checks url r sp rest;
      Ok (v :: vs)
  end.

Definition run_all_checks (url : string) (sp : soup) (r : response)
    : result (list pyval) :=
  run_checks url r sp all_checks.

(** The blocks [if args.<flag>: print_result(...)] of [process_url]. *)
Definition print_blocks : list (string * check) :=
  [ ("title", Info "get_page_title"); ("dns", Info "get_dns_info");
    ("redirects", Info "check_url_redirects"); ("forms", Info "extract_forms");
    ("network", Info "get_network_info"); ("meta", Info "extract_meta_tags");
    ("cookies", Info "get_cookies"); ("security", HttpsSecurity);
    ("images", Info "count_images"); ("links", Info "extract_links");
    ("external", Info "extract_links['external']");
    ("available", Info "check_url_availability");
    ("words", Info "count_words"); ("js", Info "extract_js_tags");
    ("css", Info "extract_css_resources"); ("sitemap", Info "check_sitemap");
    ("robots", Info "check_robots_txt"); ("videos", Info "count_videos");
    ("broken", Info "check_broken_links"); ("mobile", Info "check_mobile_support");
    ("headers", Info "extract_header_tags"); ("lang", Info "get_page_language");
    ("export", Info "export_text_content"); ("sql", Info "check_sql_leak");
    ("cors", Info "check_cors_policy"); ("csp", CspPolicy);
    ("feature_policy", Info "check_feature_policy");
    ("sensitive_files", Info "check_for_sensitive_files");
    ("subdomains", Info "check_subdomains"); ("waf", Info "check_waf_presence");
    ("sec_headers", SecurityHeaders); ("leaks", Leaks);
    ("ports", Info "check_open_ports(domain, True)");
    ("ports_all", Info "check_open_ports(domain, False)");
    ("ssl", SslInfo); ("methods", Info "check_http_methods");
    ("cookie_sec", CookieSecurity); ("cache", Info "check_caching_headers");
    ("server_info", Info "extract_server_info"); ("vulns", Vulns);
    ("clickjacking", Clickjacking); ("uploads", Info "check_file_upload_forms");
    ("passwords", PasswordForms); ("api", Info "check_api_endpoints");
    ("perf", Info "check_server_status");
    ("email_protection", Info "check_email_protection");
    ("honeypots", Info "check_for_honeypots"); ("iframe_security", IframeSecurity);
    ("third_party", Info "check_third_party_resources");
    ("content_type", Info "check_content_types"); ("mixed_content", MixedContent);
    ("deserialize", Deserialization) ].

Fixpoint run_print_blocks (url : string) (r : response) (sp : soup) (args : Args)
    (blocks : list (string * check)) : result unit :=
  match blocks with
  | [] => Ok tt
  | (f, c) :: rest =>
      if flag args f then
        _ ← run_check E url r sp c; run_print_blocks url r sp args rest
      else run_print_blocks url r sp args rest
  end.

(** [process_url(url, args)]: returns the assessment handed to
    [print_threat_score], if any. The HTML parser is called outside
    any [try] here. *)
Definition process_url (url : string) (args : Args)
    : M (option (Z * list (string * detail))) :=
  _ ← init_session url;
  let url := normalize_url url in
  match check_url E url with
  | None => mret None
  | Some response =>
      match parse_html E response with
      | inl msg => lift (Raise (OtherError msg))
      | inr sp =>
          if flag args "all" then
            _ ← lift (run_all_checks url sp response);
            a ← aggregate url;
            mret (Some a)
          else
            _ ← lift (run_print_blocks url response sp args print_blocks);
            _ ← lift (extra_blocks E args ∅);
            mret None
      end
  end.
End Drivers.

End Orchestrator.
Export Orchestrator.

(** ** The presentation: [print_threat_score] *)

Module Presentation.

(** [a / b] on two [int]s: the correctly rounded quotient,
    [ZeroDivisionError] for [b = 0], [OverflowError] when the quotient
    exceeds the doubles. *)
Definition int_truediv (a b : Z) : result float :=
  if Z.eqb b 0 then Raise ZeroDivisionError
  else if Z.eqb a 0 then Ok (S754_zero (Z.ltb b 0))
  else
    match fdiv (S754_finite (Z.ltb a 0) (Z.to_pos (Z.abs a)) 0)
               (S754_finite (Z.ltb b 0) (Z.to_pos (Z.abs b)) 0) with
    | S754_infinity _ => Raise OverflowError
    | q => Ok q
    end.

(** A cell of the bar: a full block or a light shade. *)
Inductive cell := Full | Shade.

Definition bar_length : Z := 50.

(** [int(round(bar_length * score / 100))] *)
Definition filled_length (score : Z) : result Z :=
  q ← int_truediv (bar_length * score) 100; py_round q.

(** [full * filled_length + shade * (bar_length - filled_length)]; a
    string times a negative number is empty. *)
Definition bar_of (filled : Z) : list cell :=
  (repeat Full (Z.to_nat filled) ++ repeat Shade (Z.to_nat (bar_length - filled)))%list.

(** The second threshold chain of [print_threat_score]. *)
Definition bar_color (score : Z) : color :=
  if Z.ltb score 20 then GREEN
  else if Z.ltb score 40 then CYAN
  else if Z.ltb score 60 then YELLOW
  else if Z.ltb score 80 then YELLOW_BRIGHT
  else RED_BRIGHT.

(** The lines under "Risk Factors:": check, points, reason and colour of
    every detail whose score is positive. *)
Definition risk_factors (details : list (string * detail))
    : list (string * Z * string * color) :=
  flat_map
    (fun c =>
       if Z.ltb 0 (d_score (snd c))
       then [(fst c, d_score (snd c), d_reason (snd c),
              snd (get_threat_category (d_score (snd c))))]
       else [])
    details.

(** What [print_threat_score(domain, score, details)] puts on the
    screen. *)
Record threat_view := {
  tv_domain : string;
  tv_score : Z;
  tv_category : string;
  tv_color : color;
  tv_bar_color : color;
  tv_bar : list cell;
  tv_factors : list (string * Z * string * color)
}.

Definition print_threat_score (domain : string) (score : Z)
    (details : list (string * detail)) : result threat_view :=
  let '(category, color) := get_threat_category score in
  filled_length ← filled_length score;
  Ok {| tv_domain := domain; tv_score := score; tv_category := category;
        tv_color := color; tv_bar_color := bar_color score;
        tv_bar := bar_of filled_length; tv_factors := risk_factors details |}.

End Presentation.
Export Presentation.

(** ** Several URLs: [process_batch], [process_input_urls] *)

Module Batch.
Section Batch.
Variable E : env.

(** The loop [for i, url in enumerate(urls)] of both functions;
    [all_results] is keyed by the URL as given. *)
Fixpoint scan_urls (urls : list string) (args : Args)
    (all_results : list (string * gmap string pyval))
    : M (list (string * gmap string pyval)) :=
  match urls with
  | [] => mret all_results
  | url :: rest =>
      if flag args "export_results" then
        url_results ← process_url_with_results E url args;
        scan_urls rest args (dict_set url url_results all_results)
      else
        _ ← process_url E url args;
        scan_urls rest args all_results
  end.

(** How a batch ends: no URL to scan, the loop finished (with what is
    handed to [export_results] and to [send_to_webhook], if anything),
    or the [except Exception] of [process_batch] caught an error. *)
Inductive batch_end :=
| NoUrls
| Finished (to_file to_webhook : option (list (string * gmap string pyval)))
| Caught (e : exn).

(** [if (args.export_results or args.webhook) and all_results:] with the
    two steps under it; both catch their own errors. *)
Definition hand_over (args : Args) (webhook : option string)
    (all_results : list (string * gmap string pyval)) : batch_end :=
  if (flag args "export_results" || nonempty webhook)
     && match all_results with [] => false | _ => true end
  then Finished (if flag args "export_results" then Some all_results else None)
                (if nonempty webhook then Some all_results else None)
  else Finished None None.

(** [process_batch(file_path, args)]; [urls] is the outcome of reading
    the file: its stripped non-empty lines, or the error of [open]. *)
Definition process_batch (urls : result (list string)) (args : Args)
    (webhook : option string) : store -> batch_end * store := fun st =>
  match urls with
  | Raise e => (Caught e, st)
  | Ok [] => (NoUrls, st)
  | Ok urls =>
      match scan_urls urls args [] st with
      | (Ok all_results, st') => (hand_over args webhook all_results, st')
      | (Raise e, st') => (Caught e, st')
      end
  end.

(** [process_input_urls(args)] from the point where [urls] is
    collected: the same loop, outside any [try]. *)
Definition process_input_urls (urls : list string) (args : Args)
    (webhook : option string) : M batch_end :=
  match urls with
  | [] => mret NoUrls
  | _ =>
      all_results ← scan_urls urls args [];
      mret (hand_over args webhook all_results)
  end.

End Batch.
End Batch.
Export Batch.

(** ** Vocabulary of the statements *)

Module Vocabulary.

(** The payload fields each scoring rule reads, from the source of
    [calculate_threat_score]. *)
Definition fields_read (check_name : string) : list string :=
  if String.eqb check_name "security" then
    [ "is_https"; "hsts"; "content_security_policy"; "x_content_type_options";
      "x_frame_options"; "x_xss_protection" ]
  else if String.eqb check_name "mixed_content" then [ "has_mixed_content" ]
  else if String.eqb check_name "cookie_sec" then
    [ "cookies_without_secure"; "cookies_without_httponly"; "cookies_without_samesite" ]
  else if String.eqb check_name "clickjacking" then [ "protected" ]
  else if String.eqb check_name "csp" then
    [ "has_csp"; "has_unsafe_inline"; "has_unsafe_eval" ]
  else if String.eqb check_name "iframe_security" then [ "insecure_iframes" ]
  else if String.eqb check_name "ssl" then
    [ "valid"; "expired"; "self_signed"; "weak_signature" ]
  else if String.eqb check_name "vulns" then [ "vulnerabilities" ]
  else if String.eqb check_name "passwords" then [ "insecure_password_forms" ]
  else if String.eqb check_name "deserialize" then [ "potentially_vulnerable" ]
  else if String.eqb check_name "leaks" then [ "sensitive_info" ]
  else if String.eqb check_name "sec_headers" then [ "missing_headers" ]
  else [].

(** [p.get(k)] of a payload, [None] when [p] is no dictionary. *)
Definition payload_get (p : pyval) (k : string) : option pyval :=
  match p with
  | PDict d => dict_get d k
  | _ => None
  end.

Definition is_dict (p : pyval) : bool :=
  match p with PDict _ => true | _ => false end.

(** The points a dictionary lacking every field read for the check
    receives: the rules written [if not data.get(k, False)] fire. *)
Definition missing_points (check_name : string) : Z :=
  if String.eqb check_name "security" then 65
  else if String.eqb check_name "clickjacking" then 25
  else if String.eqb check_name "csp" then 20
  else 0.

(** The checks whose rule multiplies a field or takes its [len]. *)
Definition may_raise : list string :=
  [ "cookie_sec"; "iframe_security"; "vulns"; "passwords"; "leaks"; "sec_headers" ].

(** A count as the rules expect it: a non-negative [int], or a [bool]. *)
Definition count_ok (v : pyval) : bool :=
  match v with
  | PInt z => (0 <=? z)%Z
  | PBool _ => true
  | _ => false
  end.

(** A value [len] accepts. *)
Definition sized (v : pyval) : bool :=
  match v with
  | PStr _ | PList _ | PDict _ => true
  | _ => false
  end.

Definition field_ok (d : list (string * pyval)) (k : string) (ok : pyval -> bool) : bool :=
  match dict_get d k with
  | Some v => ok v
  | None => true
  end.

(** Payloads whose count fields, where present, are counts and whose
    list fields, where present, are sized. *)
Definition well_formed (data : pyval) : bool :=
  match data with
  | PDict d =>
      field_ok d "cookies_without_secure" count_ok
      && field_ok d "cookies_without_httponly" count_ok
      && field_ok d "cookies_without_samesite" count_ok
      && field_ok d "insecure_password_forms" count_ok
      && field_ok d "insecure_iframes" sized
      && field_ok d "vulnerabilities" sized
      && field_ok d "sensitive_info" sized
      && field_ok d "missing_headers" sized
  | _ => true
  end.


(** Scores as the data model has them: integers within [0,100]. *)
Definition in_range (scores : list (string * Z)) : Prop :=
  Forall (fun kv => 0 <= snd kv <= 100) scores.

(** Positive normal doubles with exponent in [[lo, hi]], and zero. *)
Definition normalP (lo hi : Z) (f : float) : Prop :=
  exists m e, f = S754_finite false m e /\ Zpos (digits2_pos m) = 53 /\ lo <= e <= hi.

Definition nozP (lo hi : Z) (f : float) : Prop :=
  f = S754_zero false \/ normalP lo hi f.

Definition noz_b (lo hi : Z) (f : float) : bool :=
  match f with
  | S754_zero false => true
  | S754_finite false m e =>
      Z.eqb (Zpos (digits2_pos m)) 53 && Z.leb lo e && Z.leb e hi
  | _ => false
  end.

Definition all_weights : list float := [f1_2; f1_5; f1_0; f1_3; f0_8; f1_1; f0_9].

#[global] Instance check_eq_dec : EqDecision check.
Proof. solve_decision. Defined.

Definition block_keys (blocks : list (string * string * check)) : list string :=
  map (fun b => snd (fst b)) blocks.

(** The Aggregator as section 4.3 words it, evaluated in Python's
    floats: the weight of a kind is its table entry or 1.0; the result
    is [round(sum(score*weight) / sum(weight))] clamped to [0,100], and
    0 when the weights sum to 0. *)
Definition spec_weight (kind : string) : float := get_default weights kind f1_0.

Definition sum_floats (xs : list float) : float :=
  fold_left fadd xs (S754_zero false).

Definition spec_overall (scores : list (string * Z)) : result Z :=
  let sum_sw :=
    sum_floats (map (fun c => fmul (round_Z (snd c)) (spec_weight (fst c))) scores) in
  let sum_w := sum_floats (map (fun c => spec_weight (fst c)) scores) in
  if SFeqb sum_w (S754_zero false) then Ok 0
  else r ← py_round (fdiv sum_sw sum_w); Ok (Z.max 0 (Z.min r 100)).






(** *** The drivers' hypotheses *)

(** The check function behind each check name of the Scorer. *)
Definition own_check (kind : string) : check :=
  if String.eqb kind "security" then HttpsSecurity
  else if String.eqb kind "ssl" then SslInfo
  else if String.eqb kind "csp" then CspPolicy
  else if String.eqb kind "clickjacking" then Clickjacking
  else if String.eqb kind "mixed_content" then MixedContent
  else if String.eqb kind "cookie_sec" then CookieSecurity
  else if String.eqb kind "leaks" then Leaks
  else if String.eqb kind "sec_headers" then SecurityHeaders
  else if String.eqb kind "vulns" then Vulns
  else if String.eqb kind "passwords" then PasswordForms
  else if String.eqb kind "iframe_security" then IframeSecurity
  else if String.eqb kind "deserialize" then Deserialization
  else Info kind.

Definition is_info (c : check) : bool :=
  match c with Info _ => true | _ => false end.

(** Every selected check and trailing block of
    [process_url_with_results] returns without raising. *)
Definition checks_return (E : env) (url : string) (r : response) (sp : soup)
    (args : Args) : bool :=
  is_ok (results ← run_blocks E url r sp args result_blocks ∅;
         extra_blocks E args results).

(** Some scoring row is selected on the command line. *)
Definition scoring_selected (args : Args) : bool :=
  existsb (fun row : string * string * string * string =>
             flag args (fst (fst (fst row)))) scoring_rows.

(** The payload a selected row finds in [results] scores within [0,100]. *)
Definition row_ready (args : Args) (results : gmap string pyval)
    (row : string * string * string * string) : Prop :=
  flag args (fst (fst (fst row))) = true ->
  exists payload s,
    results !! snd (fst (fst row)) = Some payload
    /\ calculate_threat_score (snd (fst row)) payload = Ok s
    /\ 0 <= s <= 100.

(** *** The findings the checks count *)

(** An iframe [check_iframe_security] lists under [insecure_iframes]. *)
Definition iframe_listed (f : iframe) : bool :=
  negb (i_has_sandbox f) || negb (startswith (i_src f) "https://").




(** *** What a scan records *)

(** The columns of a scoring row. *)
Definition row_flag (row : string * string * string * string) : string :=
  fst (fst (fst row)).
Definition row_key (row : string * string * string * string) : string :=
  snd (fst (fst row)).
Definition row_kind (row : string * string * string * string) : string :=
  snd (fst row).
Definition row_reason (row : string * string * string * string) : string := snd row.

(** What a scoring row writes into the session, if anything. *)
Definition contribution (args : Args) (results : gmap string pyval)
    (row : string * string * string * string) : list (string * detail) :=
  if flag args (row_flag row) then
    match results !! row_key row with
    | Some payload =>
        match calculate_threat_score (row_kind row) payload with
        | Ok s => [(row_kind row, {| d_score := s; d_reason := row_reason row |})]
        | Raise _ => []
        end
    | None => []
    end
  else [].

(** The writes [d[kind] = ...] of a list of contributions, in order. *)
Definition write_scores (cs : list (string * detail)) (d : list (string * Z))
    : list (string * Z) :=
  fold_left (fun d c => dict_set (fst c) (d_score (snd c)) d) cs d.

Definition write_details (cs : list (string * detail)) (dd : list (string * detail))
    : list (string * detail) :=
  fold_left (fun dd c => dict_set (fst c) (snd c) dd) cs dd.

(** One check name for each weight of the table (1.2, 1.5, 1.0, 1.3,
    0.8, 1.1, 0.9). *)
Definition weight_classes : list string :=
  [ "security"; "ssl"; "clickjacking"; "passwords"; "iframe_security"; "leaks";
    "sec_headers" ].

(** *** The scoring rules, one per field *)

(** How a rule reads its field [k]: the three tests, a count times a
    constant, and a length times a constant. *)
Inductive rule :=
| Unless (pts : Z)       (* [if not data.get(k, False): score += pts] *)
| UnlessTrue (pts : Z)   (* [if not data.get(k, True): score += pts] *)
| When (pts : Z)         (* [if data.get(k, False): score += pts] *)
| Times (c : Z)          (* [score += data.get(k, 0) * c] *)
| PerItem (c : Z).       (* [score += len(data.get(k, [])) * c] *)

(** The rules of the twelve checks, field by field. *)
Definition rules : list (string * list (string * rule)) :=
  [ ("security",
     [ ("is_https", Unless 30); ("hsts", Unless 10);
       ("content_security_policy", Unless 10); ("x_content_type_options", Unless 5);
       ("x_frame_options", Unless 5); ("x_xss_protection", Unless 5) ]);
    ("mixed_content", [ ("has_mixed_content", When 40) ]);
    ("cookie_sec",
     [ ("cookies_without_secure", Times 10); ("cookies_without_httponly", Times 8);
       ("cookies_without_samesite", Times 5) ]);
    ("clickjacking", [ ("protected", Unless 25) ]);
    ("csp",
     [ ("has_csp", Unless 20); ("has_unsafe_inline", When 10);
       ("has_unsafe_eval", When 10) ]);
    ("iframe_security", [ ("insecure_iframes", PerItem 15) ]);
    ("ssl",
     [ ("valid", UnlessTrue 40); ("expired", When 40); ("self_signed", When 20);
       ("weak_signature", When 15) ]);
    ("vulns", [ ("vulnerabilities", PerItem 20) ]);
    ("passwords", [ ("insecure_password_forms", Times 30) ]);
    ("deserialize", [ ("potentially_vulnerable", When 35) ]);
    ("leaks", [ ("sensitive_info", PerItem 15) ]);
    ("sec_headers", [ ("missing_headers", PerItem 5) ]) ].

Definition rules_of (check_name : string) : list (string * rule) :=
  match List.find (fun e => String.eqb check_name (fst e)) rules with
  | Some e => snd e
  | None => []
  end.

(** The points of one field; [None] is a missing field. *)
Definition field_points (r : rule) (v : option pyval) : result Z :=
  match r with
  | Unless pts =>
      Ok (if truthy (default (PBool false) v) then 0 else pts)
  | UnlessTrue pts =>
      Ok (if truthy (default (PBool true) v) then 0 else pts)
  | When pts =>
      Ok (if truthy (default (PBool false) v) then pts else 0)
  | Times c =>
      x ← py_mul_int (default (PInt 0) v) c; py_iadd 0 x
  | PerItem c =>
      n ← py_len (default (PList []) v); Ok (n * c)
  end.

(** The points a missing field contributes. *)
Definition points_when_missing (r : rule) : Z :=
  match r with
  | Unless pts => pts
  | UnlessTrue _ | When _ | Times _ | PerItem _ => 0
  end.

Fixpoint sum_points (rs : list (string * rule)) (d : list (string * pyval))
    : result Z :=
  match rs with
  | [] => Ok 0
  | (k, r) :: rest =>
      p ← field_points r (dict_get d k);
      t ← sum_points rest d;
      Ok (p + t)
  end.

(** The score of a dictionary payload by the table: the points of the
    fields added up, capped at 100. *)
Definition table_score (check_name : string) (d : list (string * pyval)) : result Z :=
  total ← sum_points (rules_of check_name) d; Ok (Z.min total 100).
(** The values a rule cannot take: a count that is neither [int] nor
    [bool], a list field without a length. The truth-tested fields
    accept every value. *)
Definition malformed_for (r : rule) (v : pyval) : bool :=
  match r with
  | Times _ => match v with PInt _ | PBool _ => false | _ => true end
  | PerItem _ => negb (sized v)
  | Unless _ | UnlessTrue _ | When _ => false
  end.

End Vocabulary.
Export Vocabulary.

(** ** Concrete scans used to evaluate the drivers *)

Module Examples.

Definition empty_store : store := {| THREAT_SCORES := ∅; THREAT_DETAILS := ∅ |}.

(** A store holding one session. *)
Definition session (url : string) (scores : list (string * Z))
    (details : list (string * detail)) : store :=
  {| THREAT_SCORES := {[ url := scores ]}; THREAT_DETAILS := {[ url := details ]} |}.

(** A plain page served without any security header or cookie. *)
Definition plain_response : response :=
  {| headers := ∅; cookies := []; frame_ancestors := None |}.

Definition plain_soup : soup :=
  {| s_vulns := Ok {| vo_reflected := []; vo_csrf := []; vo_redirects := [];
                      vo_protocol_relative := None; vo_outdated := [] |};
     s_password_forms := [];
     s_iframes := [];
     s_mixed := [];
     s_deser := fun _ => O;
     s_leaks := {| lo_comments := []; lo_emails := []; lo_ips := [];
                   lo_credentials := false |} |}.

Definition no_tls : ssl_outcome :=
  {| so_connected := false; so_values := []; so_error := PStr "timed out" |}.

(** Every collaborator answers; the page is [plain_response]. *)
Definition plain_env : env :=
  {| check_url := fun _ => Some plain_response;
     parse_html := fun _ => inr plain_soup;
     ssl_probe := fun _ => no_tls;
     info := fun _ => Ok PNone;
     lite_mode := false |}.

(** The same site, with a link [check_for_vulns] cannot parse. *)
Definition bad_link_env : env :=
  {| check_url := fun _ => Some plain_response;
     parse_html := fun _ =>
       inr {| s_vulns := Raise ValueError;
              s_password_forms := []; s_iframes := []; s_mixed := [];
              s_deser := fun _ => O;
              s_leaks := {| lo_comments := []; lo_emails := []; lo_ips := [];
                            lo_credentials := false |} |};
     ssl_probe := fun _ => no_tls;
     info := fun _ => Ok PNone;
     lite_mode := false |}.

(** The command lines [--all], [--security] and [--vulns]. *)
Definition only (f : string) : Args :=
  {| flag := fun g => String.eqb g f; view_file := None |}.

(** A page served over plain HTTP with every header the checks look for. *)
Definition hardened_response : response :=
  {| headers :=
       list_to_map
         [ ("Strict-Transport-Security", "max-age=31536000");
           ("Content-Security-Policy", "default-src 'self'");
           ("X-Content-Type-Options", "nosniff");
           ("X-Frame-Options", "DENY");
           ("X-XSS-Protection", "1; mode=block") ];
     cookies := [];
     frame_ancestors := None |}.


(** The command line that selects exactly the flags [fs]. *)
Definition selecting (fs : list string) : Args :=
  {| flag := fun g => existsb (String.eqb g) fs; view_file := None |}.

End Examples.
Export Examples.

(** * Properties *)

(** ** The Scorer *)

Section ScorerFacts.

Lemma get_default_field_ok (d : list (string * pyval)) k ok def :
field_ok d k ok = true -> ok def = true -> ok (get_default d k def) = true.
Proof.
unfold field_ok, get_default. destruct (dict_get d k); auto.
Qed.

Lemma py_len_sized v : sized v = true -> exists n, py_len v = Ok n /\ 0 <= n.
Proof.
destruct v; simpl; intros H; try discriminate; eexists; split; try reflexivity; lia.
Qed.

Lemma add_scaled_count v k score :
count_ok v = true -> 0 <= k -> 0 <= score ->
exists s, add_scaled v k score = Ok s /\ 0 <= s.
Proof.
intros Hv Hk Hs. destruct v; simpl in Hv; try discriminate.
- exists (score + (if b then 1 else 0) * k). split; [reflexivity|]. destruct b; lia.
- exists (score + z * k). split; [reflexivity|]. apply Z.leb_le in Hv. nia.
Qed.

Lemma add_scaled_raise v k score e : add_scaled v k score = Raise e -> e = TypeError.
Proof.
destruct v; simpl; intros H; inversion H; reflexivity.
Qed.

Lemma py_len_raise v e : py_len v = Raise e -> e = TypeError.
Proof. destruct v; simpl; intros H; inversion H; reflexivity. Qed.

End ScorerFacts.

Ltac by_kind :=
  unfold calculate_threat_score;
  repeat match goal with
         | |- context [String.eqb ?a ?b] => destruct (String.eqb a b) eqn:?
         end.

Lemma scorer_upper kind data :
  match calculate_threat_score kind data with
  | Ok z => z <= 100
  | Raise e => e = TypeError
  end.
Proof.
  unfold calculate_threat_score.
  match goal with |- match mbind _ ?X with _ => _ end => destruct X as [s|e] eqn:HX end.
  - simpl. lia.
  - simpl. revert HX.
    repeat match goal with
         | |- context [String.eqb ?a ?b] => destruct (String.eqb a b) eqn:?
         end; destruct data; try discriminate; simpl.
    all: repeat match goal with
         | |- context [add_scaled ?v ?k ?s] => let H := fresh in destruct (add_scaled v k s) eqn:H; simpl; [| apply add_scaled_raise in H; subst ]
         | |- context [py_len ?v] => let H := fresh in destruct (py_len v) eqn:H; simpl; [| apply py_len_raise in H; subst ]
         end; try discriminate; try (intros H'; inversion H'; reflexivity).
Qed.

Lemma add_if_not_nonneg d k pts score :
  0 <= pts -> 0 <= score -> 0 <= add_if_not d k pts score.
Proof. unfold add_if_not. destruct (negb _); lia. Qed.

Lemma add_if_nonneg d k b pts score :
  0 <= pts -> 0 <= score -> 0 <= add_if d k b pts score.
Proof. unfold add_if. destruct (truthy _); lia. Qed.

Ltac nonneg_score :=
  repeat first [ apply add_if_not_nonneg; [lia |]
               | apply add_if_nonneg; [lia |] ];
  lia.

Lemma cap_total (X : result Z) :
  (exists s, X = Ok s /\ 0 <= s) ->
  exists z, (X ≫= (fun score => Ok (Z.min score 100))) = Ok z /\ 0 <= z <= 100.
Proof. intros (s & -> & Hs). exists (Z.min s 100). split; [reflexivity | lia]. Qed.

Lemma scorer_total kind data :
  well_formed data = true ->
  exists z, calculate_threat_score kind data = Ok z /\ 0 <= z <= 100.
Proof.
  intros Hwf. unfold calculate_threat_score. apply cap_total.
  destruct data as [| b | z | s | l | d];
    try (repeat match goal with
                | |- context [String.eqb ?a ?b] => destruct (String.eqb a b)
                end; exists 0; (split; [reflexivity | lia])).
  simpl in Hwf.
  repeat (apply andb_prop in Hwf; destruct Hwf as [Hwf ?Hf]).
  repeat match goal with
         | |- context [String.eqb ?a ?b] => destruct (String.eqb a b)
         end.
  - eexists; split; [reflexivity | nonneg_score].
  - eexists; split; [reflexivity | nonneg_score].
  - destruct (add_scaled_count (get_default d "cookies_without_secure" (PInt 0)) 10 0)
      as (s1 & E1 & P1); [apply get_default_field_ok; auto | lia | lia |].
    destruct (add_scaled_count (get_default d "cookies_without_httponly" (PInt 0)) 8 s1)
      as (s2 & E2 & P2); [apply get_default_field_ok; auto | lia | lia |].
    destruct (add_scaled_count (get_default d "cookies_without_samesite" (PInt 0)) 5 s2)
      as (s3 & E3 & P3); [apply get_default_field_ok; auto | lia | lia |].
    exists s3. rewrite E1. simpl. rewrite E2. simpl. rewrite E3. auto.
  - eexists; split; [reflexivity | nonneg_score].
  - eexists; split; [reflexivity | nonneg_score].
  - destruct (py_len_sized (get_default d "insecure_iframes" (PList [])))
      as (n & En & Hn); [apply get_default_field_ok; auto |].
    rewrite En. simpl. eexists; split; [reflexivity | lia].
  - eexists; split; [reflexivity |]. destruct (negb _); nonneg_score.
  - destruct (py_len_sized (get_default d "vulnerabilities" (PList [])))
      as (n & En & Hn); [apply get_default_field_ok; auto |].
    rewrite En. simpl. eexists; split; [reflexivity | lia].
  - destruct (add_scaled_count (get_default d "insecure_password_forms" (PInt 0)) 30 0)
      as (s1 & E1 & P1); [apply get_default_field_ok; auto | lia | lia |].
    exists s1. auto.
  - eexists; split; [reflexivity | nonneg_score].
  - destruct (py_len_sized (get_default d "sensitive_info" (PList [])))
      as (n & En & Hn); [apply get_default_field_ok; auto |].
    rewrite En. simpl. eexists; split; [reflexivity | lia].
  - destruct (py_len_sized (get_default d "missing_headers" (PList [])))
      as (n & En & Hn); [apply get_default_field_ok; auto |].
    rewrite En. simpl. eexists; split; [reflexivity | lia].
  - exists 0. split; [reflexivity | lia].
Qed.

Lemma scorer_raise_kind kind data e :
  calculate_threat_score kind data = Raise e -> In kind may_raise.
Proof.
  unfold calculate_threat_score, may_raise.
  repeat match goal with
         | |- context [String.eqb ?a ?b] =>
             let H := fresh "K" in
             destruct (String.eqb a b) eqn:H; [apply String.eqb_eq in H |]
         end; subst; simpl; try tauto;
    destruct data; simpl; discriminate.
Qed.

Lemma scorer_not_dict kind data :
  is_dict data = false -> calculate_threat_score kind data = Ok 0.
Proof.
  intros H. by_kind; destruct data; try discriminate; reflexivity.
Qed.

Lemma scorer_missing_fields kind d :
  (forall k, In k (fields_read kind) -> dict_get d k = None) ->
  calculate_threat_score kind (PDict d) = Ok (missing_points kind).
Proof.
  unfold calculate_threat_score, fields_read, missing_points.
  repeat match goal with
         | |- context [String.eqb kind ?b] =>
             let K := fresh "K" in
             destruct (String.eqb kind b) eqn:K;
             [apply String.eqb_eq in K; subst kind; simpl |]
         end;
    intros H; unfold add_if_not, add_if, get_default;
    repeat match goal with
           | |- context [dict_get d ?k] => rewrite (H k) by (simpl; tauto)
           end; reflexivity.
Qed.

Lemma unless_points d k pts score :
  Ok (add_if_not d k pts score)
  = (p ← field_points (Unless pts) (dict_get d k); Ok (score + p)).
Proof.
  unfold add_if_not, field_points, get_default.
  destruct (dict_get d k) as [v |]; cbn [default mbind result_bind];
    destruct (truthy _); cbn [negb]; f_equal; lia.
Qed.

Lemma when_points d k pts score :
  Ok (add_if d k false pts score)
  = (p ← field_points (When pts) (dict_get d k); Ok (score + p)).
Proof.
  unfold add_if, field_points, get_default.
  destruct (dict_get d k) as [v |]; cbn [default mbind result_bind];
    destruct (truthy _); f_equal; lia.
Qed.

Lemma unless_true_points d k pts score :
  Ok (if negb (truthy (get_default d k (PBool true))) then score + pts else score)
  = (p ← field_points (UnlessTrue pts) (dict_get d k); Ok (score + p)).
Proof.
  unfold field_points, get_default.
  destruct (dict_get d k) as [v |]; cbn [default mbind result_bind];
    destruct (truthy _); cbn [negb]; f_equal; lia.
Qed.

Lemma times_points d k c score :
  add_scaled (get_default d k (PInt 0)) c score
  = (p ← field_points (Times c) (dict_get d k); Ok (score + p)).
Proof.
  unfold add_scaled, field_points, get_default.
  destruct (dict_get d k) as [v |]; cbn [default].
  - destruct v as [| b | z | s | l | d']; cbn [py_mul_int mbind result_bind py_iadd];
      try reflexivity; try (f_equal; lia).
  - cbn [py_mul_int mbind result_bind py_iadd]. try reflexivity; try (f_equal; lia).
Qed.

Lemma per_item_points d k c score :
  (n ← py_len (get_default d k (PList [])); Ok (score + n * c))
  = (p ← field_points (PerItem c) (dict_get d k); Ok (score + p)).
Proof.
  unfold field_points, get_default.
  destruct (dict_get d k) as [v |]; cbn [default];
    destruct (py_len _); reflexivity.
Qed.

Lemma bind_add (m : result Z) (a : Z) (k : Z -> result Z) :
  ((x ← (p ← m; Ok (a + p)); k x) : result Z) = (p ← m; k (a + p)).
Proof. destruct m; reflexivity. Qed.

Lemma unless_value d k pts score :
  add_if_not d k pts score
  = score + (if truthy (default (PBool false) (dict_get d k)) then 0 else pts).
Proof.
  unfold add_if_not, get_default.
  destruct (dict_get d k) as [v |]; cbn [default]; destruct (truthy _); cbn [negb]; lia.
Qed.

Lemma when_value d k pts score :
  add_if d k false pts score
  = score + (if truthy (default (PBool false) (dict_get d k)) then pts else 0).
Proof.
  unfold add_if, get_default.
  destruct (dict_get d k) as [v |]; cbn [default]; destruct (truthy _); lia.
Qed.

Lemma unless_true_value d k pts score :
  (if negb (truthy (get_default d k (PBool true))) then score + pts else score)
  = score + (if truthy (default (PBool true) (dict_get d k)) then 0 else pts).
Proof.
  unfold get_default.
  destruct (dict_get d k) as [v |]; cbn [default]; destruct (truthy _); cbn [negb]; lia.
Qed.

Ltac by_rules :=
  repeat first
    [ rewrite times_points | rewrite per_item_points
    | match goal with
      | |- context [field_points ?r ?v] =>
          match r with
          | Times _ => idtac
          | PerItem _ => idtac
          end;
          let p := fresh "p" in
          destruct (field_points r v) as [p |]; cbn [mbind result_bind]
      end ].

Lemma scorer_by_table kind d :
  calculate_threat_score kind (PDict d) = table_score kind d.
Proof.
  unfold calculate_threat_score, table_score, rules_of, rules. cbn [List.find fst snd].
  repeat match goal with
         | |- context [String.eqb kind ?b] => destruct (String.eqb kind b)
         end;
    cbn [snd sum_points]; cbv zeta;
    rewrite ?unless_true_value, ?unless_value, ?when_value;
    by_rules; cbn [field_points mbind result_bind];
    try reflexivity; try (f_equal; f_equal; lia).
Qed.

Lemma rules_fields kind : map fst (rules_of kind) = fields_read kind.
Proof.
  unfold rules_of, rules, fields_read. cbn [List.find fst snd].
  repeat match goal with
         | |- context [String.eqb kind ?b] => destruct (String.eqb kind b)
         end; reflexivity.
Qed.

Lemma field_points_missing r : field_points r None = Ok (points_when_missing r).
Proof. destruct r; reflexivity. Qed.

Lemma field_points_present r v :
  match field_points r (Some v) with
  | Ok _ => malformed_for r v = false
  | Raise e => e = TypeError /\ malformed_for r v = true
  end.
Proof.
  destruct r, v; cbn; auto.
Qed.

(** Claim C3. The Scorer adds the points of the fields and returns
    [min(total, 100)]: the total saturates at 100 and never wraps, and
    payloads whose counts are non-negative and whose lists have a
    length score within [0,100]. The cap is one-sided, though: a
    negative count passes through it, and the result (-10, -60) lies
    outside the range 0-100 that the function's docstring promises. *)
Theorem C3_cap_is_one_sided :
  (forall check_name d,
      calculate_threat_score check_name (PDict d)
      = (total ← sum_points (rules_of check_name) d; Ok (Z.min total 100)))
  /\ (forall check_name data,
        well_formed data = true ->
        exists z, calculate_threat_score check_name data = Ok z /\ 0 <= z <= 100)
  /\ (forall n,
        calculate_threat_score "cookie_sec" (PDict [("cookies_without_secure", PInt n)])
        = Ok (Z.min (n * 10) 100))
  /\ calculate_threat_score "cookie_sec" (PDict [("cookies_without_secure", PInt (-1))])
     = Ok (-10)
  /\ calculate_threat_score "passwords" (PDict [("insecure_password_forms", PInt (-2))])
     = Ok (-60)
  /\ calculate_threat_score "cookie_sec" (PDict [("cookies_without_secure", PInt 11)])
     = Ok 100.
Proof.
  split; [intros; apply scorer_by_table |].
  split; [intros check_name data; apply scorer_total |].
  split; [| repeat split].
  intros n. cbn. f_equal. f_equal. lia.
Qed.

(** Scenario B of the specification, through C3: two cookies without
    [Secure] and one without [HttpOnly] score 28. *)
Lemma C3_cap_is_one_sided_witness :
  let data := PDict [ ("cookies_without_secure", PInt 2);
                      ("cookies_without_httponly", PInt 1);
                      ("cookies_without_samesite", PInt 0) ] in
  well_formed data = true
  /\ calculate_threat_score "cookie_sec" data = Ok 28
  /\ exists z, calculate_threat_score "cookie_sec" data = Ok z /\ 0 <= z <= 100.
Proof.
  intros data. split; [reflexivity |]. split; [reflexivity |].
  apply (proj1 (proj2 C3_cap_is_one_sided) "cookie_sec" data). reflexivity.
Defined.

(** Claim C4, as amended. A payload that is no dictionary scores 0. The
    score of a dictionary is the sum, capped at 100, of the points of
    the fields its rule reads, each field on its own. A missing field
    contributes 0, except under a rule written
    [if not data.get(k, False)], where it contributes the rule's points
    (so a dictionary lacking every field scores 65 for security, 25 for
    clickjacking, 20 for csp, 0 otherwise). A present field of any type
    is judged by its truth value under the truth-tested rules; under a
    count rule a value that is neither [int] nor [bool], and under a
    length rule a value without a length, makes the call raise
    [TypeError], the only exception the call raises and only for the
    six checks with such a rule. *)
Theorem C4_missing_and_malformed (check_name : string) (data : pyval) :
  (is_dict data = false -> calculate_threat_score check_name data = Ok 0)
  /\ (forall d, data = PDict d ->
        calculate_threat_score check_name data = table_score check_name d)
  /\ map fst (rules_of check_name) = fields_read check_name
  /\ (forall r, field_points r None = Ok (points_when_missing r))
  /\ (forall r v,
        match field_points r (Some v) with
        | Ok _ => malformed_for r v = false
        | Raise e => e = TypeError /\ malformed_for r v = true
        end)
  /\ (forall d, data = PDict d ->
        (forall k, In k (fields_read check_name) -> dict_get d k = None) ->
        calculate_threat_score check_name data = Ok (missing_points check_name))
  /\ (forall e, calculate_threat_score check_name data = Raise e ->
        e = TypeError /\ In check_name may_raise).
Proof.
  split; [apply scorer_not_dict |].
  split; [intros d ->; apply scorer_by_table |].
  split; [apply rules_fields |].
  split; [apply field_points_missing |].
  split; [apply field_points_present |].
  split.
  - intros d -> H. apply scorer_missing_fields, H.
  - intros e He. split.
    + pose proof (scorer_upper check_name data) as H. rewrite He in H. exact H.
    + eapply scorer_raise_kind, He.
Qed.

Lemma C4_missing_and_malformed_witness :
  calculate_threat_score "ssl" (PList []) = Ok 0
  /\ calculate_threat_score "cookie_sec" (PDict [("cookies_without_httponly", PInt 1)])
     = Ok 8
  /\ calculate_threat_score "ssl" (PDict [("has_ssl", PBool true)]) = Ok 0
  /\ In "cookie_sec" may_raise.
Proof.
  split; [| split; [| split]].
  - apply (proj1 (C4_missing_and_malformed "ssl" (PList []))). reflexivity.
  - rewrite (proj1 (proj2 (C4_missing_and_malformed "cookie_sec"
                             (PDict [("cookies_without_httponly", PInt 1)])))
               [("cookies_without_httponly", PInt 1)] eq_refl).
    reflexivity.
  - apply (proj1 (proj2 (proj2 (proj2 (proj2 (proj2
             (C4_missing_and_malformed "ssl" (PDict [("has_ssl", PBool true)])))))))
             [("has_ssl", PBool true)] eq_refl).
    intros k Hk. simpl in Hk.
    destruct Hk as [<- | [<- | [<- | [<- | []]]]]; reflexivity.
  - apply (proj2 (proj2 (proj2 (proj2 (proj2 (proj2
             (C4_missing_and_malformed "cookie_sec"
                (PDict [("cookies_without_secure", PStr "2")]))))))) TypeError).
    reflexivity.
Defined.

(** Claim C4 as stated fails: missing fields contribute points (an
    empty security payload scores 65, an empty clickjacking payload 25),
    a malformed [valid] field of the wrong type contributes 40, and a
    wrong-typed count makes the call raise. *)
Lemma C4_counterexample :
  calculate_threat_score "security" (PDict []) = Ok 65
  /\ calculate_threat_score "clickjacking" (PDict []) = Ok 25
  /\ calculate_threat_score "ssl" (PDict [("valid", PNone)]) = Ok 40
  /\ calculate_threat_score "cookie_sec"
       (PDict [("cookies_without_secure", PStr "2")]) = Raise TypeError.
Proof. repeat split. Qed.

(** ** The payloads of the repository's own check functions *)

Section DictFacts.
Context {A : Type}.
Implicit Types (d : list (string * A)) (k : string) (v : A).

Lemma dict_get_set_eq d k v : dict_get (dict_set k v d) k = Some v.
Proof.
  induction d as [| [k0 v0] d IH]; simpl.
  - now rewrite String.eqb_refl.
  - destruct (String.eqb k0 k) eqn:E; simpl.
    + now rewrite String.eqb_refl.
    + now rewrite E.
Qed.

Lemma dict_get_set_ne d k k' v :
  k' <> k -> dict_get (dict_set k' v d) k = dict_get d k.
Proof.
  intros Hne.
  assert (Hf : String.eqb k' k = false) by now apply String.eqb_neq.
  induction d as [| [k0 v0] d IH]; simpl.
  - now rewrite Hf.
  - destruct (String.eqb k0 k') eqn:E0; simpl.
    + apply String.eqb_eq in E0. subst k0. now rewrite Hf.
    + destruct (String.eqb k0 k); [reflexivity | apply IH].
Qed.
End DictFacts.

Lemma assign_all_ssl_get (vs : list pyval) (d : list (string * pyval)) k :
  ~ In k ssl_fields ->
  dict_get (assign_all ssl_fields vs d) k = dict_get d k.
Proof.
  intros Hk. unfold ssl_fields in *. simpl in Hk.
  do 8 (destruct vs as [| ? vs]; simpl;
        [ repeat (rewrite dict_get_set_ne by (intros E; subst k; apply Hk; auto 10)); reflexivity |]).
  repeat (rewrite dict_get_set_ne by (intros E; subst k; apply Hk; auto 10)); reflexivity.
Qed.

Lemma ssl_payload_get (o : ssl_outcome) k :
  k <> "error" -> k <> "has_ssl" -> ~ In k ssl_fields ->
  payload_get (check_ssl_info o) k =
  dict_get [ ("has_ssl", PBool false); ("issuer", PNone); ("subject", PNone);
             ("version", PNone); ("valid_from", PNone); ("valid_until", PNone);
             ("serial_number", PNone); ("error", PNone) ] k.
Proof.
  intros He Hh Hk. unfold check_ssl_info, payload_get.
  rewrite dict_get_set_ne by congruence.
  destruct (so_connected o); [| reflexivity].
  rewrite assign_all_ssl_get by exact Hk.
  now rewrite dict_get_set_ne by congruence.
Qed.

Lemma absent_fields_score_zero kind (p : pyval) :
  is_dict p = true -> missing_points kind = 0 ->
  Forall (fun k => payload_get p k = None) (fields_read kind) ->
  calculate_threat_score kind p = Ok 0.
Proof.
  intros Hd Hm Hf. destruct p as [| | | | | d]; try discriminate.
  rewrite <- Hm. apply scorer_missing_fields.
  intros k Hk. rewrite List.Forall_forall in Hf. apply (Hf k Hk).
Qed.

(** Claim C8. For every payload the repository's own check functions
    build for ssl, cookie_sec, vulns, passwords, deserialize, leaks and
    sec_headers, none of the fields the scoring rule of that check reads
    occurs in the payload, and the Scorer returns 0. *)
Theorem C8_own_payloads_score_zero
    (o : ssl_outcome) (r : response) (vo : vulns_obs) (forms : list form)
    (occurrences : string -> nat) (lo : leaks_obs) :
  Forall
    (fun kp : string * pyval =>
       Forall (fun k => payload_get (snd kp) k = None) (fields_read (fst kp))
       /\ calculate_threat_score (fst kp) (snd kp) = Ok 0)
    [ ("ssl", check_ssl_info o);
      ("cookie_sec", check_cookie_security r);
      ("vulns", check_for_vulns vo);
      ("passwords", check_password_forms forms);
      ("deserialize", check_insecure_deserialization occurrences);
      ("leaks", check_for_leaks lo r);
      ("sec_headers", check_security_headers r) ].
Proof.
  assert (Hssl : Forall (fun k => payload_get (check_ssl_info o) k = None)
                   (fields_read "ssl")).
  { repeat constructor; rewrite ssl_payload_get; try reflexivity; try discriminate;
      unfold ssl_fields; simpl; intuition discriminate. }
  repeat match goal with
         | |- Forall _ (_ :: _) => constructor
         | |- Forall _ [] => constructor
         end; simpl fst; simpl snd.
  - split; [exact Hssl |]. apply absent_fields_score_zero; [reflexivity | reflexivity | exact Hssl].
  - split; [repeat constructor |]. reflexivity.
  - split; [repeat constructor |]. reflexivity.
  - split; [repeat constructor |]. reflexivity.
  - split; [repeat constructor |]. reflexivity.
  - split; [repeat constructor |]. reflexivity.
  - split; [repeat constructor |]. reflexivity.
Qed.

(** Claim C9, as amended. The csp score of a payload of
    [check_csp_policy] is 0 when the response carries a non-empty
    Content-Security-Policy header and 20 otherwise (no header, or a
    header with an empty value). The check records its findings under
    [unsafe_inline] and [unsafe_eval]; the fields [has_unsafe_inline]
    and [has_unsafe_eval] the Scorer reads never occur, so the two +10
    rules never fire. *)
Theorem C9_csp_score (r : response) :
  calculate_threat_score "csp" (check_csp_policy r)
  = Ok (if nonempty (headers r !! "Content-Security-Policy") then 0 else 20)
  /\ payload_get (check_csp_policy r) "has_unsafe_inline" = None
  /\ payload_get (check_csp_policy r) "has_unsafe_eval" = None
  /\ is_Some (payload_get (check_csp_policy r) "unsafe_inline")
  /\ is_Some (payload_get (check_csp_policy r) "unsafe_eval").
Proof.
  unfold check_csp_policy, nonempty.
  destruct (headers r !! "Content-Security-Policy") as [v |];
    [destruct (String.eqb v ""); simpl negb; cbv iota;
     [| destruct (contains "'unsafe-inline'" v), (contains "'unsafe-eval'" v)] |];
    destruct (has_header r "Content-Security-Policy-Report-Only");
    repeat split; try reflexivity; eexists; reflexivity.
Qed.

(** Claim C9 as stated fails on a response whose
    Content-Security-Policy header is present with an empty value: the
    header is there, yet [if csp:] is false and the score is 20. *)
Lemma C9_counterexample :
  let r := {| headers := {[ "Content-Security-Policy" := "" ]};
              cookies := []; frame_ancestors := None |} in
  has_header r "Content-Security-Policy" = true
  /\ calculate_threat_score "csp" (check_csp_policy r) = Ok 20.
Proof. vm_compute. split; reflexivity. Qed.

(** ** The Aggregator on an empty session *)

(** Claim C6. When no contribution was recorded for the URL (the URL
    has no session, or its session is empty) the Aggregator returns
    score 0 with empty contributions, without raising, and the label of
    0 is "Low Risk"; a session just opened by a driver is such a
    session. *)
Theorem C6_empty_session (url : string) (st : store) :
  (THREAT_SCORES st !! url = None
   \/ (THREAT_SCORES st !! url = Some [] /\ is_Some (THREAT_DETAILS st !! url))
   -> calculate_overall_threat_score url st = Ok (0, []))
  /\ calculate_overall_threat_score url (snd (init_session url st)) = Ok (0, [])
  /\ fst (get_threat_category 0) = "Low Risk"
  /\ threat_score_entry 0 []
     = PDict [("score", PInt 0); ("category", PStr "Low Risk"); ("details", PDict [])].
Proof.
  split; [| split; [| split; reflexivity]].
  - unfold calculate_overall_threat_score.
    intros [-> | [-> [d ->]]]; reflexivity.
  - unfold calculate_overall_threat_score, init_session. simpl.
    now rewrite !lookup_insert_eq.
Qed.

Lemma C6_empty_session_witness :
  calculate_overall_threat_score "https://example.com" empty_store = Ok (0, []).
Proof.
  apply (proj1 (C6_empty_session "https://example.com" empty_store)).
  left. reflexivity.
Defined.

(** ** Binary64 arithmetic: mantissa width and exponent range *)

Lemma digits2_pos_bounds (p : positive) :
  2 ^ (Zpos (digits2_pos p) - 1) <= Zpos p < 2 ^ Zpos (digits2_pos p).
Proof.
  induction p as [p IH | p IH |]; simpl digits2_pos.
  - rewrite Pos2Z.inj_succ.
    replace (Z.succ (Zpos (digits2_pos p)) - 1) with (Z.succ (Zpos (digits2_pos p) - 1)) by lia.
    rewrite !Z.pow_succ_r by lia. lia.
  - rewrite Pos2Z.inj_succ.
    replace (Z.succ (Zpos (digits2_pos p)) - 1) with (Z.succ (Zpos (digits2_pos p) - 1)) by lia.
    rewrite !Z.pow_succ_r by lia. lia.
  - simpl. lia.
Qed.

Lemma digits2_pos_unique (p : positive) (k : Z) :
  2 ^ (k - 1) <= Zpos p < 2 ^ k -> Zpos (digits2_pos p) = k.
Proof.
  intros [Hlo Hhi]. pose proof (digits2_pos_bounds p) as [Dlo Dhi].
  assert (Hk : 0 < k).
  { destruct (Z.ltb_spec 0 k); [assumption |].
    assert (2 ^ k <= 1); [| lia].
    destruct (Z.eq_dec k 0) as [-> | ]; [simpl; lia |].
    rewrite Z.pow_neg_r by lia. lia. }
  destruct (Z.lt_trichotomy (Zpos (digits2_pos p)) k) as [Hlt | [Heq | Hgt]]; [| exact Heq |].
  - assert (2 ^ Zpos (digits2_pos p) <= 2 ^ (k - 1)) by (apply Z.pow_le_mono_r; lia). lia.
  - assert (2 ^ k <= 2 ^ (Zpos (digits2_pos p) - 1)) by (apply Z.pow_le_mono_r; lia). lia.
Qed.

Lemma shr_1_div2 (mrs : shr_record) :
  0 <= shr_m mrs -> shr_m (shr_1 mrs) = shr_m mrs / 2.
Proof.
  destruct mrs as [m r s]. simpl. intros Hm.
  destruct m as [| [p | p |] | p]; cbn [shr_m]; try lia; try reflexivity.
  - apply Z.div_unique with (r := 1); lia.
  - apply Z.div_unique with (r := 0); lia.
Qed.

Lemma pow2_xO (n : positive) : 2 ^ Zpos n~0 = 2 ^ Zpos n * 2 ^ Zpos n.
Proof. rewrite <- Z.pow_add_r by lia. f_equal. lia. Qed.

Lemma pow2_xI (n : positive) : 2 ^ Zpos n~1 = 2 * (2 ^ Zpos n * 2 ^ Zpos n).
Proof.
  rewrite <- Z.pow_add_r by lia. rewrite <- Z.pow_succ_r by lia. f_equal. lia.
Qed.

Lemma iter_shr_1_div (n : positive) : forall mrs,
  0 <= shr_m mrs ->
  shr_m (SpecFloat.iter_pos shr_1 n mrs) = shr_m mrs / 2 ^ Zpos n.
Proof.
  assert (Hnn : forall a k, 0 <= a -> 0 <= k -> 0 <= a / 2 ^ k).
  { intros a k Ha Hk. apply Z.div_pos; [assumption | apply Z.pow_pos_nonneg; lia]. }
  assert (Hp : forall k : positive, 0 < 2 ^ Zpos k) by (intros; apply Z.pow_pos_nonneg; lia).
  induction n as [n IH | n IH |]; intros mrs Hm; cbn [SpecFloat.iter_pos].
  - assert (H1 : 0 <= shr_m (shr_1 mrs))
      by (rewrite shr_1_div2 by assumption; apply Z.div_pos; lia).
    rewrite IH by (rewrite IH by assumption; apply Hnn; lia).
    rewrite IH by assumption. rewrite shr_1_div2 by assumption.
    rewrite !Z.div_div by (try apply Hp; lia).
    rewrite pow2_xI. try (f_equal; lia).
  - rewrite IH by (rewrite IH by assumption; apply Hnn; lia).
    rewrite IH by assumption.
    rewrite !Z.div_div by (try apply Hp; lia).
    rewrite pow2_xO. try reflexivity.
  - rewrite shr_1_div2 by assumption. reflexivity.
Qed.

Lemma round_nearest_even_range m l :
  m <= round_nearest_even m l <= m + 1.
Proof.
  destruct l as [| []]; simpl; try lia. destruct (Z.even m); lia.
Qed.

(** Shifting a mantissa of [d >= 53] digits right by [d - 53]. *)
Lemma shr_to_53 (p : positive) (ex : Z) (l : location) :
  let d := Zpos (digits2_pos p) in
  53 <= d ->
  exists mrs,
    shr (shr_record_of_loc (Zpos p) l) ex (d - 53) = (mrs, ex + d - 53)
    /\ 2 ^ 52 <= shr_m mrs < 2 ^ 53.
Proof.
  intros d Hd. pose proof (digits2_pos_bounds p) as [Dlo Dhi]. fold d in Dlo, Dhi.
  assert (Hrec : shr_m (shr_record_of_loc (Zpos p) l) = Zpos p)
    by (destruct l as [| []]; reflexivity).
  destruct (d - 53) as [| q | q] eqn:Hq; [| | lia].
  - exists (shr_record_of_loc (Zpos p) l). split.
    + simpl. f_equal. lia.
    + rewrite Hrec. replace d with 53 in * by lia. simpl in Dlo. lia.
  - exists (SpecFloat.iter_pos shr_1 q (shr_record_of_loc (Zpos p) l)). split.
    + simpl. f_equal. lia.
    + rewrite iter_shr_1_div by (rewrite Hrec; lia). rewrite Hrec.
      assert (Hk : 0 < 2 ^ Zpos q) by (apply Z.pow_pos_nonneg; lia).
      assert (E1 : 2 ^ (d - 1) = 2 ^ 52 * 2 ^ Zpos q)
        by (rewrite <- Z.pow_add_r by lia; f_equal; lia).
      assert (E2 : 2 ^ d = 2 ^ 53 * 2 ^ Zpos q)
        by (rewrite <- Z.pow_add_r by lia; f_equal; lia).
      split.
      * apply Z.div_le_lower_bound; [assumption |]. lia.
      * apply Z.div_lt_upper_bound; [assumption |]. lia.
Qed.

(** Rounding a mantissa of at least 53 digits in the normal range: the
    result is a finite double with a 53-digit mantissa whose exponent is
    the shifted one, or one more after a carry. *)
Lemma round_aux_normal (s : bool) (p : positive) (ex : Z) (lx : location) :
  let d := Zpos (digits2_pos p) in
  53 <= d -> -1074 <= ex + d - 53 -> ex + d - 52 <= 971 ->
  exists m e,
    binary_round_aux prec emax s (Zpos p) ex lx = S754_finite s m e
    /\ Zpos (digits2_pos m) = 53
    /\ ex + d - 53 <= e <= ex + d - 52.
Proof.
  intros d Hd Hlo Hhi.
  pose proof (shr_to_53 p ex lx Hd) as (mrs & Hshr & Hm).
  cbv zeta in Hshr. fold d in Hshr.
  unfold binary_round_aux, shr_fexp. cbn [Zdigits2].
  fold d. clearbody d.
  assert (Hn : fexp prec emax (d + ex) - ex = d - 53)
    by (unfold fexp, SpecFloat.emin, prec, emax; lia).
  rewrite Hn, Hshr.
  pose proof (round_nearest_even_range (shr_m mrs) (loc_of_shr_record mrs)) as Hr.
  set (m1 := round_nearest_even (shr_m mrs) (loc_of_shr_record mrs)) in *.
  set (e1 := ex + d - 53) in *.
  destruct m1 as [| q1 | q1] eqn:Em1; [lia | | lia].
  destruct (Z.eq_dec (Zpos q1) (2 ^ 53)) as [Heq | Hne].
  - assert (Hd1 : Zdigits2 (Zpos q1) = 54).
    { cbn [Zdigits2]. apply digits2_pos_unique. rewrite Heq. simpl. lia. }
    rewrite Hd1.
    assert (Hn1 : fexp prec emax (54 + e1) - e1 = 1)
      by (unfold fexp, SpecFloat.emin, prec, emax; lia).
    rewrite Hn1. cbn [shr shr_record_of_loc SpecFloat.iter_pos].
    assert (Hq : q1 = 9007199254740992%positive) by (simpl in Heq; lia).
    subst q1. cbn [shr_1 shr_m].
    assert (Hle : Z.leb (e1 + 1) (emax - prec) = true)
      by (apply Z.leb_le; unfold emax, prec; lia).
    rewrite Hle. eexists _, _. split; [reflexivity |]. split; [reflexivity | lia].
  - assert (Hd1 : Zdigits2 (Zpos q1) = 53).
    { cbn [Zdigits2]. apply digits2_pos_unique. lia. }
    rewrite Hd1.
    assert (Hn1 : fexp prec emax (53 + e1) - e1 = 0)
      by (unfold fexp, SpecFloat.emin, prec, emax; lia).
    rewrite Hn1. cbn [shr shr_record_of_loc shr_m].
    assert (Hle : Z.leb e1 (emax - prec) = true)
      by (apply Z.leb_le; unfold emax, prec; lia).
    rewrite Hle. exists q1, e1. split; [reflexivity |].
    split; [exact Hd1 | lia].
Qed.

Lemma digits2_pos_range (p : positive) (lo hi : Z) :
  0 <= lo -> 2 ^ lo <= Zpos p < 2 ^ hi ->
  lo < Zpos (digits2_pos p) <= hi.
Proof.
  intros Hlo [H1 H2]. pose proof (digits2_pos_bounds p) as [D1 D2].
  split.
  - apply (Z.pow_lt_mono_r_iff 2); lia.
  - assert (Zpos (digits2_pos p) - 1 < hi); [| lia].
    assert (0 <= hi).
    { destruct (Z.leb_spec 0 hi); [assumption |]. rewrite Z.pow_neg_r in H2 by lia. lia. }
    apply (Z.pow_lt_mono_r_iff 2); lia.
Qed.

Lemma pos_iter_xO (d m : positive) :
  Zpos (Pos.iter xO m d) = Zpos m * 2 ^ Zpos d.
Proof.
  induction d as [| d IH] using Pos.peano_ind.
  - simpl. lia.
  - rewrite Pos.iter_succ, Pos2Z.inj_xO, IH, Pos2Z.inj_succ, Z.pow_succ_r by lia. lia.
Qed.

Lemma shl_align_fst (m : positive) (e ez : Z) :
  ez <= e -> Zpos (fst (shl_align m e ez)) = Zpos m * 2 ^ (e - ez).
Proof.
  intros H. unfold shl_align.
  destruct (ez - e) as [| q | q] eqn:Hq; [| lia |].
  - replace (e - ez) with 0 by lia. simpl. lia.
  - simpl. rewrite pos_iter_xO. f_equal. f_equal. lia.
Qed.

(** The sum of two positive normal doubles is a positive normal double,
    at most two binades above the larger. *)
Lemma fadd_normal (m1 m2 : positive) (e1 e2 : Z) :
  Zpos (digits2_pos m1) = 53 -> Zpos (digits2_pos m2) = 53 ->
  -1074 <= e1 -> -1074 <= e2 -> Z.max e1 e2 + 2 <= 971 ->
  exists m e,
    fadd (S754_finite false m1 e1) (S754_finite false m2 e2) = S754_finite false m e
    /\ Zpos (digits2_pos m) = 53
    /\ Z.max e1 e2 <= e <= Z.max e1 e2 + 2.
Proof.
  intros D1 D2 L1 L2 Hhi.
  unfold fadd, SFadd. cbn [cond_Zopp].
  set (ez := Z.min e1 e2).
  rewrite !shl_align_fst by (unfold ez; lia).
  pose proof (digits2_pos_bounds m1) as B1. rewrite D1 in B1.
  pose proof (digits2_pos_bounds m2) as B2. rewrite D2 in B2.
  change (2 ^ (53 - 1)) with (2 ^ 52) in *.
  set (a := e1 - ez). set (b := e2 - ez).
  assert (Ha : 0 <= a) by (unfold a, ez; lia).
  assert (Hb : 0 <= b) by (unfold b, ez; lia).
  set (k := Z.max a b).
  assert (Hpa : 0 < 2 ^ a) by (apply Z.pow_pos_nonneg; lia).
  assert (Hpb : 0 < 2 ^ b) by (apply Z.pow_pos_nonneg; lia).
  assert (Hka : 2 ^ a <= 2 ^ k) by (apply Z.pow_le_mono_r; unfold k; lia).
  assert (Hkb : 2 ^ b <= 2 ^ k) by (apply Z.pow_le_mono_r; unfold k; lia).
  assert (Hk1 : 2 ^ (52 + k) = 2 ^ 52 * 2 ^ k) by (apply Z.pow_add_r; unfold k; lia).
  assert (Hk2 : 2 ^ (54 + k) = 2 * (2 ^ 53 * 2 ^ k)).
  { replace (54 + k) with (Z.succ (53 + k)) by lia.
    rewrite Z.pow_succ_r, Z.pow_add_r by (unfold k; lia). reflexivity. }
  assert (Hmax : 2 ^ k = 2 ^ a \/ 2 ^ k = 2 ^ b)
    by (unfold k; destruct (Z.max_spec a b) as [[_ ->] | [_ ->]]; auto).
  set (M := Zpos m1 * 2 ^ a + Zpos m2 * 2 ^ b).
  assert (HM : 2 ^ (52 + k) <= M < 2 ^ (54 + k)).
  { rewrite Hk1, Hk2. unfold M. split.
    - destruct Hmax as [-> | ->]; nia.
    - assert (Zpos m1 * 2 ^ a < 2 ^ 53 * 2 ^ k) by nia.
      assert (Zpos m2 * 2 ^ b < 2 ^ 53 * 2 ^ k) by nia. lia. }
  destruct M as [| pM | pM] eqn:EM;
    [ assert (0 < 2 ^ (52 + k)) by (apply Z.pow_pos_nonneg; unfold k; lia); lia
    | | assert (0 < 2 ^ (52 + k)) by (apply Z.pow_pos_nonneg; unfold k; lia); lia ].
  pose proof (digits2_pos_range pM (52 + k) (54 + k) ltac:(unfold k; lia) HM) as HdM.
  cbn [binary_normalize]. unfold binary_round.
  assert (Hfexp : fexp prec emax (Zpos (digits2_pos pM) + ez)
                  = Zpos (digits2_pos pM) + ez - 53)
    by (unfold fexp, SpecFloat.emin, prec, emax, ez, k, a, b in *; lia).
  rewrite Hfexp.
  assert (Hsh : shl_align pM ez (Zpos (digits2_pos pM) + ez - 53) = (pM, ez)).
  { unfold shl_align.
    destruct (Zpos (digits2_pos pM) + ez - 53 - ez) eqn:Hq; try reflexivity. lia. }
  rewrite Hsh.
  destruct (round_aux_normal false pM ez loc_Exact) as (m & e & Hr & Hd & He);
    try (unfold ez, k, a, b in *; lia).
  exists m, e. split; [exact Hr |]. split; [exact Hd |].
  unfold ez, k, a, b in *. lia.
Qed.

(** The quotient of two positive normal doubles is a positive normal
    double as long as its exponent stays in range. *)
Lemma fdiv_normal (m1 m2 : positive) (e1 e2 : Z) :
  Zpos (digits2_pos m1) = 53 -> Zpos (digits2_pos m2) = 53 ->
  -1074 <= e1 - e2 - 53 -> e1 - e2 - 51 <= 971 ->
  exists m e,
    fdiv (S754_finite false m1 e1) (S754_finite false m2 e2) = S754_finite false m e
    /\ Zpos (digits2_pos m) = 53
    /\ e1 - e2 - 53 <= e <= e1 - e2 - 51.
Proof.
  intros D1 D2 Hlo Hhi.
  unfold fdiv, SFdiv, SFdiv_core_binary. cbn [Zdigits2 xorb]. rewrite D1, D2.
  assert (He' : Z.min (fexp prec emax (53 + e1 - (53 + e2))) (e1 - e2) = e1 - e2 - 53)
    by (unfold fexp, SpecFloat.emin, prec, emax; lia).
  rewrite He'.
  replace (e1 - e2 - (e1 - e2 - 53)) with 53 by lia.
  cbv iota. rewrite Z.shiftl_mul_pow2 by lia.
  pose proof (digits2_pos_bounds m1) as B1. rewrite D1 in B1.
  pose proof (digits2_pos_bounds m2) as B2. rewrite D2 in B2.
  change (2 ^ (53 - 1)) with 4503599627370496 in *.
  change (2 ^ 53) with 9007199254740992 in *.
  pose proof (Z_div_mod (Zpos m1 * 9007199254740992) (Zpos m2) ltac:(lia)) as Hdm.
  destruct (Z.div_eucl (Zpos m1 * 9007199254740992) (Zpos m2)) as [q r].
  destruct Hdm as [Hq Hr].
  assert (Hqb : 2 ^ 52 <= q < 2 ^ 54).
  { change (2 ^ 52) with 4503599627370496. change (2 ^ 54) with 18014398509481984.
    split; nia. }
  destruct q as [| pq | pq]; [simpl in Hqb; lia | | lia].
  pose proof (digits2_pos_range pq 52 54 ltac:(lia) Hqb) as Hdq.
  destruct (round_aux_normal false pq (e1 - e2 - 53) (new_location (Zpos m2) r))
    as (m & e & Hres & Hd & He); try lia.
  exists m, e. split; [exact Hres |]. split; [exact Hd | lia].
Qed.

Lemma round_half_even_nonneg (m : positive) (e : Z) : 0 <= round_half_even m e.
Proof.
  unfold round_half_even. destruct (Z.leb 0 e) eqn:He.
  - apply Z.leb_le in He. apply Z.mul_nonneg_nonneg; [lia | apply Z.pow_nonneg; lia].
  - apply Z.leb_gt in He.
    assert (0 < 2 ^ (- e)) by (apply Z.pow_pos_nonneg; lia).
    assert (0 <= Zpos m / 2 ^ (- e)) by (apply Z.div_pos; lia).
    destruct (Z.compare _ _); [destruct (Z.even _) | |]; lia.
Qed.

Lemma noz_b_sound lo hi f : noz_b lo hi f = true -> nozP lo hi f.
Proof.
  destruct f as [[] | | | [] m e]; cbn [noz_b]; try discriminate; intros H.
  - now left.
  - right. apply andb_prop in H as [H H3]. apply andb_prop in H as [H1 H2].
    apply Z.eqb_eq in H1. apply Z.leb_le in H2, H3.
    exists m, e. split; [reflexivity |]. lia.
Qed.

Lemma normalP_weaken lo hi lo' hi' f :
  normalP lo hi f -> lo' <= lo -> hi <= hi' -> normalP lo' hi' f.
Proof. intros (m & e & ? & ? & ?) ? ?. exists m, e. repeat split; auto; lia. Qed.

Lemma weight_in_table (check : string) : In (get_default weights check f1_0) all_weights.
Proof.
  unfold get_default, weights, all_weights. cbn [dict_get].
  repeat match goal with
         | |- context [String.eqb ?a check] => destruct (String.eqb a check)
         end; simpl; tauto.
Qed.

Lemma weight_normal (w : float) : In w all_weights -> normalP (-53) (-52) w.
Proof.
  unfold all_weights. simpl.
  intros [<- | [<- | [<- | [<- | [<- | [<- | [<- | []]]]]]]];
    eexists _, _; (split; [reflexivity |]); (split; [reflexivity | lia]).
Qed.

Lemma products_checked :
  forallb
    (fun s =>
       forallb
         (fun w =>
            match int_mul_float (Z.of_nat s) w with
            | Ok x => noz_b (-53) (-45) x
            | Raise _ => false
            end)
         all_weights)
    (seq 0 101) = true.
Proof. vm_compute. reflexivity. Qed.

(** A score in [0,100] times a weight of the table. *)
Lemma int_mul_float_range (s : Z) (w : float) :
  0 <= s <= 100 -> In w all_weights ->
  exists x, int_mul_float s w = Ok x /\ nozP (-53) (-45) x.
Proof.
  intros Hs Hw. pose proof products_checked as H.
  rewrite forallb_forall in H.
  specialize (H (Z.to_nat s)). rewrite Z2Nat.id in H by lia.
  assert (Hin : In (Z.to_nat s) (seq 0 101)) by (apply in_seq; lia).
  specialize (H Hin). rewrite forallb_forall in H. specialize (H w Hw).
  destruct (int_mul_float s w) as [x |]; [| discriminate].
  exists x. split; [reflexivity | now apply noz_b_sound].
Qed.

Lemma fadd_noz_normal lo hi f w :
  nozP lo hi f -> normalP lo hi w -> -1074 <= lo -> hi + 2 <= 971 ->
  normalP lo (hi + 2) (fadd f w).
Proof.
  intros [-> | (m1 & e1 & -> & D1 & E1)] (m2 & e2 & -> & D2 & E2) Hlo Hhi.
  - exists m2, e2. split; [reflexivity |]. split; [assumption | lia].
  - destruct (fadd_normal m1 m2 e1 e2) as (m & e & Hr & Hd & He); auto; try lia.
    exists m, e. split; [exact Hr |]. split; [exact Hd | lia].
Qed.

Lemma fadd_noz_noz lo hi f x :
  nozP lo hi f -> nozP lo hi x -> -1074 <= lo -> hi + 2 <= 971 ->
  nozP lo (hi + 2) (fadd f x).
Proof.
  intros Hf [-> | Hx] Hlo Hhi.
  - destruct Hf as [-> | (m1 & e1 & -> & D1 & E1)].
    + now left.
    + right. exists m1, e1. split; [reflexivity |]. split; [assumption | lia].
  - right. now apply fadd_noz_normal.
Qed.

Lemma nozP_weaken lo hi lo' hi' f :
  nozP lo hi f -> lo' <= lo -> hi <= hi' -> nozP lo' hi' f.
Proof. intros [-> | H] ? ?; [now left | right; eapply normalP_weaken; eauto]. Qed.

Lemma accumulate_step (n : Z) (ts tw : num) (fs fw : float) (check : string) (s : Z) :
  to_float ts = Ok fs -> to_float tw = Ok fw ->
  nozP (-53) (-45 + 2 * n) fs -> nozP (-53) (-52 + 2 * n) fw ->
  0 <= n <= 400 -> 0 <= s <= 100 ->
  exists fs' fw',
    accumulate (ts, tw) (check, s) = Ok (NFloat fs', NFloat fw')
    /\ nozP (-53) (-45 + 2 * (n + 1)) fs'
    /\ normalP (-53) (-52 + 2 * (n + 1)) fw'.
Proof.
  intros Hts Htw Hfs Hfw Hn Hs.
  pose proof (weight_in_table check) as Hw.
  destruct (int_mul_float_range s _ Hs Hw) as (x & Hx & Hxr).
  exists (fadd fs x), (fadd fw (get_default weights check f1_0)).
  split; [| split].
  - unfold accumulate. rewrite Hx. simpl. unfold num_iadd_float.
    rewrite Hts, Htw. reflexivity.
  - replace (-45 + 2 * (n + 1)) with (-45 + 2 * n + 2) by lia.
    apply fadd_noz_noz; try lia; [assumption |].
    eapply nozP_weaken; [exact Hxr | lia | lia].
  - replace (-52 + 2 * (n + 1)) with (-52 + 2 * n + 2) by lia.
    apply fadd_noz_normal; try lia; [assumption |].
    eapply normalP_weaken; [apply weight_normal, Hw | lia | lia].
Qed.

Lemma for_items_total (rest : list (string * Z)) :
  forall (item : string * Z) (n : Z) (ts tw : num) (fs fw : float),
  to_float ts = Ok fs -> to_float tw = Ok fw ->
  nozP (-53) (-45 + 2 * n) fs -> nozP (-53) (-52 + 2 * n) fw ->
  0 <= n -> n + Z.of_nat (length (item :: rest)) <= 401 ->
  in_range (item :: rest) ->
  exists fs' fw',
    for_items (item :: rest) (ts, tw) = Ok (NFloat fs', NFloat fw')
    /\ nozP (-53) 800 fs' /\ normalP (-53) 800 fw'.
Proof.
  induction rest as [| item' rest IH]; intros [check s] n ts tw fs fw Hts Htw Hfs Hfw Hn Hlen Hr.
  - apply Forall_cons in Hr as [Hs _]. simpl in Hs, Hlen.
    destruct (accumulate_step n ts tw fs fw check s) as (fs' & fw' & Ha & H1 & H2);
      auto; try lia.
    exists fs', fw'. cbn [for_items]. rewrite Ha. split; [reflexivity |].
    split; [eapply nozP_weaken | eapply normalP_weaken]; eauto; lia.
  - apply Forall_cons in Hr as [Hs Hr]. simpl in Hs.
    cbn [length] in Hlen.
    destruct (accumulate_step n ts tw fs fw check s) as (fs' & fw' & Ha & H1 & H2);
      auto; try lia.
    cbn [for_items]. rewrite Ha. simpl mbind.
    apply (IH item' (n + 1) (NFloat fs') (NFloat fw') fs' fw'); auto; try lia.
    + now right.
    + cbn [length]. lia.
Qed.

(** The Aggregator's average of at most 400 scores within [0,100]
    exists and lies in [0,100]. *)
Lemma weighted_average_total (scores : list (string * Z)) :
  scores <> [] -> in_range scores -> (length scores <= 400)%nat ->
  exists z, weighted_average scores = Ok z /\ 0 <= z <= 100.
Proof.
  intros Hne Hr Hlen. destruct scores as [| item rest]; [congruence |].
  destruct (for_items_total rest item 0 (NInt 0) (NInt 0) (S754_zero false) (S754_zero false))
    as (fs & fw & Hfor & Hfs & (mw & ew & -> & Dw & Ew));
    try reflexivity; try (now left); try lia; [exact Hr |].
  unfold weighted_average. rewrite Hfor. simpl mbind. cbn [num_is_zero].
  destruct Hfs as [-> | (ms & es & -> & Ds & Es)].
  - exists 0. split; [reflexivity | lia].
  - destruct (fdiv_normal ms mw es ew) as (m & e & Hq & _ & _); auto; try lia.
    rewrite Hq. cbn [py_round cond_Zopp]. simpl mbind.
    eexists. split; [reflexivity |].
    pose proof (round_half_even_nonneg m e). lia.
Qed.

(** ** The drivers *)

Lemma result_blocks_keys_NoDup : NoDup (block_keys result_blocks).
Proof. apply (bool_decide_unpack _). vm_compute. exact I. Qed.

Section RunBlocks.
Variables (E : env) (url : string) (r : response) (sp : soup) (args : Args).

Lemma run_blocks_spec blocks : forall res res',
  NoDup (block_keys blocks) ->
  run_blocks E url r sp args blocks res = Ok res' ->
  (forall f key c, (f, key, c) ∈ blocks ->
     flag args f || flag args "all" = true ->
     exists v, run_check E url r sp c = Ok v /\ res' !! key = Some v)
  /\ (forall k, k ∉ block_keys blocks -> res' !! k = res !! k).
Proof.
  induction blocks as [| [[f0 key0] c0] rest IH]; intros res res' Hnd Hrun.
  - simpl in Hrun. inversion Hrun; subst. split; [intros f key c H; inversion H | auto].
  - unfold block_keys in Hnd. simpl in Hnd. apply NoDup_cons in Hnd as [Hnotin Hnd].
    simpl in Hrun.
    destruct (flag args f0 || flag args "all") eqn:Hc.
    + destruct (run_check E url r sp c0) as [v0 | e] eqn:Hv0; [| discriminate].
      simpl in Hrun. destruct (IH _ _ Hnd Hrun) as [IH1 IH2]. split.
      * intros f key c Hin Hflag. apply elem_of_cons in Hin as [Heq | Hin].
        -- inversion Heq; subst. exists v0. split; [exact Hv0 |].
           rewrite IH2 by exact Hnotin. apply lookup_insert_eq.
        -- eauto.
      * intros k Hk. unfold block_keys in Hk. simpl in Hk.
        apply not_elem_of_cons in Hk as [Hne Hk].
        rewrite IH2 by exact Hk. now apply lookup_insert_ne.
    + destruct (IH _ _ Hnd Hrun) as [IH1 IH2]. split.
      * intros f key c Hin Hflag. apply elem_of_cons in Hin as [Heq | Hin].
        -- inversion Heq; subst. congruence.
        -- eauto.
      * intros k Hk. unfold block_keys in Hk. simpl in Hk.
        apply not_elem_of_cons in Hk as [Hne Hk]. now apply IH2.
Qed.

Lemma extra_blocks_lookup res res' k :
  extra_blocks E args res = Ok res' ->
  k <> "sql_files" -> k <> "sensitive_file_content" ->
  res' !! k = res !! k.
Proof.
  unfold extra_blocks. intros H H1 H2.
  destruct (flag args "sql_search").
  - destruct (info E "search_sql_files") as [v |]; [simpl in H | discriminate].
    destruct (view_file args) as [path |].
    + destruct (negb (String.eqb path "")).
      * destruct (info E "view_sensitive_file_content") as [w |]; [simpl in H | discriminate].
        destruct (_ && _); [destruct (info E "format_results"); [simpl in H | discriminate] |];
          inversion H; subst; now rewrite !lookup_insert_ne by congruence.
      * simpl in H.
        destruct (_ && _); [destruct (info E "format_results"); [simpl in H | discriminate] |];
          inversion H; subst; now rewrite !lookup_insert_ne by congruence.
    + simpl in H.
      destruct (_ && _); [destruct (info E "format_results"); [simpl in H | discriminate] |];
        inversion H; subst; now rewrite !lookup_insert_ne by congruence.
  - simpl in H. destruct (view_file args) as [path |].
    + destruct (negb (String.eqb path "")).
      * destruct (info E "view_sensitive_file_content") as [w |]; [simpl in H | discriminate].
        destruct (_ && _); [destruct (info E "format_results"); [simpl in H | discriminate] |];
          inversion H; subst; now rewrite ?lookup_insert_ne by congruence.
      * simpl in H.
        destruct (_ && _); [destruct (info E "format_results"); [simpl in H | discriminate] |];
          inversion H; subst; reflexivity.
    + simpl in H.
      destruct (_ && _); [destruct (info E "format_results"); [simpl in H | discriminate] |];
        inversion H; subst; reflexivity.
Qed.
End RunBlocks.


Lemma score_rows_unflagged url args results rows st :
  Forall (fun row : string * string * string * string =>
            flag args (fst (fst (fst row))) = false) rows ->
  score_rows url args results rows st = (Ok tt, st).
Proof.
  induction 1 as [| [[[f key] kind] reason] rows Hf _ IH]; [reflexivity |].
  simpl in *. unfold mbind, M_bind. rewrite Hf. simpl. exact IH.
Qed.

(** Without one of the twelve scoring flags nothing is recorded for the
    URL, whatever else is selected, [--all] included. *)
Lemma unflagged_run_records_nothing (E : env) url args st :
  Forall (fun row : string * string * string * string =>
            flag args (fst (fst (fst row))) = false) scoring_rows ->
  snd (process_url_with_results E url args st) = snd (init_session url st).
Proof.
  intros Hf. unfold process_url_with_results, mbind, M_bind, mret, M_ret, lift, aggregate.
  cbn [init_session].
  destruct (check_url E (normalize_url url)) as [response |]; [| reflexivity].
  destruct (parse_html E response) as [msg | sp]; [reflexivity |].
  destruct (run_blocks _ _ _ _ _ _ _) as [results0 | e]; [| reflexivity].
  destruct (extra_blocks _ _ _) as [results | e]; [| reflexivity].
  destruct (wants_threat_score args); [| reflexivity].
  rewrite score_rows_unflagged by exact Hf.
  destruct (calculate_overall_threat_score _ _); reflexivity.
Qed.

(** Claim C1 fails on the code: with [--all] alone every check runs and
    is stored (the security payload is there and would score 35), yet
    no contribution reaches the session: both drivers hand an empty
    assessment (score 0, no details) to the presentation. *)
Theorem C1_all_mode_records_no_contribution :
  let url := "https://example.com" in
  let run := process_url_with_results plain_env url (only "all") empty_store in
  let shown := process_url plain_env url (only "all") empty_store in
  (exists results,
      fst run = Ok results
      /\ results !! "security_info" = Some (check_https_security url plain_response)
      /\ calculate_threat_score "security" (check_https_security url plain_response)
         = Ok 35
      /\ results !! "threat_score" = Some (threat_score_entry 0 []))
  /\ THREAT_SCORES (snd run) !! url = Some []
  /\ fst shown = Ok (Some (0, []))
  /\ THREAT_SCORES (snd shown) !! url = Some [].
Proof.
  intros url run shown.
  assert (Hrun : exists results, fst run = Ok results /\
     results !! "security_info" = Some (check_https_security url plain_response) /\
     results !! "threat_score" = Some (threat_score_entry 0 [])).
  { destruct (fst run) as [results | e] eqn:Erun.
    - exists results. split; [reflexivity |].
      assert (H : match fst run with Ok m => m !! "security_info" | Raise _ => None end
                 = Some (check_https_security url plain_response)) by (vm_compute; reflexivity).
      assert (H2 : match fst run with Ok m => m !! "threat_score" | Raise _ => None end
                 = Some (threat_score_entry 0 [])) by (vm_compute; reflexivity).
      rewrite Erun in H, H2. split; assumption.
    - assert (H : is_ok (fst run) = true) by (vm_compute; reflexivity).
      rewrite Erun in H. discriminate. }
  destruct Hrun as (results & H1 & H2 & H3).
  split; [exists results; repeat split; assumption || reflexivity |].
  split; [vm_compute; reflexivity |].
  split; vm_compute; reflexivity.
Qed.

(** ** The Aggregator *)




Lemma accumulate_first (item : string * Z) :
  accumulate (NInt 0, NInt 0) item =
  (x ← int_mul_float (snd item) (get_default weights (fst item) f1_0);
   Ok (NFloat (fadd (S754_zero false) x),
       NFloat (fadd (S754_zero false) (get_default weights (fst item) f1_0)))).
Proof.
  destruct item as [check s]. unfold accumulate. cbn [fst snd].
  destruct (int_mul_float s _); reflexivity.
Qed.

Lemma accumulate_float (a b : float) (item : string * Z) :
  accumulate (NFloat a, NFloat b) item =
  (x ← int_mul_float (snd item) (get_default weights (fst item) f1_0);
   Ok (NFloat (fadd a x), NFloat (fadd b (get_default weights (fst item) f1_0)))).
Proof.
  destruct item as [check s]. unfold accumulate. cbn [fst snd].
  destruct (int_mul_float s _); reflexivity.
Qed.


Lemma bind_Ok {A B} (a : A) (f : A -> result B) : (Ok a ≫= f) = f a.
Proof. reflexivity. Qed.



Lemma session_lookup url scores details :
  THREAT_SCORES (session url scores details) !! url = Some scores
  /\ THREAT_DETAILS (session url scores details) !! url = Some details.
Proof. unfold session. simpl. now rewrite !lookup_singleton_eq. Qed.

Lemma overall_of_session url scores details :
  scores <> [] ->
  calculate_overall_threat_score url (session url scores details)
  = (overall ← weighted_average scores; Ok (overall, details)).
Proof.
  intros Hne. unfold calculate_overall_threat_score.
  destruct (session_lookup url scores details) as [-> ->].
  destruct scores; [congruence | reflexivity].
Qed.



Lemma float_of_Z_checked :
  forallb (fun s => match float_of_Z (Z.of_nat s) with
                    | Ok f => true
                    | Raise _ => false
                    end) (seq 0 101) = true.
Proof. vm_compute. reflexivity. Qed.

Lemma float_of_Z_in_range (s : Z) : 0 <= s <= 100 -> float_of_Z s = Ok (round_Z s).
Proof.
  intros Hs. pose proof float_of_Z_checked as H. rewrite forallb_forall in H.
  specialize (H (Z.to_nat s)). rewrite Z2Nat.id in H by lia.
  assert (Hin : In (Z.to_nat s) (seq 0 101)) by (apply in_seq; lia).
  specialize (H Hin). unfold float_of_Z in *.
  destruct (round_Z s); try reflexivity; discriminate.
Qed.

Lemma for_items_floats (rest : list (string * Z)) : forall a b : float,
  in_range rest ->
  for_items rest (NFloat a, NFloat b)
  = Ok (NFloat (fold_left fadd
                  (map (fun c => fmul (round_Z (snd c)) (spec_weight (fst c))) rest) a),
        NFloat (fold_left fadd (map (fun c => spec_weight (fst c)) rest) b)).
Proof.
  induction rest as [| [check s] rest IH]; intros a b Hr; [reflexivity |].
  apply Forall_cons in Hr as [Hs Hr]. cbn [snd] in Hs.
  cbn [for_items map fold_left fst snd]. rewrite accumulate_float. cbn [fst snd].
  unfold int_mul_float. rewrite float_of_Z_in_range by exact Hs.
  rewrite !bind_Ok. apply IH, Hr.
Qed.

Lemma for_items_from_zero (scores : list (string * Z)) :
  scores <> [] -> in_range scores ->
  for_items scores (NInt 0, NInt 0)
  = Ok (NFloat (sum_floats
                  (map (fun c => fmul (round_Z (snd c)) (spec_weight (fst c))) scores)),
        NFloat (sum_floats (map (fun c => spec_weight (fst c)) scores))).
Proof.
  intros Hne Hr. destruct scores as [| [check s] rest]; [congruence |].
  apply Forall_cons in Hr as [Hs Hr]. cbn [snd] in Hs.
  cbn [for_items]. rewrite accumulate_first. cbn [fst snd].
  unfold int_mul_float. rewrite float_of_Z_in_range by exact Hs.
  rewrite !bind_Ok. rewrite for_items_floats by exact Hr. reflexivity.
Qed.

(** On scores within [0,100] the code and the formula of section 4.3
    agree, and both return an integer of [0,100]. *)
Lemma weighted_average_spec (scores : list (string * Z)) :
  scores <> [] -> in_range scores -> (length scores <= 400)%nat ->
  exists z, weighted_average scores = Ok z /\ spec_overall scores = Ok z /\ 0 <= z <= 100.
Proof.
  intros Hne Hr Hlen.
  destruct (weighted_average_total scores Hne Hr Hlen) as (z & Hz & Hzr).
  exists z. split; [exact Hz |]. split; [| exact Hzr].
  revert Hz. unfold weighted_average, spec_overall.
  rewrite for_items_from_zero by assumption. rewrite bind_Ok. cbn [num_is_zero].
  destruct (SFeqb _ _) eqn:Hzero; [intros Hz; exact Hz |].
  unfold num_div. cbn [num_is_zero to_float]. rewrite Hzero, !bind_Ok.
  destruct (py_round _) as [r |]; [| discriminate].
  rewrite !bind_Ok. intros Hz. inversion Hz; subst. f_equal. lia.
Qed.




(** ** The Orchestrator and the session stores *)

Lemma ssl_payload_well_formed (o : ssl_outcome) : well_formed (check_ssl_info o) = true.
Proof.
  assert (Hg : forall k, k <> "error" -> k <> "has_ssl" -> ~ In k ssl_fields ->
               payload_get (check_ssl_info o) k
               = dict_get [ ("has_ssl", PBool false); ("issuer", PNone); ("subject", PNone);
                            ("version", PNone); ("valid_from", PNone);
                            ("valid_until", PNone); ("serial_number", PNone);
                            ("error", PNone) ] k)
    by (intros; now apply ssl_payload_get).
  unfold check_ssl_info in *. cbn [payload_get] in Hg.
  unfold well_formed, field_ok.
  rewrite !Hg by (try discriminate; unfold ssl_fields; simpl; intuition discriminate).
  reflexivity.
Qed.

Lemma own_payload_well_formed (E : env) url r sp c v :
  is_info c = false -> run_check E url r sp c = Ok v -> well_formed v = true.
Proof.
  destruct c; try discriminate; intros _ H; cbn [run_check] in H.
  - inversion H; subst. reflexivity.
  - inversion H; subst. unfold check_csp_policy.
    destruct (headers r !! "Content-Security-Policy") as [x |];
      [destruct (String.eqb x ""); simpl negb; cbv iota;
       [| destruct (contains "'unsafe-inline'" x), (contains "'unsafe-eval'" x)] |];
      destruct (has_header r "Content-Security-Policy-Report-Only"); reflexivity.
  - inversion H; subst. reflexivity.
  - inversion H; subst. reflexivity.
  - inversion H; subst. apply ssl_payload_well_formed.
  - inversion H; subst. reflexivity.
  - destruct (s_vulns sp); [inversion H; subst; reflexivity | discriminate].
  - inversion H; subst. unfold check_for_clickjacking.
    destruct (headers r !! "X-Frame-Options"), (headers r !! "Content-Security-Policy"),
      (frame_ancestors r); reflexivity.
  - inversion H; subst. reflexivity.
  - inversion H; subst. reflexivity.
  - inversion H; subst. unfold check_mixed_content. destruct (negb _); reflexivity.
  - inversion H; subst. reflexivity.
Qed.

(** Each scoring row reads the key its own check stored. *)
Lemma scoring_rows_blocks :
  Forall (fun row : string * string * string * string =>
            (fst (fst (fst row)), snd (fst (fst row)), own_check (snd (fst row)))
              ∈ result_blocks
            /\ is_info (own_check (snd (fst row))) = false
            /\ snd (fst (fst row)) <> "sql_files"
            /\ snd (fst (fst row)) <> "sensitive_file_content")
    scoring_rows.
Proof. apply (bool_decide_unpack _). vm_compute. exact I. Qed.

Lemma checks_return_results (E : env) url r sp args :
  checks_return E url r sp args = true ->
  exists results0 results,
    run_blocks E url r sp args result_blocks ∅ = Ok results0
    /\ extra_blocks E args results0 = Ok results.
Proof.
  unfold checks_return.
  destruct (run_blocks E url r sp args result_blocks ∅) as [results0 |]; [| discriminate].
  rewrite bind_Ok.
  destruct (extra_blocks E args results0) as [results |] eqn:He; [| discriminate].
  intros _. exists results0, results. split; [reflexivity | exact He].
Qed.

Lemma rows_ready (E : env) url r sp args results0 results :
  run_blocks E url r sp args result_blocks ∅ = Ok results0 ->
  extra_blocks E args results0 = Ok results ->
  Forall (row_ready args results) scoring_rows.
Proof.
  intros Hrun Hextra.
  destruct (run_blocks_spec E url r sp args result_blocks ∅ results0
              result_blocks_keys_NoDup Hrun) as [Hset _].
  eapply Forall_impl; [exact scoring_rows_blocks |].
  intros [[[f key] kind] reason]. cbn [fst snd].
  intros (Hin & Hown & Hk1 & Hk2) Hflag. cbn [fst snd] in Hflag.
  destruct (Hset f key (own_check kind) Hin) as (v & Hv & Hlook);
    [rewrite Hflag; reflexivity |].
  pose proof (own_payload_well_formed E url r sp _ v Hown Hv) as Hwf.
  destruct (scorer_total kind v Hwf) as (s & Hs & Hsr).
  exists v, s. cbn [fst snd]. split; [| split; assumption].
  rewrite (extra_blocks_lookup E args results0 results key Hextra Hk1 Hk2). exact Hlook.
Qed.

Lemma in_range_dict_set k s d :
  in_range d -> 0 <= s <= 100 -> in_range (dict_set k s d).
Proof.
  unfold in_range. intros Hd Hs. induction d as [| [k0 v0] d IH]; simpl.
  - constructor; [exact Hs | constructor].
  - apply Forall_cons in Hd as [H0 Hd].
    destruct (String.eqb k0 k); constructor; auto.
Qed.

Lemma length_dict_set {A} k (v : A) d : (length (dict_set k v d) <= S (length d))%nat.
Proof.
  induction d as [| [k0 v0] d IH]; simpl; [lia |].
  destruct (String.eqb k0 k); simpl; lia.
Qed.

Lemma score_row_skip url args results f key kind reason st :
  flag args f = false ->
  score_row url args results (f, key, kind, reason) st = (Ok tt, st).
Proof. intros Hf. unfold score_row. now rewrite Hf. Qed.

Lemma score_row_ok url args results f key kind reason st payload s d dd :
  flag args f = true -> results !! key = Some payload ->
  calculate_threat_score kind payload = Ok s ->
  THREAT_SCORES st !! url = Some d -> THREAT_DETAILS st !! url = Some dd ->
  score_row url args results (f, key, kind, reason) st
  = (Ok tt,
     {| THREAT_SCORES := <[url := dict_set kind s d]> (THREAT_SCORES st);
        THREAT_DETAILS :=
          <[url := dict_set kind {| d_score := s; d_reason := reason |} dd]>
            (THREAT_DETAILS st) |}).
Proof.
  intros Hf Hlook Hs Hts Htd. unfold score_row. rewrite Hf, Hlook.
  unfold mbind, M_bind, lift. rewrite Hs. unfold set_score. rewrite Hts.
  unfold set_detail. cbn [THREAT_DETAILS THREAT_SCORES]. now rewrite Htd.
Qed.

Lemma score_row_KeyError url args results f key kind reason st payload s :
  flag args f = true -> results !! key = Some payload ->
  calculate_threat_score kind payload = Ok s ->
  THREAT_SCORES st !! url = None ->
  score_row url args results (f, key, kind, reason) st = (Raise KeyError, st).
Proof.
  intros Hf Hlook Hs Hts. unfold score_row. rewrite Hf, Hlook.
  unfold mbind, M_bind, lift. rewrite Hs. unfold set_score. now rewrite Hts.
Qed.

Lemma score_rows_cons url args results row rows st :
  score_rows url args results (row :: rows) st
  = match score_row url args results row st with
    | (Ok _, st') => score_rows url args results rows st'
    | (Raise e, st') => (Raise e, st')
    end.
Proof. reflexivity. Qed.

Lemma score_rows_ok url args results rows : forall st d dd,
  THREAT_SCORES st !! url = Some d ->
  THREAT_DETAILS st !! url = Some dd ->
  in_range d ->
  Forall (row_ready args results) rows ->
  exists st' d' dd',
    score_rows url args results rows st = (Ok tt, st')
    /\ THREAT_SCORES st' !! url = Some d'
    /\ THREAT_DETAILS st' !! url = Some dd'
    /\ in_range d'
    /\ (length d' <= length d + length rows)%nat.
Proof.
  induction rows as [| [[[f key] kind] reason] rows IH]; intros st d dd Hts Htd Hr Hready.
  - exists st, d, dd. repeat split; auto. simpl. lia.
  - apply Forall_cons in Hready as [Hrow Hready]. rewrite score_rows_cons.
    destruct (flag args f) eqn:Hf.
    + destruct (Hrow Hf) as (payload & s & Hlook & Hs & Hsr). cbn [fst snd] in Hlook, Hs.
      rewrite (score_row_ok _ _ _ _ _ _ _ _ payload s d dd) by assumption.
      edestruct (IH {| THREAT_SCORES := <[url := dict_set kind s d]> (THREAT_SCORES st);
                       THREAT_DETAILS :=
                         <[url := dict_set kind {| d_score := s; d_reason := reason |} dd]>
                           (THREAT_DETAILS st) |}
                   (dict_set kind s d)
                   (dict_set kind {| d_score := s; d_reason := reason |} dd))
        as (st' & d' & dd' & Hrun & H1 & H2 & H3 & H4);
        [ cbn [THREAT_SCORES]; apply lookup_insert_eq
        | cbn [THREAT_DETAILS]; apply lookup_insert_eq
        | now apply in_range_dict_set
        | exact Hready | ].
      exists st', d', dd'. split; [exact Hrun |]. repeat split; auto.
      pose proof (length_dict_set kind s d). cbn [length]. lia.
    + rewrite score_row_skip by exact Hf.
      destruct (IH st d dd Hts Htd Hr Hready) as (st' & d' & dd' & Hrun & H1 & H2 & H3 & H4).
      exists st', d', dd'. split; [exact Hrun |]. repeat split; auto. cbn [length]. lia.
Qed.

Lemma score_rows_KeyError url args results rows : forall st,
  THREAT_SCORES st !! url = None ->
  Forall (row_ready args results) rows ->
  Exists (fun row : string * string * string * string =>
            flag args (fst (fst (fst row))) = true) rows ->
  score_rows url args results rows st = (Raise KeyError, st).
Proof.
  induction rows as [| [[[f key] kind] reason] rows IH]; intros st Hts Hready Hex.
  - inversion Hex.
  - apply Forall_cons in Hready as [Hrow Hready]. rewrite score_rows_cons.
    destruct (flag args f) eqn:Hf.
    + destruct (Hrow Hf) as (payload & s & Hlook & Hs & Hsr). cbn [fst snd] in Hlook, Hs.
      now rewrite (score_row_KeyError _ _ _ _ _ _ _ _ payload s).
    + rewrite score_row_skip by exact Hf. apply IH; auto.
      apply Exists_cons in Hex as [Hex | Hex]; [cbn [fst] in Hex; congruence | exact Hex].
Qed.

(** [process_url_with_results] once the page is fetched and parsed. *)
Lemma run_after_fetch (E : env) url args st response sp :
  check_url E (normalize_url url) = Some response ->
  parse_html E response = inr sp ->
  process_url_with_results E url args st
  = match (results ← run_blocks E (normalize_url url) response sp args result_blocks ∅;
           extra_blocks E args results) with
    | Raise e => (Raise e, snd (init_session url st))
    | Ok results =>
        if wants_threat_score args then
          match score_rows (normalize_url url) args results scoring_rows
                  (snd (init_session url st)) with
          | (Ok _, st') =>
              match calculate_overall_threat_score (normalize_url url) st' with
              | Ok a =>
                  (Ok (<["threat_score" := threat_score_entry (fst a) (snd a)]> results),
                   st')
              | Raise e => (Raise e, st')
              end
          | (Raise e, st') => (Raise e, st')
          end
        else (Ok results, snd (init_session url st))
    end.
Proof.
  intros Hfetch Hparse.
  unfold process_url_with_results, mbind at 1 2 3 4 5, M_bind, mret, M_ret, lift, aggregate.
  cbn [init_session snd]. rewrite Hfetch, Hparse.
  destruct (run_blocks _ _ _ _ _ _ _) as [results0 | e]; [| reflexivity].
  rewrite bind_Ok.
  destruct (extra_blocks _ _ _) as [results | e]; [| reflexivity].
  destruct (wants_threat_score args); [| reflexivity].
  destruct (score_rows _ _ _ _ _) as [[[] | e] st']; [| reflexivity].
  destruct (calculate_overall_threat_score _ _); reflexivity.
Qed.

Lemma scoring_selected_wants args :
  scoring_selected args = true -> wants_threat_score args = true.
Proof.
  unfold scoring_selected, wants_threat_score. intros H.
  apply orb_true_iff. right.
  apply existsb_exists in H as ([[[f key] kind] reason] & Hin & Hf). cbn [fst] in Hf.
  apply existsb_exists. exists f. split; [| exact Hf].
  unfold scoring_rows in Hin. unfold threat_flags.
  repeat (destruct Hin as [Hin | Hin]; [inversion Hin; subst; simpl; tauto |]).
  destruct Hin.
Qed.

Lemma scoring_selected_Exists args :
  scoring_selected args = true ->
  Exists (fun row : string * string * string * string =>
            flag args (fst (fst (fst row))) = true) scoring_rows.
Proof.
  unfold scoring_selected. intros H. apply List.Exists_exists.
  apply existsb_exists in H as (row & Hin & Hf). exists row. split; assumption.
Qed.

Lemma normalize_url_fresh url :
  startswith url "http://" = false -> startswith url "https://" = false ->
  normalize_url url = "http://" +:+ url /\ normalize_url url <> url.
Proof.
  intros H1 H2. unfold normalize_url. rewrite H1, H2. cbn [orb negb].
  split; [reflexivity |]. intros Heq.
  apply (f_equal String.length) in Heq. cbv in Heq.
  change ((fix length (s : string) : nat :=
             match s with EmptyString => O | String _ s' => S (length s') end) url)
    with (String.length url) in Heq.
  lia.
Qed.

Lemma init_session_store url st :
  snd (init_session url st)
  = {| THREAT_SCORES := <[url := []]> (THREAT_SCORES st);
       THREAT_DETAILS := <[url := []]> (THREAT_DETAILS st) |}.
Proof. reflexivity. Qed.

(** A raw URL whose normalized form has no session: the run ends in the
    exception of the checks or, when they return, in [KeyError]. *)
Lemma raw_url_run (E : env) url args st response sp :
  normalize_url url <> url ->
  THREAT_SCORES st !! normalize_url url = None ->
  check_url E (normalize_url url) = Some response ->
  parse_html E response = inr sp ->
  scoring_selected args = true ->
  process_url_with_results E url args st
  = match (results ← run_blocks E (normalize_url url) response sp args result_blocks ∅;
           extra_blocks E args results) with
    | Raise e => (Raise e, snd (init_session url st))
    | Ok _ => (Raise KeyError, snd (init_session url st))
    end.
Proof.
  intros Hne Hfresh Hfetch Hparse Hsel.
  rewrite (run_after_fetch E url args st response sp Hfetch Hparse).
  rewrite (scoring_selected_wants args Hsel).
  destruct (run_blocks E (normalize_url url) response sp args result_blocks ∅)
    as [results0 | e] eqn:Hrun; [| reflexivity].
  rewrite !bind_Ok.
  destruct (extra_blocks E args results0) as [results | e] eqn:Hextra; [| reflexivity].
  rewrite (score_rows_KeyError (normalize_url url) args results scoring_rows
             (snd (init_session url st))); [reflexivity | | |].
  - cbn [init_session snd THREAT_SCORES].
    rewrite lookup_insert_ne by congruence. exact Hfresh.
  - exact (rows_ready E _ response sp args results0 results Hrun Hextra).
  - exact (scoring_selected_Exists args Hsel).
Qed.

(** Claim C10, as amended. A URL given without scheme opens its session
    under the raw text, is then normalized, and the first scoring write
    indexes the stores under the normalized URL. When the normalized
    URL has no session yet, the page is fetched and parsed and a
    scoring flag is selected, the run never returns: an exception of a
    selected check leaves the driver as it is, and when the selected
    checks and trailing blocks all return the first scoring write
    raises [KeyError]. Either way only the freshly opened raw session
    is added to the stores. *)
Theorem C10_raw_url_session_KeyError (E : env) (url : string) (args : Args)
    (st : store) (response : response) (sp : soup) :
  startswith url "http://" = false ->
  startswith url "https://" = false ->
  THREAT_SCORES st !! normalize_url url = None ->
  check_url E (normalize_url url) = Some response ->
  parse_html E response = inr sp ->
  scoring_selected args = true ->
  normalize_url url = "http://" +:+ url
  /\ (exists e,
        process_url_with_results E url args st
        = (Raise e,
           {| THREAT_SCORES := <[url := []]> (THREAT_SCORES st);
              THREAT_DETAILS := <[url := []]> (THREAT_DETAILS st) |}))
  /\ (forall e,
        (results ← run_blocks E (normalize_url url) response sp args result_blocks ∅;
         extra_blocks E args results) = Raise e ->
        process_url_with_results E url args st
        = (Raise e,
           {| THREAT_SCORES := <[url := []]> (THREAT_SCORES st);
              THREAT_DETAILS := <[url := []]> (THREAT_DETAILS st) |}))
  /\ (checks_return E (normalize_url url) response sp args = true ->
      process_url_with_results E url args st
      = (Raise KeyError,
         {| THREAT_SCORES := <[url := []]> (THREAT_SCORES st);
            THREAT_DETAILS := <[url := []]> (THREAT_DETAILS st) |})).
Proof.
  intros H1 H2 Hfresh Hfetch Hparse Hsel.
  destruct (normalize_url_fresh url H1 H2) as [Hnorm Hne].
  split; [exact Hnorm |].
  rewrite (raw_url_run E url args st response sp Hne Hfresh Hfetch Hparse Hsel).
  rewrite <- init_session_store.
  unfold checks_return.
  destruct (results ← run_blocks E (normalize_url url) response sp args result_blocks ∅;
            extra_blocks E args results) as [results | e].
  - split; [exists KeyError; reflexivity |].
    split; [intros e He; discriminate He | intros _; reflexivity].
  - split; [exists e; reflexivity |].
    split; [intros e' He'; injection He' as ->; reflexivity | intros Hret; discriminate Hret].
Qed.

Lemma C10_raw_url_session_KeyError_witness :
  process_url_with_results plain_env "example.com" (only "security") empty_store
  = (Raise KeyError,
     {| THREAT_SCORES := <["example.com" := []]> (THREAT_SCORES empty_store);
        THREAT_DETAILS := <["example.com" := []]> (THREAT_DETAILS empty_store) |}).
Proof.
  refine (proj2 (proj2 (proj2
            (C10_raw_url_session_KeyError plain_env "example.com" (only "security")
               empty_store plain_response plain_soup _ _ _ _ _ _))) _).
  all: vm_compute; reflexivity.
Defined.

(** Claim C10 as stated fails in two ways. The raw URL may never have
    been scanned while its normalized form has: the session opened by
    the scan of [http://example.com] receives the scoring writes of the
    later scan of [example.com], which returns an assessment. And a
    selected check that stores its result does not make the run reach
    the scoring writes: with [--security --vulns] on a page with a link
    [urlparse] rejects, [check_for_vulns] raises [ValueError], not
    [KeyError]. *)
Lemma C10_counterexample :
  let before :=
    snd (process_url_with_results plain_env "http://example.com" (only "security")
           empty_store) in
  let again := process_url_with_results plain_env "example.com" (only "security") before in
  startswith "example.com" "http://" = false
  /\ startswith "example.com" "https://" = false
  /\ THREAT_SCORES before !! "example.com" = None
  /\ scoring_selected (only "security") = true
  /\ (exists results,
        fst again = Ok results
        /\ results !! "security_info"
           = Some (check_https_security "http://example.com" plain_response)
        /\ exists details,
             results !! "threat_score" = Some (threat_score_entry 65 details))
  /\ scoring_selected (selecting ["security"; "vulns"]) = true
  /\ run_check bad_link_env "http://example.com" plain_response
       (match parse_html bad_link_env plain_response with
        | inr sp => sp
        | inl _ => plain_soup
        end) HttpsSecurity
     = Ok (check_https_security "http://example.com" plain_response)
  /\ fst (process_url_with_results bad_link_env "example.com"
            (selecting ["security"; "vulns"]) empty_store) = Raise ValueError.
Proof.
  intros before again.
  split; [reflexivity |]. split; [reflexivity |].
  split; [vm_compute; reflexivity |]. split; [reflexivity |].
  split.
  - destruct (fst again) as [results | e] eqn:Eagain.
    + exists results. split; [reflexivity |].
      assert (H : match fst again with Ok m => m !! "security_info" | Raise _ => None end
                 = Some (check_https_security "http://example.com" plain_response))
        by (vm_compute; reflexivity).
      rewrite Eagain in H. split; [exact H |].
      eexists.
      assert (H2 : match fst again with Ok m => m !! "threat_score" | Raise _ => None end
                   = Some (threat_score_entry 65
                             [("security",
                               {| d_score := 65;
                                  d_reason := "HTTPS and security header issues" |})]))
        by (vm_compute; reflexivity).
      rewrite Eagain in H2. exact H2.
    + assert (H : is_ok (fst again) = true) by (vm_compute; reflexivity).
      rewrite Eagain in H. discriminate.
  - split; [reflexivity |]. split; [reflexivity |]. vm_compute. reflexivity.
Qed.


Lemma overall_after_scoring url st' d' dd' :
  THREAT_SCORES st' !! url = Some d' ->
  THREAT_DETAILS st' !! url = Some dd' ->
  in_range d' -> (length d' <= 400)%nat ->
  exists score details,
    calculate_overall_threat_score url st' = Ok (score, details) /\ 0 <= score <= 100.
Proof.
  intros H1 H2 Hr Hlen. unfold calculate_overall_threat_score. rewrite H1, H2.
  destruct d' as [| item rest]; [exists 0, []; split; [reflexivity | lia] |].
  destruct (weighted_average_total (item :: rest)) as (z & Hz & Hzr);
    [discriminate | exact Hr | exact Hlen |].
  rewrite Hz, bind_Ok. exists z, dd'. split; [reflexivity | exact Hzr].
Qed.





(** * Further properties of the code *)

(** ** What the checks report and how the Scorer reads it *)

(** Property X1. The security score of a page scanned under the URL the
    drivers pass on (the normalized one, whose scheme is [https] exactly
    when it starts with [https://]): 30 without HTTPS, 10 each without
    HSTS and CSP, 5 each without the three X- headers. *)
Theorem security_score_of_page (url : string) (r : response) :
  normalize_url url = url ->
  let https := startswith url "https://" in
  let hsts := has_header r "Strict-Transport-Security" in
  let csp := has_header r "Content-Security-Policy" in
  let xcto := has_header r "X-Content-Type-Options" in
  let xfo := has_header r "X-Frame-Options" in
  let xxss := has_header r "X-XSS-Protection" in
  exists s,
    calculate_threat_score "security" (check_https_security url r) = Ok s
    /\ s = (if https then 0 else 30) + (if hsts then 0 else 10)
           + (if csp then 0 else 10) + (if xcto then 0 else 5)
           + (if xfo then 0 else 5) + (if xxss then 0 else 5)
    /\ 0 <= s <= 65
    /\ (s = 0 <-> https && hsts && csp && xcto && xfo && xxss = true).
Proof.
  intros _. unfold check_https_security.
  generalize (startswith url "https://") (has_header r "Strict-Transport-Security")
    (has_header r "Content-Security-Policy") (has_header r "X-Content-Type-Options")
    (has_header r "X-Frame-Options") (has_header r "X-XSS-Protection").
  intros b1 b2 b3 b4 b5 b6. cbv zeta.
  destruct b1, b2, b3, b4, b5, b6;
    (eexists; split; [vm_compute; reflexivity |]);
    (split; [reflexivity |]); (split; [vm_compute; split; discriminate |]);
    vm_compute; split; congruence.
Qed.

Lemma security_score_of_page_witness :
  normalize_url "http://example.com" = "http://example.com"
  /\ exists s,
       calculate_threat_score "security"
         (check_https_security "http://example.com" hardened_response) = Ok s
       /\ s = 30
       /\ 0 <= s <= 65.
Proof.
  split; [reflexivity |].
  destruct (security_score_of_page "http://example.com" hardened_response eq_refl)
    as (s & Hs & Hv & Hr & _).
  exists s. split; [exact Hs |]. split; [| exact Hr].
  rewrite Hv. vm_compute. reflexivity.
Defined.

(** Property X2. The clickjacking score of a page is 0 when the response
    carries an [X-Frame-Options] header, whatever its value, or a CSP header
    with a [frame-ancestors] directive, and 25 otherwise. *)
Theorem clickjacking_score_of_page (r : response) :
  calculate_threat_score "clickjacking" (check_for_clickjacking r)
  = Ok (if has_header r "X-Frame-Options"
           || (has_header r "Content-Security-Policy"
               && bool_decide (is_Some (frame_ancestors r)))
        then 0 else 25).
Proof.
  unfold check_for_clickjacking, has_header.
  destruct (headers r !! "X-Frame-Options") as [xfo |],
    (headers r !! "Content-Security-Policy") as [csp |],
    (frame_ancestors r) as [fa |]; reflexivity.
Qed.

(** Property X3. The mixed-content score of a page is 40 when the page is
    served over HTTPS and embeds at least one [http://] resource, and 0
    otherwise; a page served over HTTP always scores 0. *)
Theorem mixed_content_score_of_page (found : list (string * string)) (url : string) :
  calculate_threat_score "mixed_content" (check_mixed_content found url)
  = Ok (if startswith url "https://" && negb (bool_decide (found = [])) then 40 else 0).
Proof.
  unfold check_mixed_content.
  destruct (startswith url "https://"); [| reflexivity].
  destruct found; reflexivity.
Qed.

Lemma iframe_fold (iframes : list iframe) : forall acc,
  length (ia_insecure (fold_left iframe_step iframes acc))
  = (length (ia_insecure acc) + length (List.filter iframe_listed iframes))%nat
  /\ length (ia_iframes (fold_left iframe_step iframes acc))
     = (length (ia_iframes acc) + length iframes)%nat
  /\ ia_sandboxed (fold_left iframe_step iframes acc)
     = ia_sandboxed acc + Z.of_nat (length (List.filter i_has_sandbox iframes)).
Proof.
  induction iframes as [| f rest IH]; intros acc.
  - cbn [fold_left List.filter length]. repeat split; lia.
  - cbn [fold_left]. destruct (IH (iframe_step acc f)) as (H1 & H2 & H3).
    rewrite H1, H2, H3. unfold iframe_step. cbn [ia_insecure ia_iframes ia_sandboxed].
    cbn [List.filter]. unfold iframe_listed at 2.
    destruct (i_has_sandbox f); cbn [negb orb];
      [destruct (startswith (i_src f) "https://"); cbn [negb] |];
      rewrite ?length_app; cbn [length]; repeat split; lia.
Qed.

(** Property X4. The iframe score is 15 points for every iframe that lacks
    the [sandbox] attribute or whose [src] does not start with [https://] (a
    sandboxed iframe with a relative or empty [src] included), capped at
    100. *)
Theorem iframe_score_of_page (iframes : list iframe) :
  calculate_threat_score "iframe_security" (check_iframe_security iframes)
  = Ok (Z.min (15 * Z.of_nat (length (List.filter iframe_listed iframes))) 100).
Proof.
  unfold check_iframe_security.
  destruct (iframe_fold iframes {| ia_iframes := []; ia_sandboxed := 0; ia_insecure := [] |})
    as (H1 & _ & _).
  cbn [ia_insecure length Nat.add] in H1.
  set (acc := fold_left iframe_step iframes _) in *.
  unfold calculate_threat_score. cbn -[Z.mul Z.min Z.of_nat]. rewrite H1. f_equal. lia.
Qed.

Lemma dict_set_fresh {A} (d : list (string * A)) k v :
  dict_get d k = None -> dict_set k v d = (d ++ [(k, v)])%list.
Proof.
  induction d as [| [k0 v0] d IH]; simpl; [reflexivity |].
  destruct (String.eqb k0 k); [discriminate |]. intros H. now rewrite IH.
Qed.

Lemma sec_fold (r : response) (hs : list (string * string)) : forall acc,
  NoDup (map fst hs) ->
  (forall h, In h (map fst hs) -> dict_get (sa_present acc) h = None) ->
  let acc' := fold_left (sec_step r) hs acc in
  let found := List.filter (fun h => has_header r (fst h)) hs in
  sa_score acc' = sa_score acc + Z.of_nat (length found)
  /\ length (sa_present acc') = (length (sa_present acc) + length found)%nat
  /\ (length (sa_missing acc') + length found
      = length (sa_missing acc) + length hs)%nat.
Proof.
  induction hs as [| [h descr] hs IH]; intros acc Hnd Hfresh.
  - cbn. repeat split; lia.
  - cbn [map fst] in Hnd, Hfresh. apply NoDup_cons in Hnd as [Hnotin Hnd].
    cbn [fold_left List.filter fst]. cbv zeta.
    assert (Hh : dict_get (sa_present acc) h = None) by (apply Hfresh; now left).
    destruct (headers r !! h) as [v |] eqn:Hv.
    + assert (Hhas : has_header r h = true)
        by (unfold has_header; rewrite Hv; apply bool_decide_eq_true_2; eauto).
      assert (Hstep : sec_step r acc (h, descr)
                      = {| sa_missing := sa_missing acc;
                           sa_present :=
                             dict_set h
                               (PDict [("value", PStr v); ("description", PStr descr)])
                               (sa_present acc);
                           sa_score := sa_score acc + 1 |})
        by (unfold sec_step; now rewrite Hv).
      rewrite Hhas, Hstep.
      destruct (IH {| sa_missing := sa_missing acc;
                      sa_present :=
                        dict_set h (PDict [("value", PStr v); ("description", PStr descr)])
                          (sa_present acc);
                      sa_score := sa_score acc + 1 |} Hnd) as (H1 & H2 & H3).
      { intros h' Hin. cbn [sa_present]. rewrite dict_get_set_ne.
        - apply Hfresh. now right.
        - intros ->. apply Hnotin. apply list_elem_of_In. exact Hin. }
      cbn [sa_missing sa_present sa_score] in H1, H2, H3.
      rewrite (dict_set_fresh _ _ _ Hh) in *. rewrite length_app in H2.
      rewrite H1, H2. cbn [length]. repeat split; lia.
    + assert (Hhas : has_header r h = false)
        by (unfold has_header; rewrite Hv; apply bool_decide_eq_false_2;
            intros [x Hx]; discriminate).
      assert (Hstep : sec_step r acc (h, descr)
                      = {| sa_missing :=
                             (sa_missing acc ++
                              [PDict [("header", PStr h); ("description", PStr descr)]])%list;
                           sa_present := sa_present acc;
                           sa_score := sa_score acc |})
        by (unfold sec_step; now rewrite Hv).
      rewrite Hhas, Hstep.
      destruct (IH {| sa_missing :=
                        (sa_missing acc ++
                         [PDict [("header", PStr h); ("description", PStr descr)]])%list;
                      sa_present := sa_present acc;
                      sa_score := sa_score acc |} Hnd) as (H1 & H2 & H3).
      { intros h' Hin. cbn [sa_present]. apply Hfresh. now right. }
      cbn [sa_missing sa_present sa_score] in H1, H2, H3.
      rewrite length_app in H3. cbn [length] in H3.
      rewrite H1, H2. cbn [length]. repeat split; lia.
Qed.

(** Property X5. [check_security_headers] accounts for each of its ten
    headers exactly once: the score is the number of the ten that the
    response carries, [present] has that many entries, and score and the
    length of [missing] add up to [max_score] = 10. *)
Theorem security_headers_account (r : response) :
  exists missing present score,
    check_security_headers r
    = PDict [ ("missing", PList missing); ("present", PDict present);
              ("score", PInt score); ("max_score", PInt 10) ]
    /\ score = Z.of_nat (length (List.filter (fun h => has_header r (fst h))
                                   important_headers))
    /\ Z.of_nat (length present) = score
    /\ score + Z.of_nat (length missing) = 10.
Proof.
  unfold check_security_headers.
  destruct (sec_fold r important_headers
              {| sa_missing := []; sa_present := []; sa_score := 0 |})
    as (H1 & H2 & H3).
  - apply (bool_decide_unpack _). vm_compute. exact I.
  - reflexivity.
  - cbn [sa_missing sa_present sa_score length] in H1, H2, H3.
    set (acc := fold_left (sec_step r) important_headers _) in *.
    exists (sa_missing acc), (sa_present acc), (sa_score acc).
    split; [reflexivity |]. split; [lia |]. split; [lia |].
    change (length important_headers) with 10%nat in H3. lia.
Qed.





Lemma length_append (a b : string) :
  String.length (a +:+ b) = (String.length a + String.length b)%nat.
Proof.
  induction a as [| c a IH]; [reflexivity |].
  change (String c a +:+ b) with (String c (a +:+ b)). cbn [String.length]. now rewrite IH.
Qed.

Lemma length_substring_0 (n : nat) : forall s : string,
  (n <= String.length s)%nat -> String.length (String.substring 0 n s) = n.
Proof.
  induction n as [| n IH]; intros [| c s] H; cbn in *; try reflexivity; try lia.
  rewrite IH; [reflexivity | lia].
Qed.

(** Property X8. [check_for_leaks] bounds its report: at most ten e-mail
    addresses and ten IP addresses, and every comment it quotes is longer
    than five characters and at most 153 characters long (150 of the comment
    and the ellipsis). *)
Theorem leaks_report_bounded (o : leaks_obs) (r : response) :
  exists comments emails ips,
    check_for_leaks o r
    = PDict [ ("html_comments", PList (map PStr comments));
              ("server_info", opt_str (headers r !! "Server"));
              ("email_addresses", PList (map PStr emails));
              ("ip_addresses", PList (map PStr ips));
              ("potential_credentials", PBool (lo_credentials o)) ]
    /\ (length emails <= 10)%nat /\ (length ips <= 10)%nat
    /\ Forall (fun c => (5 < String.length c <= 153)%nat) comments.
Proof.
  unfold check_for_leaks.
  exists (map clip_comment
            (filter (fun c => negb (String.eqb c "") && (5 <? String.length c)%nat)
               (lo_comments o))),
    (firstn 10 (lo_emails o)), (firstn 10 (lo_ips o)).
  split; [now rewrite map_map |].
  split; [apply firstn_le_length |]. split; [apply firstn_le_length |].
  apply List.Forall_forall. intros c Hin.
  apply in_map_iff in Hin as (c0 & <- & Hin).
  apply list_elem_of_In, list_elem_of_filter in Hin as [Hp _].
  apply Is_true_true, andb_true_iff in Hp as [_ Hlen]. apply Nat.ltb_lt in Hlen.
  unfold clip_comment. destruct (150 <? String.length c0)%nat eqn:Hbig.
  - apply Nat.ltb_lt in Hbig. rewrite length_append, length_substring_0 by lia.
    cbn. lia.
  - apply Nat.ltb_ge in Hbig. lia.
Qed.

Lemma prefix_append (p s : string) : String.prefix p (p +:+ s) = true.
Proof.
  induction p as [| c p IH]; [now destruct s |].
  change (String c p +:+ s) with (String c (p +:+ s)). cbn [String.prefix].
  destruct (ascii_dec c c); [exact IH | congruence].
Qed.

(** Property X9. [normalize_url] always yields a URL that starts with
    [http://] or [https://], leaves such a URL unchanged, and is idempotent. *)
Theorem normalize_url_idempotent (url : string) :
  (startswith (normalize_url url) "http://" || startswith (normalize_url url) "https://"
   = true)
  /\ (startswith url "http://" || startswith url "https://" = true ->
      normalize_url url = url)
  /\ normalize_url (normalize_url url) = normalize_url url.
Proof.
  assert (H1 : startswith (normalize_url url) "http://"
               || startswith (normalize_url url) "https://" = true).
  { unfold normalize_url.
    destruct (startswith url "http://" || startswith url "https://") eqn:E;
      cbn [negb]; [exact E |].
    unfold startswith. now rewrite prefix_append. }
  assert (H2 : forall u, startswith u "http://" || startswith u "https://" = true ->
                         normalize_url u = u).
  { intros u Hu. unfold normalize_url. now rewrite Hu. }
  split; [exact H1 |]. split; [apply H2 |]. apply H2, H1.
Qed.

(** ** Sessions and drivers *)

Lemma score_rows_writes url args results rows : forall st d dd,
  THREAT_SCORES st !! url = Some d ->
  THREAT_DETAILS st !! url = Some dd ->
  Forall (row_ready args results) rows ->
  exists st',
    score_rows url args results rows st = (Ok tt, st')
    /\ THREAT_SCORES st' !! url
       = Some (write_scores (flat_map (contribution args results) rows) d)
    /\ THREAT_DETAILS st' !! url
       = Some (write_details (flat_map (contribution args results) rows) dd).
Proof.
  induction rows as [| [[[f key] kind] reason] rows IH]; intros st d dd Hts Htd Hready.
  - exists st. repeat split; assumption.
  - apply Forall_cons in Hready as [Hrow Hready]. rewrite score_rows_cons.
    cbn [flat_map]. unfold contribution at 1 3. cbn [row_flag row_key row_kind row_reason fst snd].
    destruct (flag args f) eqn:Hf.
    + destruct (Hrow Hf) as (payload & s & Hlook & Hs & Hsr). cbn [fst snd] in Hlook, Hs.
      rewrite (score_row_ok _ _ _ _ _ _ _ _ payload s d dd) by assumption.
      rewrite Hlook, Hs. cbn [app]. unfold write_scores, write_details.
      cbn [fold_left fst snd d_score].
      apply IH; [apply lookup_insert_eq | apply lookup_insert_eq | exact Hready].
    + rewrite score_row_skip by exact Hf. cbn [app]. now apply IH.
Qed.

Lemma dict_get_app_None {A} (d1 d2 : list (string * A)) k :
  dict_get d1 k = None -> dict_get (d1 ++ d2)%list k = dict_get d2 k.
Proof.
  induction d1 as [| [k0 v0] d1 IH]; simpl; [reflexivity |].
  destruct (String.eqb k0 k); [discriminate | exact IH].
Qed.

Lemma dict_get_fresh_key {A} (d : list (string * A)) k :
  ~ In k (map fst d) -> dict_get d k = None.
Proof.
  induction d as [| [k0 v0] d IH]; simpl; [reflexivity |].
  intros H. destruct (String.eqb k0 k) eqn:E.
  - apply String.eqb_eq in E. tauto.
  - apply IH. tauto.
Qed.

Lemma write_details_fresh (cs : list (string * detail)) : forall dd,
  List.NoDup (map fst cs) ->
  (forall k, In k (map fst cs) -> dict_get dd k = None) ->
  write_details cs dd = (dd ++ cs)%list.
Proof.
  induction cs as [| [k v] cs IH]; intros dd Hnd Hfresh.
  - cbn. now rewrite app_nil_r.
  - cbn [map fst] in Hnd, Hfresh. inversion Hnd as [| ? ? Hnotin Hnd']; subst.
    unfold write_details. cbn [fold_left fst snd].
    rewrite dict_set_fresh by (apply Hfresh; now left).
    fold (write_details cs (dd ++ [(k, v)])%list).
    rewrite IH; [now rewrite <- app_assoc | exact Hnd' |].
    intros k' Hin. rewrite dict_get_app_None by (apply Hfresh; now right).
    cbn. destruct (String.eqb k k') eqn:E; [| reflexivity].
    apply String.eqb_eq in E. subst k'. contradiction.
Qed.

Lemma write_scores_fresh (cs : list (string * detail)) : forall d,
  List.NoDup (map fst cs) ->
  (forall k, In k (map fst cs) -> dict_get d k = None) ->
  write_scores cs d = (d ++ map (fun c => (fst c, d_score (snd c))) cs)%list.
Proof.
  induction cs as [| [k v] cs IH]; intros d Hnd Hfresh.
  - cbn. now rewrite app_nil_r.
  - cbn [map fst] in Hnd, Hfresh. inversion Hnd as [| ? ? Hnotin Hnd']; subst.
    unfold write_scores. cbn [fold_left fst snd map].
    rewrite dict_set_fresh by (apply Hfresh; now left).
    fold (write_scores cs (d ++ [(k, d_score v)])%list).
    rewrite IH; [now rewrite <- app_assoc | exact Hnd' |].
    intros k' Hin. rewrite dict_get_app_None by (apply Hfresh; now right).
    cbn. destruct (String.eqb k k') eqn:E; [| reflexivity].
    apply String.eqb_eq in E. subst k'. contradiction.
Qed.

Lemma write_scores_keeps (cs : list (string * detail)) : forall d k v,
  dict_get d k = Some v -> ~ In k (map fst cs) ->
  dict_get (write_scores cs d) k = Some v.
Proof.
  induction cs as [| [k0 v0] cs IH]; intros d k v Hget Hnotin; [exact Hget |].
  unfold write_scores. cbn [fold_left fst snd].
  fold (write_scores cs (dict_set k0 (d_score v0) d)).
  cbn [map fst] in Hnotin. apply IH; [| intros Hin; apply Hnotin; now right].
  rewrite dict_get_set_ne; [exact Hget | intros ->; apply Hnotin; now left].
Qed.

Lemma contribution_keys args results rows :
  Forall (row_ready args results) rows ->
  map fst (flat_map (contribution args results) rows)
  = map row_kind (List.filter (fun row => flag args (row_flag row)) rows).
Proof.
  induction 1 as [| [[[f key] kind] reason] rows Hrow _ IH]; [reflexivity |].
  cbn [flat_map List.filter]. rewrite map_app, IH. unfold contribution.
  cbn [row_flag row_key row_kind row_reason fst snd].
  destruct (flag args f) eqn:Hf; [| reflexivity].
  destruct (Hrow Hf) as (payload & s & Hlook & Hs & _). cbn [fst snd] in Hlook, Hs.
  now rewrite Hlook, Hs.
Qed.

Lemma NoDup_map_filter {A B} (g : A -> B) (p : A -> bool) (l : list A) :
  List.NoDup (map g l) -> List.NoDup (map g (List.filter p l)).
Proof.
  induction l as [| a l IH]; cbn; [auto |].
  intros Hnd. inversion Hnd as [| ? ? Hnotin Hnd']; subst.
  destruct (p a); [| auto]. cbn. constructor; [| auto].
  intros Hin. apply Hnotin. apply in_map_iff in Hin as (x & <- & Hx).
  apply in_map. apply filter_In in Hx. tauto.
Qed.

Lemma scoring_kinds_NoDup : List.NoDup (map row_kind scoring_rows).
Proof.
  apply NoDup_ListNoDup. apply (bool_decide_unpack _). vm_compute. exact I.
Qed.

Lemma contribution_ignores_entry args results v :
  flat_map (contribution args (<["threat_score" := v]> results)) scoring_rows
  = flat_map (contribution args results) scoring_rows.
Proof.
  assert (H : Forall (fun row => row_key row <> "threat_score") scoring_rows)
    by (apply (bool_decide_unpack _); vm_compute; exact I).
  induction H as [| row rows Hrow _ IH]; [reflexivity |].
  cbn [flat_map]. rewrite IH. f_equal. unfold contribution.
  rewrite lookup_insert_ne by congruence. reflexivity.
Qed.

(** Property X10. A scan of a URL given with its scheme records exactly one
    contribution for every selected scoring flag, in the order of the
    scoring rows, and nothing else: the session holds the Scorer's result on
    the payload the check stored, with the row's reason. *)
Theorem session_holds_selected_rows (E : env) (url : string) (args : Args)
    (st : store) (response : response) (sp : soup) :
  normalize_url url = url ->
  check_url E url = Some response ->
  parse_html E response = inr sp ->
  checks_return E url response sp args = true ->
  wants_threat_score args = true ->
  exists results st',
    process_url_with_results E url args st = (Ok results, st')
    /\ let cs := flat_map (contribution args results) scoring_rows in
       THREAT_DETAILS st' !! url = Some cs
       /\ THREAT_SCORES st' !! url = Some (map (fun c => (fst c, d_score (snd c))) cs)
       /\ map fst cs
          = map row_kind (List.filter (fun row => flag args (row_flag row)) scoring_rows).
Proof.
  intros Hnorm Hfetch Hparse Hret Hwants.
  pose proof (run_after_fetch E url args st response sp) as Hstep.
  rewrite Hnorm in Hstep. specialize (Hstep Hfetch Hparse).
  destruct (checks_return_results E url response sp args Hret)
    as (results0 & results & Hrun & Hextra).
  rewrite Hrun, bind_Ok, Hextra, Hwants in Hstep.
  pose proof (rows_ready E url response sp args results0 results Hrun Hextra) as Hready.
  destruct (score_rows_writes url args results scoring_rows (snd (init_session url st)) [] [])
    as (st' & Hscore & H1 & H2);
    [cbn [init_session snd THREAT_SCORES]; apply lookup_insert_eq
    | cbn [init_session snd THREAT_DETAILS]; apply lookup_insert_eq
    | exact Hready |].
  pose proof (contribution_keys args results scoring_rows Hready) as Hkeys.
  assert (Hnd : List.NoDup (map fst (flat_map (contribution args results) scoring_rows))).
  { rewrite Hkeys. apply NoDup_map_filter, scoring_kinds_NoDup. }
  rewrite write_scores_fresh in H1 by (auto; reflexivity).
  rewrite write_details_fresh in H2 by (auto; reflexivity).
  cbn [app] in H1, H2.
  destruct (score_rows_ok url args results scoring_rows (snd (init_session url st)) [] [])
    as (st2 & d' & dd' & Hscore2 & G1 & G2 & Hr & Hlen);
    [cbn [init_session snd THREAT_SCORES]; apply lookup_insert_eq
    | cbn [init_session snd THREAT_DETAILS]; apply lookup_insert_eq
    | constructor | exact Hready |].
  rewrite Hscore in Hscore2. inversion Hscore2; subst st2.
  destruct (overall_after_scoring url st' d' dd' G1 G2 Hr) as (score & details & Hov & _).
  { unfold scoring_rows in Hlen. cbn [length] in Hlen. lia. }
  rewrite Hscore, Hov in Hstep.
  eexists _, st'. split; [exact Hstep |]. cbv zeta.
  rewrite contribution_ignores_entry. repeat split; assumption.
Qed.

Lemma score_row_frame url args results row st u :
  u <> url ->
  THREAT_SCORES (snd (score_row url args results row st)) !! u = THREAT_SCORES st !! u
  /\ THREAT_DETAILS (snd (score_row url args results row st)) !! u
     = THREAT_DETAILS st !! u.
Proof.
  intros Hu. destruct row as [[[f key] kind] reason]. unfold score_row.
  destruct (flag args f); [| split; reflexivity].
  destruct (results !! key) as [payload |]; [| split; reflexivity].
  unfold mbind, M_bind, lift.
  destruct (calculate_threat_score kind payload) as [s | e]; [| split; reflexivity].
  unfold set_score.
  destruct (THREAT_SCORES st !! url) as [d |]; [| split; reflexivity].
  unfold set_detail. cbn [THREAT_DETAILS THREAT_SCORES].
  destruct (THREAT_DETAILS st !! url) as [dd |]; cbn [snd THREAT_SCORES THREAT_DETAILS];
    rewrite ?lookup_insert_ne by congruence; split; reflexivity.
Qed.

Lemma score_rows_frame url args results rows u : forall st,
  u <> url ->
  THREAT_SCORES (snd (score_rows url args results rows st)) !! u = THREAT_SCORES st !! u
  /\ THREAT_DETAILS (snd (score_rows url args results rows st)) !! u
     = THREAT_DETAILS st !! u.
Proof.
  induction rows as [| row rows IH]; intros st Hu; [split; reflexivity |].
  rewrite score_rows_cons.
  destruct (score_row_frame url args results row st u Hu) as [H1 H2].
  destruct (score_row url args results row st) as [[[] | e] st1]; cbn [snd] in H1, H2.
  - destruct (IH st1 Hu) as [G1 G2]. rewrite G1, G2. split; assumption.
  - split; assumption.
Qed.

Lemma run_store (E : env) url args st :
  snd (process_url_with_results E url args st) = snd (init_session url st)
  \/ exists results,
       snd (process_url_with_results E url args st)
       = snd (score_rows (normalize_url url) args results scoring_rows
                (snd (init_session url st))).
Proof.
  destruct (check_url E (normalize_url url)) as [response |] eqn:Hfetch.
  - destruct (parse_html E response) as [msg | sp] eqn:Hparse.
    + left. unfold process_url_with_results, mbind, M_bind, mret, M_ret.
      cbn [init_session]. now rewrite Hfetch, Hparse.
    + rewrite (run_after_fetch E url args st response sp Hfetch Hparse).
      destruct (run_blocks _ _ _ _ _ _ _) as [results0 | e]; [| left; reflexivity].
      rewrite bind_Ok.
      destruct (extra_blocks _ _ _) as [results | e]; [| left; reflexivity].
      destruct (wants_threat_score args); [| left; reflexivity].
      right. exists results.
      destruct (score_rows _ _ _ _ _) as [[[] | e] st']; [| reflexivity].
      destruct (calculate_overall_threat_score _ _); reflexivity.
  - left. unfold process_url_with_results, mbind, M_bind, mret, M_ret.
    cbn [init_session]. now rewrite Hfetch.
Qed.

(** Property X11. A scan touches no session but those of the URL as given
    and of its normalized form: the scores and details recorded for any
    other URL are the same after [process_url_with_results] as before,
    however the scan ends. *)
Theorem scan_leaves_other_sessions (E : env) (url : string) (args : Args)
    (st : store) (u : string) :
  u <> url -> u <> normalize_url url ->
  THREAT_SCORES (snd (process_url_with_results E url args st)) !! u
  = THREAT_SCORES st !! u
  /\ THREAT_DETAILS (snd (process_url_with_results E url args st)) !! u
     = THREAT_DETAILS st !! u.
Proof.
  intros Hu Hn.
  assert (Hinit : THREAT_SCORES (snd (init_session url st)) !! u = THREAT_SCORES st !! u
                  /\ THREAT_DETAILS (snd (init_session url st)) !! u
                     = THREAT_DETAILS st !! u).
  { cbn [init_session snd THREAT_SCORES THREAT_DETAILS].
    rewrite !lookup_insert_ne by congruence. split; reflexivity. }
  destruct (run_store E url args st) as [-> | [results ->]]; [exact Hinit |].
  destruct (score_rows_frame (normalize_url url) args results scoring_rows u
              (snd (init_session url st)) Hn) as [-> ->].
  exact Hinit.
Qed.

Lemma scan_leaves_other_sessions_witness :
  THREAT_SCORES
    (snd (process_url_with_results plain_env "https://example.com" (only "security")
            (session "https://other.org" [("ssl", 40)] []))) !! "https://other.org"
  = Some [("ssl", 40)].
Proof.
  rewrite (proj1 (scan_leaves_other_sessions plain_env "https://example.com"
                    (only "security") (session "https://other.org" [("ssl", 40)] [])
                    "https://other.org" ltac:(discriminate) ltac:(discriminate))).
  apply session_lookup.
Defined.

Ltac same_sessions := cbn [fst snd]; repeat split; first [reflexivity | congruence].

Lemma score_row_local url args results row st1 st2 :
  THREAT_SCORES st1 !! url = THREAT_SCORES st2 !! url ->
  THREAT_DETAILS st1 !! url = THREAT_DETAILS st2 !! url ->
  fst (score_row url args results row st1) = fst (score_row url args results row st2)
  /\ THREAT_SCORES (snd (score_row url args results row st1)) !! url
     = THREAT_SCORES (snd (score_row url args results row st2)) !! url
  /\ THREAT_DETAILS (snd (score_row url args results row st1)) !! url
     = THREAT_DETAILS (snd (score_row url args results row st2)) !! url.
Proof.
  intros Hs Hd. destruct row as [[[f key] kind] reason].
  unfold score_row, mbind, M_bind, lift, mret, M_ret.
  destruct (flag args f); [| same_sessions].
  destruct (results !! key) as [payload |]; [| same_sessions].
  destruct (calculate_threat_score kind payload) as [s | e]; [| same_sessions].
  unfold set_score. rewrite <- Hs.
  destruct (THREAT_SCORES st1 !! url) as [d |] eqn:E1; [| same_sessions].
  unfold set_detail. cbn [THREAT_DETAILS THREAT_SCORES]. rewrite <- Hd.
  destruct (THREAT_DETAILS st1 !! url) as [dd |] eqn:E2; cbn [fst snd THREAT_SCORES THREAT_DETAILS].
  - rewrite !lookup_insert_eq. repeat split; reflexivity.
  - rewrite !lookup_insert_eq. repeat split; first [reflexivity | congruence].
Qed.

Lemma score_rows_local url args results rows : forall st1 st2,
  THREAT_SCORES st1 !! url = THREAT_SCORES st2 !! url ->
  THREAT_DETAILS st1 !! url = THREAT_DETAILS st2 !! url ->
  fst (score_rows url args results rows st1) = fst (score_rows url args results rows st2)
  /\ THREAT_SCORES (snd (score_rows url args results rows st1)) !! url
     = THREAT_SCORES (snd (score_rows url args results rows st2)) !! url
  /\ THREAT_DETAILS (snd (score_rows url args results rows st1)) !! url
     = THREAT_DETAILS (snd (score_rows url args results rows st2)) !! url.
Proof.
  induction rows as [| row rows IH]; intros st1 st2 Hs Hd; [repeat split; assumption |].
  rewrite !score_rows_cons.
  destruct (score_row_local url args results row st1 st2 Hs Hd) as (H0 & H1 & H2).
  destruct (score_row url args results row st1) as [[[] | e1] st1'],
    (score_row url args results row st2) as [[[] | e2] st2'];
    cbn [fst snd] in H0, H1, H2; try discriminate.
  - apply IH; assumption.
  - repeat split; assumption.
Qed.

Lemma overall_local url st1 st2 :
  THREAT_SCORES st1 !! url = THREAT_SCORES st2 !! url ->
  THREAT_DETAILS st1 !! url = THREAT_DETAILS st2 !! url ->
  calculate_overall_threat_score url st1 = calculate_overall_threat_score url st2.
Proof. intros Hs Hd. unfold calculate_overall_threat_score. now rewrite Hs, Hd. Qed.

(** Property X12. A scan of a URL given with its scheme starts from a fresh
    session: what [process_url_with_results] returns, and the session it
    leaves for the URL, do not depend on the stores it is started with, that
    is, on any earlier scan. *)
Theorem scan_independent_of_history (E : env) (url : string) (args : Args)
    (st1 st2 : store) :
  normalize_url url = url ->
  fst (process_url_with_results E url args st1)
  = fst (process_url_with_results E url args st2)
  /\ THREAT_SCORES (snd (process_url_with_results E url args st1)) !! url
     = THREAT_SCORES (snd (process_url_with_results E url args st2)) !! url
  /\ THREAT_DETAILS (snd (process_url_with_results E url args st1)) !! url
     = THREAT_DETAILS (snd (process_url_with_results E url args st2)) !! url.
Proof.
  intros Hnorm.
  assert (Hs : THREAT_SCORES (snd (init_session url st1)) !! url
               = THREAT_SCORES (snd (init_session url st2)) !! url)
    by (cbn [init_session snd THREAT_SCORES]; now rewrite !lookup_insert_eq).
  assert (Hd : THREAT_DETAILS (snd (init_session url st1)) !! url
               = THREAT_DETAILS (snd (init_session url st2)) !! url)
    by (cbn [init_session snd THREAT_DETAILS]; now rewrite !lookup_insert_eq).
  destruct (check_url E (normalize_url url)) as [response |] eqn:Hfetch.
  - destruct (parse_html E response) as [msg | sp] eqn:Hparse.
    + unfold process_url_with_results, mbind, M_bind, mret, M_ret.
      cbn [init_session]. rewrite Hfetch, Hparse. cbn [fst snd].
      repeat split; [exact Hs | exact Hd].
    + rewrite !(run_after_fetch E url _ _ response sp Hfetch Hparse). rewrite Hnorm.
      destruct (run_blocks _ _ _ _ _ _ _) as [results0 | e];
        [| repeat split; [exact Hs | exact Hd]].
      rewrite bind_Ok.
      destruct (extra_blocks _ _ _) as [results | e];
        [| repeat split; [exact Hs | exact Hd]].
      destruct (wants_threat_score args); [| repeat split; [exact Hs | exact Hd]].
      destruct (score_rows_local url args results scoring_rows _ _ Hs Hd) as (H0 & H1 & H2).
      destruct (score_rows url args results scoring_rows (snd (init_session url st1)))
        as [[[] | e1] st1'],
        (score_rows url args results scoring_rows (snd (init_session url st2)))
        as [[[] | e2] st2'];
        cbn [fst snd] in H0, H1, H2; try discriminate.
      * rewrite (overall_local url st1' st2' H1 H2).
        destruct (calculate_overall_threat_score url st2');
          cbn [fst snd]; repeat split; first [assumption | congruence].
      * cbn [fst snd]. repeat split; first [assumption | congruence].
  - unfold process_url_with_results, mbind, M_bind, mret, M_ret.
    cbn [init_session]. rewrite Hfetch. cbn [fst snd].
    repeat split; [exact Hs | exact Hd].
Qed.

Lemma scan_independent_of_history_witness :
  fst (process_url_with_results plain_env "https://example.com" (only "security")
         (session "https://example.com" [("ssl", 40)] []))
  = fst (process_url_with_results plain_env "https://example.com" (only "security")
           empty_store).
Proof.
  apply (scan_independent_of_history plain_env "https://example.com" (only "security")).
  reflexivity.
Defined.

Lemma contribution_key_selected args results rows k :
  In k (map fst (flat_map (contribution args results) rows)) ->
  exists row, In row rows /\ row_kind row = k /\ flag args (row_flag row) = true.
Proof.
  intros Hin. apply in_map_iff in Hin as ([k' c] & <- & Hin).
  apply in_flat_map in Hin as (row & Hrow & Hc).
  exists row. split; [exact Hrow |]. unfold contribution in Hc.
  destruct (flag args (row_flag row)); [| destruct Hc].
  destruct (results !! row_key row) as [payload |]; [| destruct Hc].
  destruct (calculate_threat_score (row_kind row) payload) as [s |]; [| destruct Hc].
  destruct Hc as [Hc | []]. inversion Hc; subst. split; reflexivity.
Qed.

(** Property X13. The other side of the raw-URL session: when a URL is given
    without scheme and its normalized form already has a session from an
    earlier scan, the scoring writes land in that old session. The run
    returns an assessment, the session opened under the raw URL stays empty,
    and every contribution of the earlier scan whose flag is not selected
    now is still in the session that is aggregated. *)
Theorem raw_url_reuses_old_session (E : env) (url : string) (args : Args)
    (st : store) (response : response) (sp : soup)
    (d : list (string * Z)) (dd : list (string * detail)) :
  startswith url "http://" = false ->
  startswith url "https://" = false ->
  THREAT_SCORES st !! normalize_url url = Some d ->
  THREAT_DETAILS st !! normalize_url url = Some dd ->
  in_range d -> (length d <= 300)%nat ->
  check_url E (normalize_url url) = Some response ->
  parse_html E response = inr sp ->
  checks_return E (normalize_url url) response sp args = true ->
  wants_threat_score args = true ->
  exists results score details st' d',
    process_url_with_results E url args st = (Ok results, st')
    /\ results !! "threat_score" = Some (threat_score_entry score details)
    /\ calculate_overall_threat_score (normalize_url url) st' = Ok (score, details)
    /\ THREAT_SCORES st' !! url = Some []
    /\ THREAT_SCORES st' !! normalize_url url = Some d'
    /\ forall k v,
         dict_get d k = Some v ->
         (forall row, In row scoring_rows -> row_kind row = k ->
                      flag args (row_flag row) = false) ->
         dict_get d' k = Some v.
Proof.
  intros H1 H2 Hts Htd Hr Hlen Hfetch Hparse Hret Hwants.
  destruct (normalize_url_fresh url H1 H2) as [_ Hne].
  rewrite (run_after_fetch E url args st response sp Hfetch Hparse).
  destruct (checks_return_results E _ response sp args Hret)
    as (results0 & results & Hrun & Hextra).
  rewrite Hrun, bind_Ok, Hextra, Hwants.
  pose proof (rows_ready E _ response sp args results0 results Hrun Hextra) as Hready.
  assert (Hts0 : THREAT_SCORES (snd (init_session url st)) !! normalize_url url = Some d).
  { cbn [init_session snd THREAT_SCORES]. rewrite lookup_insert_ne by congruence. exact Hts. }
  assert (Htd0 : THREAT_DETAILS (snd (init_session url st)) !! normalize_url url = Some dd).
  { cbn [init_session snd THREAT_DETAILS]. rewrite lookup_insert_ne by congruence. exact Htd. }
  destruct (score_rows_writes _ args results scoring_rows _ d dd Hts0 Htd0 Hready)
    as (st' & Hscore & W1 & W2).
  destruct (score_rows_ok _ args results scoring_rows _ d dd Hts0 Htd0 Hr Hready)
    as (st2 & d' & dd' & Hscore2 & G1 & G2 & Hr' & Hlen').
  rewrite Hscore in Hscore2. inversion Hscore2; subst st2.
  destruct (overall_after_scoring _ st' d' dd' G1 G2 Hr') as (score & details & Hov & _).
  { unfold scoring_rows in Hlen'. cbn [length] in Hlen'. lia. }
  rewrite Hscore, Hov.
  exists (<["threat_score" := threat_score_entry score details]> results),
    score, details, st', d'.
  split; [reflexivity |]. split; [apply lookup_insert_eq |]. split; [exact Hov |].
  split; [| split; [exact G1 |]].
  - destruct (score_rows_frame (normalize_url url) args results scoring_rows url
                (snd (init_session url st))) as [F1 _]; [congruence |].
    rewrite Hscore in F1. cbn [snd] in F1. rewrite F1.
    cbn [init_session snd THREAT_SCORES]. apply lookup_insert_eq.
  - intros k v Hget Hunsel.
    assert (Hd' : d' = write_scores (flat_map (contribution args results) scoring_rows) d)
      by congruence.
    rewrite Hd'. apply write_scores_keeps; [exact Hget |].
    intros Hin.
    destruct (contribution_key_selected args results scoring_rows k Hin)
      as (row & Hrow & Hk & Hf).
    rewrite (Hunsel row Hrow Hk) in Hf. discriminate.
Qed.

Lemma raw_url_reuses_old_session_witness :
  exists results score details st' d',
    process_url_with_results plain_env "example.com" (only "security")
      (session "http://example.com" [("ssl", 40)] []) = (Ok results, st')
    /\ results !! "threat_score" = Some (threat_score_entry score details)
    /\ calculate_overall_threat_score (normalize_url "example.com") st'
       = Ok (score, details)
    /\ THREAT_SCORES st' !! "example.com" = Some []
    /\ THREAT_SCORES st' !! normalize_url "example.com" = Some d'
    /\ forall k v,
         dict_get [("ssl", 40)] k = Some v ->
         (forall row, In row scoring_rows -> row_kind row = k ->
                      flag (only "security") (row_flag row) = false) ->
         dict_get d' k = Some v.
Proof.
  apply (raw_url_reuses_old_session plain_env "example.com" (only "security")
           (session "http://example.com" [("ssl", 40)] [])
           plain_response plain_soup [("ssl", 40)] []).
  - reflexivity.
  - reflexivity.
  - apply session_lookup.
  - apply session_lookup.
  - repeat constructor; cbn; lia.
  - cbn. lia.
  - reflexivity.
  - reflexivity.
  - vm_compute. reflexivity.
  - reflexivity.
Defined.

Lemma process_url_store (E : env) url args st :
  snd (process_url E url args st) = snd (init_session url st).
Proof.
  unfold process_url, mbind, M_bind, mret, M_ret, lift, aggregate. cbn [init_session].
  destruct (check_url E (normalize_url url)) as [response |]; [| reflexivity].
  destruct (parse_html E response) as [msg | sp]; [reflexivity |].
  destruct (flag args "all").
  - destruct (run_all_checks E _ sp response); [| reflexivity].
    destruct (calculate_overall_threat_score _ _); reflexivity.
  - destruct (run_print_blocks E _ response sp args print_blocks); [| reflexivity].
    destruct (extra_blocks E args ∅); reflexivity.
Qed.

(** Property X14. [process_url] never records a contribution: whatever is
    selected and however the run ends, it leaves the stores as they were
    once the session was opened. For a URL given with its scheme the
    assessment it shows under [--all] is therefore always score 0 with no
    details. *)
Theorem process_url_scores_nothing (E : env) (url : string) (args : Args) (st : store) :
  snd (process_url E url args st) = snd (init_session url st)
  /\ (normalize_url url = url ->
      forall shown, fst (process_url E url args st) = Ok (Some shown) ->
                    shown = (0, [])).
Proof.
  split; [apply process_url_store |].
  intros Hnorm shown.
  unfold process_url, mbind, M_bind, mret, M_ret, lift, aggregate. cbn [init_session].
  rewrite Hnorm.
  destruct (check_url E url) as [response |]; [| discriminate].
  destruct (parse_html E response) as [msg | sp]; [discriminate |].
  destruct (flag args "all").
  - destruct (run_all_checks E _ sp response); [| discriminate].
    unfold calculate_overall_threat_score. cbn [THREAT_SCORES THREAT_DETAILS].
    rewrite !lookup_insert_eq. cbn [fst]. congruence.
  - destruct (run_print_blocks E _ response sp args print_blocks); [| discriminate].
    destruct (extra_blocks E args ∅); discriminate.
Qed.

Lemma process_url_scores_nothing_witness :
  fst (process_url plain_env "https://example.com" (only "all") empty_store)
  = Ok (Some (0, [])).
Proof.
  destruct (fst (process_url plain_env "https://example.com" (only "all") empty_store))
    as [[shown |] | e] eqn:Hrun.
  - rewrite (proj2 (process_url_scores_nothing plain_env "https://example.com"
                      (only "all") empty_store) eq_refl shown Hrun).
    reflexivity.
  - vm_compute in Hrun. discriminate.
  - vm_compute in Hrun. discriminate.
Defined.

Lemma session_holds_selected_rows_witness :
  let args := selecting ["csp"; "security"] in
  exists results st',
    process_url_with_results plain_env "https://example.com" args empty_store
    = (Ok results, st')
    /\ let cs := flat_map (contribution args results) scoring_rows in
       THREAT_DETAILS st' !! "https://example.com" = Some cs
       /\ THREAT_SCORES st' !! "https://example.com"
          = Some (map (fun c => (fst c, d_score (snd c))) cs)
       /\ map fst cs
          = map row_kind (List.filter (fun row => flag args (row_flag row)) scoring_rows).
Proof.
  intros args.
  apply (session_holds_selected_rows plain_env "https://example.com" args empty_store
           plain_response plain_soup);
    vm_compute; reflexivity.
Defined.

(** ** More on the Aggregator *)

Lemma weight_class (check : string) :
  exists k, In k weight_classes
            /\ get_default weights check f1_0 = get_default weights k f1_0.
Proof.
  unfold get_default, weights. cbn [dict_get].
  repeat match goal with
         | |- context [String.eqb ?a check] => destruct (String.eqb a check)
         end;
    match goal with
    | |- exists k, _ /\ ?w = _ =>
        first [ exists "security"; split; [cbn; tauto | reflexivity]
              | exists "ssl"; split; [cbn; tauto | reflexivity]
              | exists "clickjacking"; split; [cbn; tauto | reflexivity]
              | exists "passwords"; split; [cbn; tauto | reflexivity]
              | exists "iframe_security"; split; [cbn; tauto | reflexivity]
              | exists "leaks"; split; [cbn; tauto | reflexivity]
              | exists "sec_headers"; split; [cbn; tauto | reflexivity] ]
    end.
Qed.

Lemma single_by_weight (k1 k2 : string) (s : Z) :
  get_default weights k1 f1_0 = get_default weights k2 f1_0 ->
  weighted_average [(k1, s)] = weighted_average [(k2, s)].
Proof.
  intros H. unfold weighted_average. cbn [for_items]. rewrite !accumulate_first.
  cbn [fst snd]. now rewrite H.
Qed.

Lemma singles_checked :
  forallb
    (fun n =>
       forallb
         (fun k =>
            match weighted_average [(k, Z.of_nat n - 100)] with
            | Ok z => Z.eqb z (Z.of_nat n - 100)
            | Raise _ => false
            end)
         weight_classes)
    (seq 0 201) = true.
Proof. vm_compute. reflexivity. Qed.

Lemma single_average (kind : string) (s : Z) :
  -100 <= s <= 100 -> weighted_average [(kind, s)] = Ok s.
Proof.
  intros Hs. destruct (weight_class kind) as (k & Hk & Hw).
  rewrite (single_by_weight kind k s Hw).
  pose proof singles_checked as H. rewrite forallb_forall in H.
  specialize (H (Z.to_nat (s + 100))).
  assert (Hin : In (Z.to_nat (s + 100)) (seq 0 201)) by (apply in_seq; lia).
  specialize (H Hin). rewrite forallb_forall in H. specialize (H k Hk).
  replace (Z.of_nat (Z.to_nat (s + 100)) - 100) with s in H by lia.
  destruct (weighted_average [(k, s)]) as [z |]; [| discriminate].
  apply Z.eqb_eq in H. now subst z.
Qed.

(** Property X15. A session with a single contribution aggregates to that
    score, whatever the kind and its weight, for every score from -100 to
    100: in particular a negative score is returned as it is (the result is
    capped at 100 only). *)
Theorem single_contribution_is_overall (url kind : string) (s : Z)
    (details : list (string * detail)) :
  -100 <= s <= 100 ->
  calculate_overall_threat_score url (session url [(kind, s)] details) = Ok (s, details).
Proof.
  intros Hs. rewrite overall_of_session by discriminate.
  now rewrite (single_average kind s Hs).
Qed.

Lemma single_contribution_is_overall_witness :
  calculate_overall_threat_score "u" (session "u" [("custom", -7)] []) = Ok (-7, []).
Proof. apply single_contribution_is_overall. lia. Defined.

Lemma zero_products (scores : list (string * Z)) : forall a,
  a = S754_zero false ->
  Forall (fun c => snd c = 0) scores ->
  fold_left fadd (map (fun c => fmul (round_Z (snd c)) (spec_weight (fst c))) scores) a
  = S754_zero false.
Proof.
  induction scores as [| [k s] scores IH]; intros a Ha Hz; [exact Ha |].
  apply Forall_cons in Hz as [Hs Hz]. cbn [snd] in Hs. subst s a.
  cbn [map fold_left fst snd]. apply IH; [| exact Hz].
  destruct (weight_class k) as (k' & Hk & Hw). unfold spec_weight. rewrite Hw.
  cbn in Hk.
  destruct Hk as [<- | [<- | [<- | [<- | [<- | [<- | [<- | []]]]]]]]; reflexivity.
Qed.

(** Property X16. A session whose contributions are all 0 (at most 400 of
    them) aggregates to 0. *)
Theorem all_zero_session_scores_zero (url : string) (scores : list (string * Z))
    (details : list (string * detail)) :
  scores <> [] -> Forall (fun c => snd c = 0) scores -> (length scores <= 400)%nat ->
  calculate_overall_threat_score url (session url scores details) = Ok (0, details).
Proof.
  intros Hne Hz Hlen.
  assert (Hr : in_range scores).
  { unfold in_range. eapply Forall_impl; [exact Hz |]. intros c Hc. cbv beta in Hc. lia. }
  destruct (weighted_average_spec scores Hne Hr Hlen) as (z & Hw & Hspec & _).
  rewrite overall_of_session by exact Hne. rewrite Hw, bind_Ok.
  revert Hspec. unfold spec_overall, sum_floats.
  rewrite zero_products by (reflexivity || exact Hz).
  destruct (fold_left fadd (map (fun c => spec_weight (fst c)) scores) (S754_zero false))
    as [sg | sg | | sg m e]; try destruct sg; intros H; lazy in H;
    inversion H; subst; reflexivity.
Qed.

Lemma all_zero_session_scores_zero_witness :
  calculate_overall_threat_score "u"
    (session "u" [("ssl", 0); ("leaks", 0); ("sec_headers", 0)] []) = Ok (0, []).
Proof.
  apply all_zero_session_scores_zero.
  - discriminate.
  - repeat constructor.
  - cbn. lia.
Defined.

(** Property X17. The threat-score part opens for [--all] and for [--cors]
    as well, but neither has a scoring row: a scan of a URL given with its
    scheme that selects no flag of the twelve scoring rows reports score 0,
    "Low Risk", with no details, whatever the checks found, and leaves the
    session empty. *)
Theorem no_scoring_flag_scores_zero (E : env) (url : string) (args : Args)
    (st : store) (response : response) (sp : soup) :
  normalize_url url = url ->
  check_url E url = Some response ->
  parse_html E response = inr sp ->
  checks_return E url response sp args = true ->
  wants_threat_score args = true ->
  scoring_selected args = false ->
  exists results,
    process_url_with_results E url args st = (Ok results, snd (init_session url st))
    /\ results !! "threat_score"
       = Some (PDict [("score", PInt 0); ("category", PStr "Low Risk");
                      ("details", PDict [])]).
Proof.
  intros Hnorm Hfetch Hparse Hret Hwants Hnone.
  pose proof (run_after_fetch E url args st response sp) as Hstep.
  rewrite Hnorm in Hstep. specialize (Hstep Hfetch Hparse).
  destruct (checks_return_results E url response sp args Hret)
    as (results0 & results & Hrun & Hextra).
  rewrite Hrun, bind_Ok, Hextra, Hwants in Hstep.
  rewrite score_rows_unflagged in Hstep.
  - assert (Hov : calculate_overall_threat_score url (snd (init_session url st))
                  = Ok (0, [])).
    { unfold calculate_overall_threat_score.
      cbn [init_session snd THREAT_SCORES THREAT_DETAILS].
      rewrite !lookup_insert_eq. reflexivity. }
    cbv beta iota in Hstep. rewrite Hov in Hstep. cbn [fst snd] in Hstep.
    exists (<["threat_score" := threat_score_entry 0 []]> results).
    split; [exact Hstep |]. rewrite lookup_insert_eq. reflexivity.
  - apply List.Forall_forall. intros row Hin.
    unfold scoring_selected in Hnone.
    destruct (flag args (fst (fst (fst row)))) eqn:Hf; [| reflexivity].
    assert (Hex : existsb (fun row : string * string * string * string =>
                             flag args (fst (fst (fst row)))) scoring_rows = true)
      by (apply existsb_exists; exists row; split; assumption).
    congruence.
Qed.

Lemma no_scoring_flag_scores_zero_witness :
  exists results,
    process_url_with_results plain_env "https://example.com" (only "cors") empty_store
    = (Ok results, snd (init_session "https://example.com" empty_store))
    /\ results !! "threat_score"
       = Some (PDict [("score", PInt 0); ("category", PStr "Low Risk");
                      ("details", PDict [])]).
Proof.
  apply (no_scoring_flag_scores_zero plain_env "https://example.com" (only "cors")
           empty_store plain_response plain_soup);
    vm_compute; reflexivity.
Defined.

(** ** Presentation and batches *)

Lemma bars_checked :
  forallb
    (fun n =>
       match filled_length (Z.of_nat n) with
       | Ok f => Z.leb 0 f && Z.leb f 50 && Z.leb (Z.abs (2 * f - Z.of_nat n)) 1
                 && Nat.eqb (length (bar_of f)) 50
                 && (negb (Z.eqb (2 * f) (Z.of_nat n + 1)) || Z.even f)
                 && (negb (Z.eqb (2 * f) (Z.of_nat n - 1)) || Z.even f)
       | Raise _ => false
       end)
    (seq 0 101) = true.
Proof. vm_compute. reflexivity. Qed.

(** Property X18. The bar of [print_threat_score]. Its colour is the colour
    of the category for every score (the two threshold chains agree); for a
    score in [0,100] printing succeeds, the bar has exactly 50 cells and the
    number of full cells is half the score, a half rounded to the even
    neighbour; only contributions with a positive score are listed as risk
    factors. *)
Theorem threat_bar_shape (domain : string) (score : Z)
    (details : list (string * detail)) :
  bar_color score = snd (get_threat_category score)
  /\ (0 <= score <= 100 ->
      exists view filled,
        print_threat_score domain score details = Ok view
        /\ tv_bar view = bar_of filled
        /\ length (tv_bar view) = 50%nat
        /\ 0 <= filled <= 50
        /\ Z.abs (2 * filled - score) <= 1
        /\ (2 * filled <> score -> Z.even filled = true)
        /\ tv_color view = tv_bar_color view
        /\ Forall (fun f => 0 < snd (fst (fst f))) (tv_factors view)).
Proof.
  assert (Hc : bar_color score = snd (get_threat_category score)).
  { unfold bar_color, get_threat_category.
    repeat match goal with |- context [Z.ltb ?a ?b] => destruct (Z.ltb a b) end;
      reflexivity. }
  split; [exact Hc |]. intros Hs.
  pose proof bars_checked as H. rewrite forallb_forall in H.
  specialize (H (Z.to_nat score)).
  assert (Hin : In (Z.to_nat score) (seq 0 101)) by (apply in_seq; lia).
  specialize (H Hin). rewrite Z2Nat.id in H by lia.
  unfold print_threat_score.
  destruct (get_threat_category score) as [category color] eqn:Hcat.
  destruct (filled_length score) as [f |]; [| discriminate].
  rewrite bind_Ok.
  repeat (apply andb_true_iff in H as [H ?]).
  eexists _, f. split; [reflexivity |]. cbn [tv_bar tv_color tv_bar_color tv_factors].
  split; [reflexivity |].
  split; [now apply Nat.eqb_eq |].
  split; [lia |]. split; [lia |].
  split.
  - intros Hne.
    destruct (Z.eqb (2 * f) (score + 1)) eqn:E1; destruct (Z.eqb (2 * f) (score - 1)) eqn:E2;
      cbn [negb orb] in *; try assumption; lia.
  - split; [rewrite Hc; cbn [snd]; reflexivity |].
    unfold risk_factors. apply List.Forall_forall. intros x Hx.
    apply in_flat_map in Hx as (c & _ & Hx).
    destruct (Z.ltb 0 (d_score (snd c))) eqn:Hpos; [| destruct Hx].
    destruct Hx as [<- | []]. cbn [fst snd]. now apply Z.ltb_lt.
Qed.

Lemma threat_bar_shape_witness :
  exists view filled,
    print_threat_score "example.com" 72 [] = Ok view
    /\ tv_bar view = bar_of filled
    /\ length (tv_bar view) = 50%nat
    /\ 0 <= filled <= 50
    /\ Z.abs (2 * filled - 72) <= 1
    /\ (2 * filled <> 72 -> Z.even filled = true)
    /\ tv_color view = tv_bar_color view
    /\ Forall (fun f => 0 < snd (fst (fst f))) (tv_factors view).
Proof.
  apply (proj2 (threat_bar_shape "example.com" 72 [])). lia.
Defined.

Lemma scan_urls_no_export (E : env) (args : Args) (urls : list string) :
  flag args "export_results" = false ->
  forall all_results st all_results' st',
    scan_urls E urls args all_results st = (Ok all_results', st') ->
    all_results' = all_results.
Proof.
  intros Hf. induction urls as [| url urls IH]; intros all_results st all' st' Hrun.
  - cbn in Hrun. inversion Hrun. reflexivity.
  - cbn [scan_urls] in Hrun. rewrite Hf in Hrun. unfold mbind, M_bind in Hrun.
    destruct (process_url E url args st) as [[shown | e] st1]; [| discriminate].
    exact (IH _ _ _ _ Hrun).
Qed.

(** Property X19. In batch and interactive mode results are collected only
    under [--export-results]: without it nothing is handed to
    [export_results], and nothing is sent to a webhook either, even when
    [--webhook] is given. *)
Theorem webhook_alone_sends_nothing (E : env) (urls : list string) (args : Args)
    (webhook : option string) (st : store) :
  flag args "export_results" = false ->
  (forall to_file to_webhook,
      fst (process_batch E (Ok urls) args webhook st) = Finished to_file to_webhook ->
      to_file = None /\ to_webhook = None)
  /\ (forall to_file to_webhook,
         fst (process_input_urls E urls args webhook st)
         = Ok (Finished to_file to_webhook) ->
         to_file = None /\ to_webhook = None).
Proof.
  intros Hf.
  assert (Hh : hand_over args webhook [] = Finished None None).
  { unfold hand_over. now rewrite andb_false_r. }
  split; intros to_file to_webhook.
  - unfold process_batch. destruct urls as [| url urls]; [discriminate |].
    destruct (scan_urls E (url :: urls) args [] st) as [[all_results | e] st'] eqn:Hrun;
      [| discriminate].
    rewrite (scan_urls_no_export E args _ Hf _ _ _ _ Hrun), Hh. cbn [fst].
    intros H. inversion H. split; reflexivity.
  - unfold process_input_urls. destruct urls as [| url urls]; [discriminate |].
    unfold mbind, M_bind, mret, M_ret.
    destruct (scan_urls E (url :: urls) args [] st) as [[all_results | e] st'] eqn:Hrun;
      [| discriminate].
    rewrite (scan_urls_no_export E args _ Hf _ _ _ _ Hrun), Hh. cbn [fst].
    intros H. inversion H. split; reflexivity.
Qed.

Lemma webhook_alone_sends_nothing_witness :
  fst (process_batch plain_env (Ok ["https://example.com"]) (only "security")
         (Some "https://hooks.example/in") empty_store)
  = Finished None None.
Proof.
  destruct (fst (process_batch plain_env (Ok ["https://example.com"]) (only "security")
                   (Some "https://hooks.example/in") empty_store))
    as [| to_file to_webhook | e] eqn:Hrun.
  - vm_compute in Hrun. discriminate.
  - destruct (proj1 (webhook_alone_sends_nothing plain_env ["https://example.com"]
                       (only "security") (Some "https://hooks.example/in") empty_store
                       eq_refl) to_file to_webhook Hrun) as [-> ->].
    reflexivity.
  - vm_compute in Hrun. discriminate.
Defined.

Lemma scan_urls_app (E : env) (args : Args) (pre post : list string) :
  forall all_results st,
    scan_urls E (pre ++ post) args all_results st
    = match scan_urls E pre args all_results st with
      | (Ok all1, st1) => scan_urls E post args all1 st1
      | (Raise e, st1) => (Raise e, st1)
      end.
Proof.
  induction pre as [| url pre IH]; intros all_results st; [reflexivity |].
  cbn [app scan_urls]. unfold mbind, M_bind.
  destruct (flag args "export_results").
  - destruct (process_url_with_results E url args st) as [[r | e] st1]; [apply IH | reflexivity].
  - destruct (process_url E url args st) as [[r | e] st1]; [apply IH | reflexivity].
Qed.

(** Property X20. One failing URL ends a batch: when the scan of a URL
    raises, the [except] of [process_batch] catches the error, the results
    already collected for the URLs before it are not exported, and no URL
    after it is scanned (the stores are those the failing scan left).
    [process_input_urls] runs the same loop outside any [try], so there the
    exception leaves the function. *)
Theorem batch_ends_at_first_failure (E : env) (pre post : list string) (u : string)
    (args : Args) (webhook : option string) (st st1 st2 : store)
    (collected : list (string * gmap string pyval)) (e : exn) :
  flag args "export_results" = true ->
  scan_urls E pre args [] st = (Ok collected, st1) ->
  process_url_with_results E u args st1 = (Raise e, st2) ->
  process_batch E (Ok (pre ++ u :: post)%list) args webhook st = (Caught e, st2)
  /\ process_input_urls E (pre ++ u :: post)%list args webhook st = (Raise e, st2).
Proof.
  intros Hf Hpre Hu.
  assert (Hrun : scan_urls E (pre ++ u :: post)%list args [] st = (Raise e, st2)).
  { rewrite scan_urls_app, Hpre. cbn [scan_urls]. rewrite Hf.
    unfold mbind, M_bind. now rewrite Hu. }
  split.
  - unfold process_batch. destruct (pre ++ u :: post)%list eqn:Hl.
    + destruct pre; discriminate.
    + now rewrite Hrun.
  - unfold process_input_urls. destruct (pre ++ u :: post)%list eqn:Hl.
    + destruct pre; discriminate.
    + unfold mbind, M_bind. now rewrite Hrun.
Qed.

Lemma batch_ends_at_first_failure_witness :
  let args := selecting ["vulns"; "export_results"] in
  let st2 := snd (process_url_with_results bad_link_env "https://a.example" args
                    empty_store) in
  process_batch bad_link_env (Ok ([] ++ "https://a.example" :: ["https://b.example"])%list)
    args None empty_store = (Caught ValueError, st2)
  /\ process_input_urls bad_link_env ([] ++ "https://a.example" :: ["https://b.example"])%list
       args None empty_store = (Raise ValueError, st2).
Proof.
  intros args st2.
  apply (batch_ends_at_first_failure bad_link_env [] ["https://b.example"]
           "https://a.example" args None empty_store empty_store st2 [] ValueError).
  - reflexivity.
  - reflexivity.
  - unfold st2.
    assert (H : fst (process_url_with_results bad_link_env "https://a.example" args
                       empty_store) = Raise ValueError) by (vm_compute; reflexivity).
    destruct (process_url_with_results bad_link_env "https://a.example" args empty_store)
      as [r s]. cbn [fst snd] in *. now rewrite H.
Defined.

(** ** The Scorer's reach, one-flag scans and the error paths *)

(** Property X21. The Scorer looks at nothing but the fields of its rule:
    two dictionary payloads that agree on the fields read for a check
    name get the same result (score or exception), and a check name
    outside the twelve rules scores 0 on every payload. *)
Theorem scorer_reads_only_its_fields (kind : string) :
  (forall d1 d2 : list (string * pyval),
      (forall k, In k (fields_read kind) -> dict_get d1 k = dict_get d2 k) ->
      calculate_threat_score kind (PDict d1) = calculate_threat_score kind (PDict d2))
  /\ (fields_read kind = [] -> forall p, calculate_threat_score kind p = Ok 0).
Proof.
  split.
  - intros d1 d2. unfold calculate_threat_score, fields_read.
    repeat match goal with
           | |- context [String.eqb kind ?b] => destruct (String.eqb kind b)
           end;
      intros H; unfold add_if_not, add_if, get_default;
      repeat match goal with
             | |- context [dict_get d1 ?k] => rewrite (H k) by (cbn; tauto)
             end;
      reflexivity.
  - unfold calculate_threat_score, fields_read.
    repeat match goal with
           | |- context [String.eqb kind ?b] => destruct (String.eqb kind b)
           end;
      intros H p; try discriminate H; reflexivity.
Qed.

Lemma contribution_unselected args results rows :
  flat_map (contribution args results) rows
  = flat_map (contribution args results)
      (List.filter (fun row => flag args (row_flag row)) rows).
Proof.
  induction rows as [| row rows IH]; [reflexivity |].
  cbn [flat_map List.filter]. destruct (flag args (row_flag row)) eqn:Hf.
  - cbn [flat_map]. now rewrite IH.
  - rewrite IH. unfold contribution at 1. now rewrite Hf.
Qed.

(** Property X22. A scan that selects exactly one scoring flag reports
    that check's own score as the overall score: for a URL given with
    its scheme, once the page is fetched and parsed and the selected
    checks return, [results["threat_score"]] holds the Scorer's result
    on the payload of that check, with that single contribution as its
    details. *)
Theorem single_flag_scan_reports_its_score (E : env) (url : string) (args : Args)
    (st : store) (response : response) (sp : soup)
    (row : string * string * string * string) :
  normalize_url url = url ->
  check_url E url = Some response ->
  parse_html E response = inr sp ->
  checks_return E url response sp args = true ->
  List.filter (fun r => flag args (row_flag r)) scoring_rows = [row] ->
  exists results payload s st',
    process_url_with_results E url args st = (Ok results, st')
    /\ results !! row_key row = Some payload
    /\ calculate_threat_score (row_kind row) payload = Ok s
    /\ results !! "threat_score"
       = Some (threat_score_entry s
                 [(row_kind row, {| d_score := s; d_reason := row_reason row |})]).
Proof.
  intros Hnorm Hfetch Hparse Hret Hone.
  assert (Hin : In row scoring_rows /\ flag args (row_flag row) = true).
  { apply (filter_In (fun r => flag args (row_flag r))). rewrite Hone. now left. }
  destruct Hin as [Hin Hflag].
  assert (Hwants : wants_threat_score args = true).
  { apply scoring_selected_wants. unfold scoring_selected.
    apply existsb_exists. exists row. split; [exact Hin | exact Hflag]. }
  pose proof (run_after_fetch E url args st response sp) as Hstep.
  rewrite Hnorm in Hstep. specialize (Hstep Hfetch Hparse).
  destruct (checks_return_results E url response sp args Hret)
    as (results0 & results & Hrun & Hextra).
  rewrite Hrun, bind_Ok, Hextra, Hwants in Hstep.
  pose proof (rows_ready E url response sp args results0 results Hrun Hextra) as Hready.
  assert (Hrow : row_ready args results row)
    by (rewrite List.Forall_forall in Hready; exact (Hready row Hin)).
  destruct (Hrow Hflag) as (payload & s & Hlook & Hs & Hsr).
  fold (row_key row) in Hlook. fold (row_kind row) in Hs.
  assert (Hcs : flat_map (contribution args results) scoring_rows
                = [(row_kind row, {| d_score := s; d_reason := row_reason row |})]).
  { rewrite contribution_unselected, Hone. cbn [flat_map]. unfold contribution.
    rewrite Hflag, Hlook, Hs. reflexivity. }
  destruct (score_rows_writes url args results scoring_rows (snd (init_session url st)) [] [])
    as (st' & Hscore & H1 & H2);
    [cbn [init_session snd THREAT_SCORES]; apply lookup_insert_eq
    | cbn [init_session snd THREAT_DETAILS]; apply lookup_insert_eq
    | exact Hready |].
  rewrite Hcs in H1, H2. unfold write_scores in H1. unfold write_details in H2.
  cbn [fold_left dict_set fst snd d_score] in H1, H2.
  assert (Hov : calculate_overall_threat_score url st'
                = Ok (s, [(row_kind row, {| d_score := s; d_reason := row_reason row |})])).
  { unfold calculate_overall_threat_score. rewrite H1, H2.
    rewrite single_average by lia. reflexivity. }
  rewrite Hscore in Hstep. cbv beta iota in Hstep. rewrite Hov in Hstep.
  cbn [fst snd] in Hstep.
  exists (<["threat_score" :=
              threat_score_entry s
                [(row_kind row, {| d_score := s; d_reason := row_reason row |})]]> results),
    payload, s, st'.
  split; [exact Hstep |].
  assert (Hkey : row_key row <> "threat_score").
  { assert (H : Forall (fun r => row_key r <> "threat_score") scoring_rows)
      by (apply (bool_decide_unpack _); vm_compute; exact I).
    rewrite List.Forall_forall in H. exact (H row Hin). }
  split; [rewrite lookup_insert_ne by congruence; exact Hlook |].
  split; [exact Hs |]. now rewrite lookup_insert_eq.
Qed.

Lemma single_flag_scan_reports_its_score_witness :
  exists results payload s st',
    process_url_with_results plain_env "http://example.com" (only "security") empty_store
    = (Ok results, st')
    /\ results !! "security_info" = Some payload
    /\ calculate_threat_score "security" payload = Ok s
    /\ results !! "threat_score"
       = Some (threat_score_entry s
                 [("security",
                   {| d_score := s; d_reason := "HTTPS and security header issues" |})]).
Proof.
  apply (single_flag_scan_reports_its_score plain_env "http://example.com"
           (only "security") empty_store plain_response plain_soup
           ("security", "security_info", "security", "HTTPS and security header issues"));
    vm_compute; reflexivity.
Defined.


Lemma dict_set_keys {A} (d : list (string * A)) k v :
  map fst (dict_set k v d)
  = if dict_mem d k then map fst d else (map fst d ++ [k])%list.
Proof.
  unfold dict_mem. induction d as [| [k0 v0] d IH]; cbn [dict_set dict_get map fst app].
  - reflexivity.
  - destruct (String.eqb k0 k) eqn:E; cbn [map fst].
    + apply String.eqb_eq in E. now subst k0.
    + rewrite IH. now destruct (dict_get d k).
Qed.

Lemma dict_mem_In {A} (d : list (string * A)) k :
  dict_mem d k = true <-> In k (map fst d).
Proof.
  unfold dict_mem. induction d as [| [k0 v0] d IH]; cbn [dict_get map fst In].
  - split; [discriminate | tauto].
  - destruct (String.eqb k0 k) eqn:E.
    + apply String.eqb_eq in E. split; auto.
    + apply String.eqb_neq in E. rewrite IH. split; [auto | intros [? | ?]; tauto].
Qed.

Lemma scan_urls_keys (E : env) (args : Args) (urls : list string) :
  flag args "export_results" = true ->
  forall acc st all_results st',
    scan_urls E urls args acc st = (Ok all_results, st') ->
    List.NoDup (map fst acc) ->
    List.NoDup (map fst all_results)
    /\ forall u, In u (map fst all_results) <-> In u (map fst acc) \/ In u urls.
Proof.
  intros Hf. induction urls as [| url urls IH]; intros acc st all_results st' Hrun Hnd.
  - cbn in Hrun. inversion Hrun; subst. split; [exact Hnd |]. cbn. tauto.
  - cbn [scan_urls] in Hrun. rewrite Hf in Hrun. unfold mbind, M_bind in Hrun.
    destruct (process_url_with_results E url args st) as [[r | e] st1]; [| discriminate].
    destruct (IH _ _ _ _ Hrun) as [H1 H2].
    + rewrite dict_set_keys. destruct (dict_mem acc url) eqn:Hm; [exact Hnd |].
      apply NoDup_ListNoDup, NoDup_app.
      split; [apply NoDup_ListNoDup; exact Hnd |]. split; [| apply NoDup_singleton].
      intros x Hx Hx'. apply list_elem_of_singleton in Hx'. subst x.
      apply list_elem_of_In, dict_mem_In in Hx. congruence.
    + split; [exact H1 |]. intros u. rewrite H2, dict_set_keys.
      destruct (dict_mem acc url) eqn:Hm.
      * apply dict_mem_In in Hm. cbn [In]. split; [tauto |].
        intros [? | [<- | ?]]; tauto.
      * rewrite in_app_iff. cbn [In]. tauto.
Qed.

(** Property X24. The results a batch exports are keyed by the URL as
    given: when the loop finishes under [--export-results], every URL of
    the list has one entry and no URL has two, however often it is
    listed (a later scan of the same URL replaces the earlier entry). *)
Theorem batch_results_keyed_by_url (E : env) (urls : list string) (args : Args)
    (st st' : store) (all_results : list (string * gmap string pyval)) :
  flag args "export_results" = true ->
  scan_urls E urls args [] st = (Ok all_results, st') ->
  List.NoDup (map fst all_results)
  /\ forall u, In u (map fst all_results) <-> In u urls.
Proof.
  intros Hf Hrun.
  destruct (scan_urls_keys E args urls Hf [] st all_results st' Hrun) as [H1 H2];
    [constructor |].
  split; [exact H1 |]. intros u. rewrite H2. cbn. tauto.
Qed.

Lemma batch_results_keyed_by_url_witness :
  let args := selecting ["security"; "export_results"] in
  let urls := ["https://a.example"; "https://b.example"; "https://a.example"] in
  exists all_results st',
    scan_urls plain_env urls args [] empty_store = (Ok all_results, st')
    /\ List.NoDup (map fst all_results)
    /\ forall u, In u (map fst all_results) <-> In u urls.
Proof.
  intros args urls.
  destruct (scan_urls plain_env urls args [] empty_store) as [[all_results | e] st']
    eqn:Hrun.
  - exists all_results, st'. split; [reflexivity |].
    exact (batch_results_keyed_by_url plain_env urls args empty_store st' all_results
             eq_refl Hrun).
  - assert (H : is_ok (fst (scan_urls plain_env urls args [] empty_store)) = true)
      by (vm_compute; reflexivity).
    rewrite Hrun in H. discriminate.
Defined.
